(** * Alumni-Dash WoW Speaker Series: ingestion and normalisation core

    A shallow embedding of the data path of the dashboard:
    - [utils.load_data] and [wow_analysis_app.load_default_data] (sheet loader),
    - [utils.clean_data] (record normaliser),
    - [utils.get_decade_label], [attendance_analysis.get_decade],
    - the two nested [standardize_wealth_range] helpers of
      [giving_analysis] and [targeting_analysis].

    Modelling conventions.
    - Python strings are [string]s.  The string functions are those of
      Python on ASCII text; a statement about a class of texts on which
      Python looks at characters past U+007F says that the text is ASCII.
    - A Python [int] is a [Z].  A column of dtype [int64] holds [Z]s of the
      64-bit range, and arithmetic on it wraps around ([wrap64]).
    - A float is the rational [Q] it stands for, and float arithmetic is
      that of the rationals; [str] of a float is the shortest decimal that
      reads back as the nearest double.  Infinities and negative zero are
      outside the model.  A missing value (NaN, None, NaT) is a dedicated
      constructor or [None].
    - A [dict] and the column map of a [DataFrame] are [gmap string _]: the
      column labels of a frame are distinct strings. *)

From Stdlib Require Import ZArith QArith Qround Qabs String Ascii List Lia Lqa.
From stdpp Require Import base gmap strings list option pretty fin_maps.

Local Open Scope Z_scope.

(** ** Python string primitives *)

Module PyStr.

Definition code (a : ascii) : N := N_of_ascii a.

(** [str.isspace] on one ASCII character: the blank, the controls from
    tab to carriage return, and the separators U+001C to U+001F. *)
Definition is_space (a : ascii) : bool :=
  let n := code a in
  (N.eqb n 32 || (N.leb 9 n && N.leb n 13) || (N.leb 28 n && N.leb n 31))%N.

(** The white space of the C locale: what [int()], [float()] and the number
    parser of pandas skip around a literal.  The separators U+001C to
    U+001F are white space for [str.strip] only. *)
Definition is_c_space (a : ascii) : bool :=
  let n := code a in (N.eqb n 32 || (N.leb 9 n && N.leb n 13))%N.

(** One of the separators U+001C to U+001F. *)
Definition is_separator (a : ascii) : bool :=
  let n := code a in (N.leb 28 n && N.leb n 31)%N.

Definition is_ascii_char (a : ascii) : bool := (code a <? 128)%N.

Definition is_digit (a : ascii) : bool :=
  let n := code a in (N.leb 48 n && N.leb n 57)%N.

Definition digit_val (a : ascii) : Z := Z.of_N (code a) - 48.

Definition upper_char (a : ascii) : ascii :=
  let n := code a in
  if (N.leb 97 n && N.leb n 122)%N then ascii_of_N (n - 32) else a.

Definition lower_char (a : ascii) : ascii :=
  let n := code a in
  if (N.leb 65 n && N.leb n 90)%N then ascii_of_N (n + 32) else a.

Fixpoint map_chars (f : ascii -> ascii) (s : string) : string :=
  match s with
  | EmptyString => EmptyString
  | String a r => String (f a) (map_chars f r)
  end.

(** [s.upper()] and [s.lower()]. *)
Definition upper : string -> string := map_chars upper_char.
Definition lower : string -> string := map_chars lower_char.

Fixpoint lstrip (s : string) : string :=
  match s with
  | String a r => if is_space a then lstrip r else s
  | EmptyString => EmptyString
  end.

Fixpoint rstrip (s : string) : string :=
  match s with
  | EmptyString => EmptyString
  | String a r =>
      match rstrip r with
      | EmptyString => if is_space a then EmptyString else String a EmptyString
      | r' => String a r'
      end
  end.

(** [s.strip()]. *)
Definition strip (s : string) : string := rstrip (lstrip s).

(** The same with the white space of the C locale. *)
Fixpoint lstrip_c (s : string) : string :=
  match s with
  | String a r => if is_c_space a then lstrip_c r else s
  | EmptyString => EmptyString
  end.

Fixpoint rstrip_c (s : string) : string :=
  match s with
  | EmptyString => EmptyString
  | String a r =>
      match rstrip_c r with
      | EmptyString => if is_c_space a then EmptyString else String a EmptyString
      | r' => String a r'
      end
  end.

Definition strip_c (s : string) : string := rstrip_c (lstrip_c s).

(** [sub in s]. *)
Fixpoint contains (sub s : string) : bool :=
  String.prefix sub s ||
  match s with
  | EmptyString => false
  | String _ r => contains sub r
  end.

Fixpoint all_chars (p : ascii -> bool) (s : string) : bool :=
  match s with
  | EmptyString => true
  | String a r => p a && all_chars p r
  end.

(** Text made of ASCII characters only. *)
Definition is_ascii (s : string) : bool := all_chars is_ascii_char s.

(** [s.isdigit()]: non-empty and digits only. *)
Definition isdigit (s : string) : bool :=
  match s with
  | EmptyString => false
  | _ => all_chars is_digit s
  end.

(** Left-to-right replacement of the non-overlapping occurrences of a
    non-empty [old]; [skip] counts the characters of a match still to drop. *)
Fixpoint replace_go (old new : string) (skip : nat) (s : string) : string :=
  match s with
  | EmptyString => EmptyString
  | String a r =>
      match skip with
      | S k => replace_go old new k r
      | O =>
          if String.prefix old s
          then new +:+ replace_go old new (String.length old - 1) r
          else String a (replace_go old new O r)
      end
  end.

Fixpoint intersperse (new s : string) : string :=
  match s with
  | EmptyString => new
  | String a r => new +:+ String a (intersperse new r)
  end.

(** [s.replace(old, new)]. *)
Definition replace (old new s : string) : string :=
  match old with
  | EmptyString => intersperse new s
  | _ => replace_go old new O s
  end.

(** Value of a run of decimal digits, most significant first. *)
Fixpoint digits_value (acc : Z) (s : string) : Z :=
  match s with
  | EmptyString => acc
  | String a r => digits_value (10 * acc + digit_val a) r
  end.

(** The digit groups of an [int] literal: digits, with single underscores
    allowed between two digits.  [prev] tells whether the previous
    character was a digit. *)
Fixpoint int_body (prev : bool) (acc : Z) (s : string) : option Z :=
  match s with
  | EmptyString => if prev then Some acc else None
  | String a r =>
      if is_digit a then int_body true (10 * acc + digit_val a) r
      else if (N.eqb (code a) 95 && prev)%bool then int_body false acc r
      else None
  end.

(** [int(s)] for a string, base ten; [None] stands for [ValueError].  The
    literal may stand between blanks of the C locale: unlike [str.strip],
    [int] does not skip U+001C to U+001F.  An interpreter from Python 3.11
    on also refuses a literal of more than 4300 digits; where that matters
    a statement bounds the length of the text. *)
Definition int_of_str (s : string) : option Z :=
  match strip_c s with
  | String "-" r => Z.opp <$> int_body false 0 r
  | String "+" r => int_body false 0 r
  | r => int_body false 0 r
  end.

End PyStr.

(** ** Numbers *)

(** A value of the dtype [int64]; arithmetic on such values wraps around
    (two's complement), as numpy computes it. *)
Definition in_int64 (z : Z) : bool := (- 2 ^ 63 <=? z) && (z <? 2 ^ 63).

Definition wrap64 (z : Z) : Z := (z + 2 ^ 63) mod 2 ^ 64 - 2 ^ 63.

(** [int(x)] on a float truncates towards zero. *)
Definition Qtrunc (q : Q) : Z :=
  if Qle_bool 0 q then Qfloor q else Qceiling q.

(** ** Floats

    A float is written as a rational number and stands for the double
    nearest to it.  Comparisons and arithmetic are those of the rationals;
    [repr] prints the double. *)

(** [b ^ e] for an integer exponent of either sign. *)
Definition Qpow (b e : Z) : Q :=
  if 0 <=? e then inject_Z (b ^ e) else (/ inject_Z (b ^ (- e)))%Q.

Definition round_half_even (r : Q) : Z :=
  let f := Qfloor r in
  match (r - inject_Z f ?= 1 # 2)%Q with
  | Lt => f
  | Gt => f + 1
  | Eq => if Z.even f then f else f + 1
  end.

(** The floor of the binary logarithm of a positive number. *)
Definition ilog2 (x : Q) : Z :=
  let e := Z.log2 (Qnum x) - Z.log2 (Zpos (Qden x)) in
  if Qle_bool (Qpow 2 e) x then e else e - 1.

(** The floor of the decimal logarithm of a positive number, from an
    estimate that is off by one at most. *)
Definition ilog10 (x : Q) : Z :=
  let e := ilog2 x * 30103 / 100000 in
  if Qle_bool (Qpow 10 (e + 1)) x then e + 1
  else if Qle_bool (Qpow 10 e) x then e
  else e - 1.

(** The binary64 number nearest to [x], ties to even. *)
Definition round_double (x : Q) : Q :=
  if Qeq_bool x 0 then 0%Q
  else
    let e := Z.max (ilog2 (Qabs x) - 52) (- 1074) in
    let m := round_half_even (Qabs x / Qpow 2 e) in
    let v := (inject_Z m * Qpow 2 e)%Q in
    Qred (if Qle_bool 0 x then v else - v)%Q.

(** The decimal [d * 10 ^ s] with [n] digits that is next to the positive
    double [x] and reads back as [x], if there is one. *)
Definition short_decimal (x : Q) (n : Z) : option (Z * Z) :=
  let s := ilog10 x - n + 1 in
  let r := (x / Qpow 10 s)%Q in
  let lo := Qfloor r in
  let hi := lo + 1 in
  let reads d := Qeq_bool (round_double (inject_Z d * Qpow 10 s)) x in
  let nearest :=
    match (r - inject_Z lo ?= inject_Z hi - r)%Q with
    | Lt => lo
    | Gt => hi
    | Eq => if Z.even lo then lo else hi
    end in
  if reads lo && reads hi then Some (nearest, s)
  else if reads lo then Some (lo, s)
  else if reads hi then Some (hi, s)
  else None.

(** The shortest decimal that reads back as [x]: 17 digits always do. *)
Fixpoint shortest_decimal (fuel : nat) (x : Q) (n : Z) : Z * Z :=
  match fuel with
  | O => (round_half_even (x / Qpow 10 (ilog10 x - 16)), ilog10 x - 16)
  | S k =>
      match short_decimal x n with
      | Some ds => ds
      | None => shortest_decimal k x (n + 1)
      end
  end.

Fixpoint rstrip_zeros (s : string) : string :=
  match s with
  | EmptyString => EmptyString
  | String a r =>
      match rstrip_zeros r with
      | EmptyString => if Ascii.eqb a "0" then EmptyString else String a EmptyString
      | r' => String a r'
      end
  end.

Definition zeros (n : Z) : string :=
  String.concat "" (replicate (Z.to_nat n) "0").

(** The layout of [repr]: digits [d1 d2 ...] of the number 0.d1d2... *
    10 ^ decpt, in positional notation for -4 < decpt <= 16 and with an
    exponent otherwise. *)
Definition layout (digits : string) (decpt : Z) : string :=
  let len := Z.of_nat (String.length digits) in
  if (decpt <=? - 4) || (16 <? decpt) then
    let e := decpt - 1 in
    String.substring 0 1 digits +:+
    (if 1 <? len then "." +:+ String.substring 1 (String.length digits - 1) digits
     else "") +:+
    "e" +:+ (if e <? 0 then "-" else "+") +:+
    (if Z.abs e <? 10 then "0" else "") +:+ pretty (Z.abs e)
  else if decpt <=? 0 then "0." +:+ zeros (- decpt) +:+ digits
  else if len <=? decpt then digits +:+ zeros (decpt - len) +:+ ".0"
  else String.substring 0 (Z.to_nat decpt) digits +:+ "." +:+
       String.substring (Z.to_nat decpt) (String.length digits - Z.to_nat decpt) digits.

(** [repr] of a float, as [str] and [astype(str)] print it: the shortest
    decimal that identifies the double. *)
Definition repr_float (q : Q) : string :=
  let x := round_double q in
  if Qeq_bool x 0 then "0.0"
  else
    let '(d, s) := shortest_decimal 17 (Qabs x) 1 in
    let all := pretty d in
    (if Qle_bool 0 x then "" else "-") +:+
    layout (rstrip_zeros all) (Z.of_nat (String.length all) + s).

(** ** Timestamps *)

(** A [Timestamp] (and a cell of a [datetime64[ns]] column) is its number of
    nanoseconds since 1970-01-01T00:00:00, as pandas stores it. *)
Module Timestamp.

Definition ns_per_day : Z := 86400 * 1000000000.

(** Proleptic Gregorian date of a day number counted from 1970-01-01. *)
Definition civil_of_days (days : Z) : Z * Z * Z :=
  let z := days + 719468 in
  let era := z / 146097 in
  let doe := z - era * 146097 in
  let yoe := (doe - doe / 1460 + doe / 36524 - doe / 146096) / 365 in
  let doy := doe - (365 * yoe + yoe / 4 - yoe / 100) in
  let mp := (5 * doy + 2) / 153 in
  let d := doy - (153 * mp + 2) / 5 + 1 in
  let m := if mp <? 10 then mp + 3 else mp - 9 in
  let y := yoe + era * 400 + (if m <=? 2 then 1 else 0) in
  (y, m, d).

(** Decimal digits of [n], left-padded with zeros to [width]. *)
Definition pad (width : nat) (n : Z) : string :=
  let s := pretty n in
  String.concat "" (replicate (width - String.length s) "0") +:+ s.

Definition date_str (t : Z) : string :=
  let '(y, m, d) := civil_of_days (t / ns_per_day) in
  pad 4 y +:+ "-" +:+ pad 2 m +:+ "-" +:+ pad 2 d.

Definition is_midnight (t : Z) : bool := t mod ns_per_day =? 0.

(** [str(ts)]: date, time of day, and the fraction of a second when there
    is one (microseconds, or nanoseconds when they are needed). *)
Definition to_str (t : Z) : string :=
  let r := t mod ns_per_day in
  let secs := r / 1000000000 in
  let frac := r mod 1000000000 in
  date_str t +:+ " " +:+ pad 2 (secs / 3600) +:+ ":" +:+
  pad 2 (secs / 60 mod 60) +:+ ":" +:+ pad 2 (secs mod 60) +:+
  (if frac =? 0 then ""
   else if frac mod 1000 =? 0 then "." +:+ pad 6 (frac / 1000)
   else "." +:+ pad 9 frac).

(** The integer to which [to_numeric] maps NaT. *)
Definition iNaT : Z := - 2 ^ 63.

End Timestamp.

(** ** Cells *)

(** A Python object found in a cell of an [object] column, or passed to one
    of the scalar helpers. *)
Inductive cell :=
| CMissing                (* NaN / None *)
| CInt (z : Z)
| CFloat (q : Q)
| CStr (s : string)
| CDate (t : Z).          (* a Timestamp *)

(** [pd.isna(x)]. *)
Definition isna (c : cell) : bool :=
  match c with CMissing => true | _ => false end.

(** [str(x)]. *)
Definition py_str (c : cell) : string :=
  match c with
  | CMissing => "nan"
  | CInt z => pretty z
  | CFloat q => repr_float q
  | CStr s => s
  | CDate t => Timestamp.to_str t
  end.

(** [int(x)]; [None] stands for the [ValueError] or [TypeError] raised. *)
Definition py_int (c : cell) : option Z :=
  match c with
  | CMissing => None
  | CInt z => Some z
  | CFloat q => Some (Qtrunc q)
  | CStr s => PyStr.int_of_str s
  | CDate _ => None
  end.

(** ** Decade bucketing *)

(** f"{decade}s" *)
Definition decade_fmt (decade : Z) : string := pretty decade +:+ "s".

(** [attendance_analysis.attendance_by_decade.get_decade]. *)
Definition get_decade (year : cell) : string :=
  if isna year then "Unknown"
  else
    match py_int year with
    | Some year_int =>
        if year_int <? 1950 then "Pre-1950s"
        else if 2020 <=? year_int then "2020s"
        else decade_fmt (year_int / 10 * 10)
    | None =>
        (* except (ValueError, TypeError): string parsing fallback; the
           [int] of a run of ASCII digits is its [digits_value]. *)
        let year_str := PyStr.strip (py_str year) in
        if PyStr.isdigit year_str && (String.length year_str =? 4)%nat then
          let year_int := PyStr.digits_value 0 year_str in
          if year_int <? 1950 then "Pre-1950s"
          else if 2020 <=? year_int then "2020s"
          else decade_fmt (year_int / 10 * 10)
        else if PyStr.isdigit year_str && (String.length year_str =? 2)%nat then
          let year_int := PyStr.digits_value 0 year_str in
          if 50 <=? year_int then decade_fmt (1900 + year_int / 10 * 10)
          else decade_fmt (2000 + year_int / 10 * 10)
        else "Unknown"
    end.

(** [utils.get_decade_label]; the bare [except] turns every failure of
    [int] into "Unknown". *)
Definition get_decade_label (year : cell) : string :=
  if isna year then "Unknown"
  else
    match py_int year with
    | Some y => decade_fmt (y / 10 * 10)
    | None => "Unknown"
    end.

(** ** Wealth-range standardisation *)

Module Giving.

(** [giving_analysis.wealth_range_distribution.standardize_wealth_range]. *)
Definition standardize_wealth_range (we_range : cell) : string :=
  if isna we_range then "Unknown"
  else
    let we_range := PyStr.upper (PyStr.strip (py_str we_range)) in
    let has p := PyStr.contains p we_range in
    if has "UNDER" || has "<" then "Under $100K"
    else if has "100K-250K" || has "100-250" then "$100K-$250K"
    else if has "250K-500K" || has "250-500" then "$250K-$500K"
    else if has "500K-1M" || has "500-1000" then "$500K-$1M"
    else if has "1M-5M" || has "1000-5000" then "$1M-$5M"
    else if has "5M+" || has ">5M" || has "OVER 5M" then "Over $5M"
    else "Unknown".

End Giving.

Module Targeting.

(** U+2212 MINUS SIGN, as its UTF-8 bytes. *)
Definition minus_sign : string :=
  String (ascii_of_N 226) (String (ascii_of_N 136) (String (ascii_of_N 146) "")).

Definition newline : string := String (ascii_of_N 10) "".

(** [targeting_analysis.high_capacity_prospects.standardize_wealth_range]. *)
Definition standardize_wealth_range (we_range : cell) : string :=
  if isna we_range then "Unknown"
  else
    let we_range := PyStr.upper (PyStr.strip (py_str we_range)) in
    let we_range := PyStr.replace minus_sign "-" (PyStr.replace newline "" we_range) in
    let has p := PyStr.contains p we_range in
    if has "5,000,000+" || has "5M+" then "Over $5M"
    else if has "1,000,000-4,999,999" || has "1M-5M" then "$1M-$5M"
    else if has "500,000-999,999" || has "500K-1M" then "$500K-$1M"
    else if has "250,000-499,999" || has "250K-500K" then "$250K-$500K"
    else if has "100,000-249,999" || has "100K-250K" then "$100K-$250K"
    else if has "50,000-99,999" || has "50K-100K" then "$50K-$100K"
    else "Under $50K".

End Targeting.

(** The canonical vocabulary of the specification. *)
Definition wealth_vocabulary : list string :=
  ["Under $50K"; "$50K-$100K"; "$100K-$250K"; "$250K-$500K"; "$500K-$1M";
   "$1M-$5M"; "Over $5M"].

(** What the giving-analysis standardiser can return. *)
Definition giving_wealth_labels : list string :=
  ["Under $100K"; "$100K-$250K"; "$250K-$500K"; "$500K-$1M"; "$1M-$5M";
   "Over $5M"; "Unknown"].

Fixpoint has_char (a : ascii) (s : string) : bool :=
  match s with
  | EmptyString => false
  | String b r => Ascii.eqb a b || has_char a r
  end.

(** ** Reading numbers: [pd.to_numeric] on one value *)

Module ToNumeric.

(** Longest prefix of digits, and the rest. *)
Fixpoint span_digits (s : string) : string * string :=
  match s with
  | String a r =>
      if PyStr.is_digit a
      then let (ds, rest) := span_digits r in (String a ds, rest)
      else (EmptyString, s)
  | EmptyString => (EmptyString, EmptyString)
  end.

Definition take_sign (s : string) : Z * string :=
  match s with
  | String "-" r => (-1, r)
  | String "+" r => (1, r)
  | _ => (1, s)
  end.

Definition pow10 (e : Z) : Q :=
  if 0 <=? e then inject_Z (10 ^ e) else (1 / inject_Z (10 ^ (- e)))%Q.

Definition is_empty (s : string) : bool :=
  match s with EmptyString => true | _ => false end.

(** A decimal literal: blanks, sign, digits with an optional fraction,
    an optional exponent, blanks.  Without fraction and exponent the
    value is an integer.  Anything else (also "nan") reads as missing. *)
Definition parse_number (s : string) : cell :=
  let (sg, s1) := take_sign (PyStr.strip_c s) in
  let (ip, s2) := span_digits s1 in
  let '(dot, fp, s3) :=
    match s2 with
    | String "." r => let (fp, r') := span_digits r in (true, fp, r')
    | _ => (false, EmptyString, s2)
    end in
  if is_empty ip && is_empty fp then CMissing
  else
    let mant := sg * PyStr.digits_value 0 (ip +:+ fp) in
    let scale := - Z.of_nat (String.length fp) in
    match s3 with
    | EmptyString =>
        if dot then CFloat (Qred (inject_Z mant * pow10 scale))
        else CInt mant
    | String c r =>
        if Ascii.eqb c "e" || Ascii.eqb c "E" then
          let (esg, r1) := take_sign r in
          let (ed, r2) := span_digits r1 in
          if is_empty ed || negb (is_empty r2) then CMissing
          else CFloat (Qred (inject_Z mant *
                             pow10 (scale + esg * PyStr.digits_value 0 ed)))
        else CMissing
    end.

(** [pd.to_numeric(x, errors='coerce')] on one object: numbers stay,
    strings are read, everything else is coerced to NaN. *)
Definition of_cell (c : cell) : cell :=
  match c with
  | CInt z => CInt z
  | CFloat q => CFloat q
  | CStr s => parse_number s
  | CMissing | CDate _ => CMissing
  end.

End ToNumeric.

(** ** Columns and tables *)

(** A [Series] with its dtype: [object], [int64], [float64] (NaN is [None])
    or [datetime64[ns]] (NaT is [None]). *)
Inductive column :=
| ObjCol (l : list cell)
| IntCol (l : list Z)
| FloatCol (l : list (option Q))
| DateCol (l : list (option Z)).

(** A [DataFrame]: the length of its index and its columns by name. *)
Record table := Table { nrows : nat; cols : gmap string column }.

Definition is_object (c : column) : bool :=
  match c with ObjCol _ => true | _ => false end.

Definition is_datetime (c : column) : bool :=
  match c with DateCol _ => true | _ => false end.

(** An integer that fits the dtype [int64]. *)
Definition is_int64_cell (c : cell) : bool :=
  match c with CInt z => in_int64 z | _ => false end.

Definition cell_int (c : cell) : Z :=
  match c with CInt z => z | _ => 0 end.

Definition cell_float (c : cell) : option Q :=
  match c with
  | CInt z => Some (inject_Z z)
  | CFloat q => Some q
  | _ => None
  end.

(** [df.columns], as a list of names. *)
Definition columns (df : gmap string column) : list string :=
  (map_to_list df).*1.

(** [name in names] *)
Definition in_list (name : string) (names : list string) : bool :=
  existsb (String.eqb name) names.

(** [for col in names: if col in df.columns: df[col] = f(col, df[col])] *)
Definition for_cols (names : list string) (f : string -> column -> column)
    (df : gmap string column) : gmap string column :=
  foldl (fun acc col => alter (f col) col acc) df names.

(** ** Column operations used by the normaliser *)

(** [series.replace('', np.nan)] *)
Definition replace_empty_cell (c : cell) : cell :=
  match c with
  | CStr EmptyString => CMissing
  | _ => c
  end.

Definition replace_empty (c : column) : column :=
  match c with
  | ObjCol l => ObjCol (map replace_empty_cell l)
  | _ => c
  end.

(** [series.astype(str)]: element-wise [str]; a datetime column prints
    dates only when no value has a time of day. *)
Definition astype_str (c : column) : column :=
  match c with
  | ObjCol l => ObjCol (map (fun x => CStr (py_str x)) l)
  | IntCol l => ObjCol (map (fun z => CStr (pretty z)) l)
  | FloatCol l =>
      ObjCol (map (fun o => CStr (from_option repr_float "nan" o)) l)
  | DateCol l =>
      let fmt :=
        if forallb (from_option Timestamp.is_midnight true) l
        then Timestamp.date_str else Timestamp.to_str in
      ObjCol (map (fun o => CStr (from_option fmt "NaT" o)) l)
  end.

(** [pd.to_numeric(series, errors='coerce')]: [int64] when every value is
    an integer of that range, floats otherwise (integers from 2^63 up to
    2^64, which pandas would keep as [uint64], are floats here too); a
    datetime column is viewed as its integers. *)
Definition to_numeric (c : column) : column :=
  match c with
  | ObjCol l =>
      let r := map ToNumeric.of_cell l in
      if forallb is_int64_cell r then IntCol (map cell_int r)
      else FloatCol (map cell_float r)
  | IntCol _ | FloatCol _ => c
  | DateCol l => IntCol (map (from_option id Timestamp.iNaT) l)
  end.

(** The date parser behind [pd.to_datetime(x, errors='coerce')] for a
    number or a string; [None] is NaT.  It belongs to pandas and dateutil
    and is a parameter of the development. *)
Class DateParser := parse_timestamp : cell -> option Z.

Section Normaliser.

Context {dates : DateParser}.

Definition to_datetime_cell (c : cell) : option Z :=
  match c with
  | CMissing => None
  | CDate t => Some t
  | _ => parse_timestamp c
  end.

(** [pd.to_datetime(series, errors='coerce')] *)
Definition to_datetime (c : column) : column :=
  match c with
  | ObjCol l => DateCol (map to_datetime_cell l)
  | IntCol l => DateCol (map (fun z => parse_timestamp (CInt z)) l)
  | FloatCol l =>
      DateCol (map (fun o => o ≫= fun q => parse_timestamp (CFloat q)) l)
  | DateCol _ => c
  end.

End Normaliser.

(** [series.str.replace('$', '').str.replace(',', '')] after [astype(str)] *)
Definition currency_text (c : cell) : cell :=
  CStr (PyStr.replace "," "" (PyStr.replace "$" "" (py_str c))).

(** The body of the amount loop for one column of dtype [object]. *)
Definition amount_clean (col : string) (c : column) : column :=
  match c with
  | ObjCol l =>
      if String.eqb col "WE Range" || String.eqb col "LT Giving" then c
      else to_numeric (ObjCol (map currency_text l))
  | _ => c
  end.

(** [(x // 10) * 10] on a float. *)
Definition floor_decade_float (q : Q) : Q := inject_Z (Qfloor (q / 10) * 10).

(** [(x // 10) * 10] on one Python object; [None] stands for [TypeError]. *)
Definition floor_decade_cell (x : cell) : option cell :=
  match x with
  | CMissing => Some CMissing
  | CInt z => Some (CInt (z / 10 * 10))
  | CFloat q => Some (CFloat (floor_decade_float q))
  | CStr _ | CDate _ => None
  end.

(** [(series // 10) * 10]; [None] stands for the [TypeError] raised on a
    string or a timestamp. *)
Definition floor_decade (c : column) : option column :=
  match c with
  | IntCol l => Some (IntCol (map (fun z => wrap64 (z / 10 * 10)) l))
  | FloatCol l => Some (FloatCol (map (fmap floor_decade_float) l))
  | ObjCol l => ObjCol <$> mapM floor_decade_cell l
  | DateCol _ => None
  end.

(** [series.apply(lambda x: f"{int(x)}s" if not pd.isna(x) else "Unknown")];
    [None] stands for the exception of an [int(x)] that fails. *)
Definition decade_label (x : cell) : option cell :=
  if isna x then Some (CStr "Unknown")
  else (fun y => CStr (decade_fmt y)) <$> py_int x.

Definition decade_labels (c : column) : option column :=
  match c with
  | IntCol l => ObjCol <$> mapM (fun z => decade_label (CInt z)) l
  | FloatCol l =>
      ObjCol <$> mapM (fun o => decade_label (from_option CFloat CMissing o)) l
  | ObjCol l => ObjCol <$> mapM decade_label l
  | DateCol l =>
      ObjCol <$> mapM (fun o => decade_label (from_option CDate CMissing o)) l
  end.

Definition is_some {A} (o : option A) : bool :=
  match o with Some _ => true | None => false end.

Definition all_some {A} (l : list (option A)) : bool := forallb is_some l.

(** [series.fillna('Unknown')]: a float or datetime column with a missing
    value becomes an object column. *)
Definition fillna_unknown (c : column) : column :=
  match c with
  | ObjCol l =>
      ObjCol (map (fun x => if isna x then CStr "Unknown" else x) l)
  | IntCol _ => c
  | FloatCol l =>
      if all_some l then c
      else ObjCol (map (from_option CFloat (CStr "Unknown")) l)
  | DateCol l =>
      if all_some l then c
      else ObjCol (map (from_option CDate (CStr "Unknown")) l)
  end.

(** ** Row-wise sums *)

Definition is_int_col (c : column) : bool :=
  match c with IntCol _ => true | _ => false end.

Definition is_numeric (c : column) : bool :=
  match c with IntCol _ | FloatCol _ => true | _ => false end.

(** The integer in row [i] of an integer column. *)
Definition int_at (c : column) (i : nat) : Z :=
  match c with
  | IntCol l => default 0 (l !! i)
  | _ => 0
  end.

(** The number in row [i] of a numeric column, a missing value counting as
    zero ([skipna=True], [fillna(0)]). *)
Definition float_at (c : column) (i : nat) : Q :=
  match c with
  | IntCol l => inject_Z (default 0 (l !! i))
  | FloatCol l => default 0%Q (mjoin (l !! i))
  | _ => 0%Q
  end.

(** The sum of row [i] in [int64] arithmetic. *)
Definition sum_ints (cs : list column) (i : nat) : Z :=
  foldr (fun c acc => wrap64 (int_at c i + acc)) 0 cs.

Definition sum_floats (cs : list column) (i : nat) : Q :=
  foldr (fun c acc => float_at c i + acc)%Q 0%Q cs.

(** [frame.sum(axis=1, skipna=True)] over the columns [cs] of a frame with
    [n] rows: an [int64] column, summed in [int64] arithmetic, when all
    are, a float column otherwise;
    [None] stands for the exception raised when a column is not numeric. *)
Definition sum_axis1 (n : nat) (cs : list column) : option column :=
  if forallb is_numeric cs then
    Some (if forallb is_int_col cs
          then IntCol (map (sum_ints cs) (seq 0 n))
          else FloatCol (map (fun i => Some (Qred (sum_floats cs i))) (seq 0 n)))
  else None.

(** [total += values.fillna(0)] *)
Definition add_filled (n : nat) (total values : column) : column :=
  if is_int_col total && is_int_col values
  then IntCol (map (fun i => wrap64 (int_at total i + int_at values i)) (seq 0 n))
  else FloatCol (map (fun i => Some (Qred (float_at total i + float_at values i)))
                     (seq 0 n)).

(** The [except] branch: start from 0 and add the columns one by one, each
    coerced on its own. *)
Definition sum_by_column (n : nat) (cs : list column) : column :=
  foldl (fun total c => add_filled n total (to_numeric c))
        (IntCol (replicate n 0)) cs.

Definition total_all_giving (n : nat) (cs : list column) : column :=
  match sum_axis1 n cs with
  | Some total => total
  | None => sum_by_column n cs
  end.

(** ** The normaliser: [utils.clean_data] *)

Definition year_cols : list string := ["CL YR"; "SP CL YR"].

(** ['Date' in col or 'date' in col] *)
Definition is_date_name (col : string) : bool :=
  PyStr.contains "Date" col || PyStr.contains "date" col.

(** ['Gift' in col or 'Ask' in col] *)
Definition is_amount_name (col : string) : bool :=
  PyStr.contains "Gift" col || PyStr.contains "Ask" col.

(** [('Gifts' in col or 'Gift' in col) and 'Pledge' not in col] *)
Definition is_gift_name (col : string) : bool :=
  (PyStr.contains "Gifts" col || PyStr.contains "Gift" col)
  && negb (PyStr.contains "Pledge" col).

(** The condition of the [giving_cols] comprehension. *)
Definition is_giving (date_cols : list string) (col : string) (c : column) : bool :=
  is_gift_name col && negb (in_list col date_cols) && negb (is_datetime c).

Definition giving_cols (date_cols : list string) (df : gmap string column)
  : list string :=
  (map_to_list (filter (fun kc => is_giving date_cols kc.1 kc.2 = true) df)).*1.

(** [df[names]], as the list of the selected columns. *)
Definition select (names : list string) (df : gmap string column) : list column :=
  omap (fun col => df !! col) names.

(** Objects live in a store: a [DataFrame] variable holds a location. *)
Definition loc := positive.
Definition store := gmap loc table.

(** Computations on the store; [None] is an uncaught exception. *)
Definition M (A : Type) : Type := store -> option (A * store).

#[global] Instance M_ret : MRet M := fun A x h => Some (x, h).
#[global] Instance M_bind : MBind M := fun A B f m h =>
  match m h with
  | Some (x, h') => f x h'
  | None => None
  end.

(** [df.copy()]: a new object with the same contents. *)
Definition copy (df : loc) : M loc := fun h =>
  match h !! df with
  | Some t => let l := fresh (dom h) in Some (l, <[l := t]> h)
  | None => None
  end.

(** Reading a value off the frame at [df]. *)
Definition read {A} (df : loc) (f : table -> A) : M A := fun h =>
  match h !! df with
  | Some t => Some (f t, h)
  | None => None
  end.

(** In-place assignments to columns of the frame at [df]; they may raise. *)
Definition assign (df : loc)
    (f : gmap string column -> option (gmap string column)) : M unit := fun h =>
  match h !! df with
  | Some t =>
      match f (cols t) with
      | Some cs => Some (tt, <[df := Table (nrows t) cs]> h)
      | None => None
      end
  | None => None
  end.

Section CleanData.

Context {dates : DateParser}.

(** for col in df_clean.columns: df_clean[col] = df_clean[col].replace('', np.nan) *)
Definition step_missing (df : gmap string column) : gmap string column :=
  for_cols (columns df) (fun _ => replace_empty) df.

(** if 'ID' in df_clean.columns: df_clean['ID'] = df_clean['ID'].astype(str) *)
Definition step_id (df : gmap string column) : gmap string column :=
  alter astype_str "ID" df.

Definition step_years (df : gmap string column) : gmap string column :=
  for_cols year_cols (fun _ => to_numeric) df.

Definition date_cols_of (df : gmap string column) : list string :=
  List.filter is_date_name (columns df).

Definition step_dates (date_cols : list string) (df : gmap string column)
  : gmap string column :=
  for_cols date_cols (fun _ => to_datetime) df.

Definition amount_cols_of (date_cols : list string) (df : gmap string column)
  : list string :=
  List.filter (fun col => is_amount_name col && negb (in_list col date_cols))
              (columns df).

Definition step_amounts (date_cols : list string) (df : gmap string column)
  : gmap string column :=
  for_cols (amount_cols_of date_cols df) amount_clean df.

(** if 'CL YR' in df_clean.columns: the two assignments to 'Decade'. *)
Definition step_decade (df : gmap string column)
  : option (gmap string column) :=
  match df !! "CL YR" with
  | Some yr =>
      d ← floor_decade yr;
      let df := <["Decade" := d]> df in
      labels ← df !! "Decade" ≫= decade_labels;
      Some (<["Decade" := labels]> df)
  | None => Some df
  end.

(** if 'State' in df_clean.columns: fillna('Unknown') *)
Definition step_state (df : gmap string column) : gmap string column :=
  alter fillna_unknown "State" df.

(** The giving columns and, if there is one, 'Total_All_Giving'. *)
Definition step_total (n : nat) (date_cols : list string)
    (df : gmap string column) : gmap string column :=
  match giving_cols date_cols df with
  | [] => df
  | names => <["Total_All_Giving" := total_all_giving n (select names df)]> df
  end.

(** [utils.clean_data], statement by statement, on the store. *)
Definition clean_data (df : loc) : M loc :=
  df_clean ← copy df;
  _ ← assign df_clean (fun c => Some (step_missing c));
  _ ← assign df_clean (fun c => Some (step_id c));
  _ ← assign df_clean (fun c => Some (step_years c));
  date_cols ← read df_clean (fun t => date_cols_of (cols t));
  _ ← assign df_clean (fun c => Some (step_dates date_cols c));
  _ ← assign df_clean (fun c => Some (step_amounts date_cols c));
  _ ← assign df_clean step_decade;
  _ ← assign df_clean (fun c => Some (step_state c));
  n ← read df_clean nrows;
  _ ← assign df_clean (fun c => Some (step_total n date_cols c));
  mret df_clean.

(** The table [clean_data] returns, as a function of the table it is
    given. *)
Definition clean_table (t : table) : option table :=
  let df := step_years (step_id (step_missing (cols t))) in
  let date_cols := date_cols_of df in
  df ← step_decade (step_amounts date_cols (step_dates date_cols df));
  Some (Table (nrows t) (step_total (nrows t) date_cols (step_state df))).

End CleanData.

(** A date parser that recognises nothing, for frames without date columns. *)
Definition no_dates : DateParser := fun _ => None.

(** ** Reading a worksheet *)

(** A cell of a worksheet as the Excel reader hands it over: empty, a
    number (a workbook stores every number as a float, 102 and 102.0 are
    the same cell) or text.  Date and boolean cells are not modelled. *)
Inductive xl_cell :=
| XlEmpty
| XlNumber (q : Q)
| XlText (s : string).

(** The text that the parser takes for a missing value (the default list
    of pandas 2). *)
Definition na_strings : list string :=
  [""; "#N/A"; "#N/A N/A"; "#NA"; "-1.#IND"; "-1.#QNAN"; "-NaN"; "-nan";
   "1.#IND"; "1.#QNAN"; "<NA>"; "N/A"; "NA"; "NULL"; "NaN"; "None"; "n/a";
   "nan"; "null"].

(** The conversion of one cell: a number that is integral becomes an
    [int]. *)
Definition read_cell (x : xl_cell) : cell :=
  match x with
  | XlEmpty => CMissing
  | XlNumber q =>
      if Qeq_bool (inject_Z (Qtrunc q)) q then CInt (Qtrunc q) else CFloat q
  | XlText s => if in_list s na_strings then CMissing else CStr s
  end.

Definition reads_as_number (c : cell) : bool :=
  match c with
  | CStr s => negb (isna (ToNumeric.parse_number s))
  | CDate _ => false
  | CMissing | CInt _ | CFloat _ => true
  end.

(** The type inference of the parser on one column: when every value is a
    number, is missing or is text that reads as a number, the column
    becomes numeric; otherwise it stays an [object] column that holds the
    values as converted. *)
Definition read_column (l : list xl_cell) : column :=
  let values := map read_cell l in
  if forallb reads_as_number values then to_numeric (ObjCol values)
  else ObjCol values.

(** ** The sheet loader *)

(** What [pd.read_excel] makes of one sheet. *)
Inductive sheet_read :=
| ReadOk (df : table)
| ReadError (e : string).

(** The file handed to the loader: one that [pd.ExcelFile] cannot open, or
    the sheets of the workbook in order. *)
Inductive workbook :=
| Unreadable (e : string)
| Sheets (sheets : list (string * sheet_read)).

(** Messages shown through [st.warning] and [st.error]. *)
Inductive message :=
| Warning (text : string)
| Error (text : string).

Inductive outcome (A : Type) :=
| Returns (a : A)
| Raises (e : string).
Arguments Returns {A} a.
Arguments Raises {A} e.

(** The body of the loop of [load_data] for one sheet. *)
Definition load_sheet (acc : list message * gmap string table)
    (sheet : string * sheet_read) : list message * gmap string table :=
  match sheet.2 with
  | ReadOk df => (acc.1, <[sheet.1 := df]> acc.2)
  | ReadError e =>
      (acc.1 ++ [Warning ("Could not read sheet '" +:+ sheet.1 +:+ "': " +:+ e)],
       acc.2)
  end.

(** [utils.load_data]: the messages shown, and the dictionary returned or
    the exception raised again. *)
Definition load_data (uploaded_file : workbook)
  : list message * outcome (gmap string table) :=
  match uploaded_file with
  | Unreadable e => ([Error ("Error loading Excel file: " +:+ e)], Raises e)
  | Sheets sheets =>
      let r := foldl load_sheet ([], ∅) sheets in
      (r.1, Returns r.2)
  end.

(** [pd.read_excel(file, sheet_name=None)]: every sheet, or the first
    failure. *)
Fixpoint read_all_sheets (sheets : list (string * sheet_read))
    (acc : gmap string table) : outcome (gmap string table) :=
  match sheets with
  | [] => Returns acc
  | (name, ReadOk df) :: rest => read_all_sheets rest (<[name := df]> acc)
  | (_, ReadError e) :: _ => Raises e
  end.

Definition read_excel_all (file : workbook) : outcome (gmap string table) :=
  match file with
  | Unreadable e => Raises e
  | Sheets sheets => read_all_sheets sheets ∅
  end.

(** [wow_analysis_app.load_default_data], on the workbook found at the
    default path; every failure ends in [None]. *)
Definition load_default_data (file : workbook)
  : list message * option (gmap string table) :=
  match read_excel_all file with
  | Returns all_sheets =>
      ([], Some (match all_sheets !! "Sheet7" with
                 | Some _ => delete "Sheet7" all_sheets
                 | None => all_sheets
                 end))
  | Raises e => ([Error ("Error loading default data: " +:+ e)], None)
  end.

(** The guard of every loop over the sessions:
    [sheet_name.lower() != 'sheet7']. *)
Definition is_session (sheet_name : string) : bool :=
  negb (String.eqb (PyStr.lower sheet_name) "sheet7").

(** The sheets the analyses visit. *)
Definition sessions (all_sheets : gmap string table) : gmap string table :=
  filter (fun kv => is_session kv.1 = true) all_sheets.

(** A name that equals "sheet7" when case is ignored. *)
Definition is_placeholder (sheet_name : string) : Prop :=
  PyStr.lower sheet_name = "sheet7".

(** ** Reading the normalised table *)

(** The object in row [i] of a column. *)
Definition cell_at (c : column) (i : nat) : option cell :=
  match c with
  | ObjCol l => l !! i
  | IntCol l => CInt <$> l !! i
  | FloatCol l => from_option CFloat CMissing <$> l !! i
  | DateCol l => from_option CDate CMissing <$> l !! i
  end.


(** What the assignments before 'Decade' make of the column named [col]. *)
Definition norm_col {dates : DateParser} (col : string) (c : column) : column :=
  let c := replace_empty c in
  let c := if String.eqb col "ID" then astype_str c else c in
  let c := if in_list col year_cols then to_numeric c else c in
  let c := if is_date_name col then to_datetime c else c in
  if is_amount_name col && negb (is_date_name col) then amount_clean col c else c.

(** The giving-amount columns in the specification's words: the name
    contains "Gift" or "Gifts" and not "Pledge", the column is not a date
    column and is not datetime-typed. *)
Definition giving_amount_columns (df : gmap string column)
  : gmap string column :=
  filter (fun kc => is_gift_name kc.1 = true /\ is_date_name kc.1 = false
                    /\ is_datetime kc.2 = false) df.

(** The decade label of a year read as a number. *)
Definition numeric_decade (y : cell) : string :=
  match y with
  | CInt z => decade_fmt (z / 10 * 10)
  | CFloat q => decade_fmt (Qfloor q / 10 * 10)
  | _ => "Unknown"
  end.

(** The warning [load_data] shows for a sheet that cannot be read. *)
Definition sheet_warning (sheet : string * sheet_read) : option message :=
  match sheet.2 with
  | ReadOk _ => None
  | ReadError e =>
      Some (Warning ("Could not read sheet '" +:+ sheet.1 +:+ "': " +:+ e))
  end.

(** Sample workbooks. *)
Definition empty_table : table := Table 0 ∅.

Definition workbook_with_sheet7 : workbook :=
  Sheets [("2021 Lets Be Real", ReadOk empty_table); ("Sheet7", ReadOk empty_table)].

Definition workbook_with_SHEET7 : workbook :=
  Sheets [("2021 Lets Be Real", ReadOk empty_table); ("SHEET7", ReadOk empty_table)].

(** The column assigned to 'Decade' when 'CL YR' is numeric. *)
Definition decade_column (yr : column) : column :=
  match yr with
  | IntCol l => ObjCol (map (fun z => CStr (decade_fmt (wrap64 (z / 10 * 10)))) l)
  | FloatCol l =>
      ObjCol (map (fun o => CStr (from_option
                (fun q => decade_fmt (Qtrunc (floor_decade_float q))) "Unknown" o)) l)
  | _ => yr
  end.

Definition with_decade (df : gmap string column) : gmap string column :=
  match df !! "CL YR" with
  | Some yr => <["Decade" := decade_column yr]> df
  | None => df
  end.

(** A column without empty strings. *)
Definition no_empty (c : column) : Prop :=
  match c with
  | ObjCol l => Forall (fun x => x <> CStr "") l
  | _ => True
  end.

Section Normalised.

Context {dates : DateParser}.

(** The list [date_cols] of a run of [clean_data]. *)
Definition clean_date_cols (df : gmap string column) : list string :=
  date_cols_of (step_years (step_id (step_missing df))).

(** The frame before 'Decade' is assigned. *)
Definition before_decade (df : gmap string column) : gmap string column :=
  let date_cols := clean_date_cols df in
  step_amounts date_cols
    (step_dates date_cols (step_years (step_id (step_missing df)))).

(** The frame before 'Total_All_Giving' is assigned. *)
Definition before_total (df : gmap string column) : gmap string column :=
  step_state (with_decade (before_decade df)).

(** The values of the giving-amount columns of a frame. *)
Definition giving_values (df : gmap string column) : list column :=
  (map_to_list (giving_amount_columns df)).*2.

Definition with_total (n : nat) (df : gmap string column)
  : gmap string column :=
  if decide (giving_amount_columns df = ∅) then df
  else <["Total_All_Giving" := total_all_giving n (giving_values df)]> df.

(** The columns of the normalised table, in closed form. *)
Definition normalised (n : nat) (df : gmap string column)
  : gmap string column :=
  with_total n (before_total df).

End Normalised.







Definition class_1949_table : table :=
  Table 3 {[ "CL YR" := IntCol [1949; 1983; 2031] ]}.

Definition lowercase_gift_table : table :=
  Table 1 {[ "gift amount" := ObjCol [CStr "$12,345.67"] ]}.

Definition currency_table : table :=
  Table 3 {[ "Last Gift Amount" := ObjCol [CStr "$12,345.67"; CStr "N/A"; CStr ""] ]}.

(** The two sheets as [read_excel] returns them: the cells 101, 102.0 and
    "103" of sheet A, and 101 and 104 of sheet B. *)
Definition sheet_A : table :=
  Table 3 {[ "ID" := read_column [XlNumber 101; XlNumber 102.0; XlText "103"] ]}.



(** A year from 1950 up to, but not including, 2030, as a number. *)
Definition mid_range_year (y : cell) : Prop :=
  match y with
  | CInt z => 1950 <= z < 2030
  | CFloat q => (1950 <= q)%Q /\ (q < 2030)%Q
  | _ => False
  end.

(** A year that is a number from 0 up and below 2^53, which both an
    [int64] and a [float64] column hold exactly. *)
Definition numeric_year (y : cell) : Prop :=
  match y with
  | CInt z => 0 <= z < 2 ^ 53
  | CFloat q => (0 <= q)%Q /\ (q < inject_Z (2 ^ 53))%Q
  | _ => False
  end.

Definition is_number (y : cell) : Prop :=
  match y with
  | CInt _ | CFloat _ => True
  | _ => False
  end.

(** The decade rule in the specification's words: a year value that is
    missing or cannot be read gives "Unknown"; below 1950 "Pre-1950s"; from
    2020 on "2020s"; otherwise the floor of the year to its decade. *)
Definition decade_bucket_spec (y : option Q) : string :=
  match y with
  | None => "Unknown"
  | Some y =>
      if negb (Qle_bool 1950 y) then "Pre-1950s"
      else if Qle_bool 2020 y then "2020s"
      else decade_fmt (Qfloor (y / 10) * 10)
  end.

(** Two digits after the separator U+001C: text that [int] rejects and
    [str.strip] cleans. *)
Definition separated_35 : string := String (ascii_of_N 28) "35".
Definition separated_85 : string := String (ascii_of_N 28) "85".

(** A value that is not text, or text of ASCII characters. *)
Definition ascii_cell (c : cell) : Prop :=
  match c with
  | CStr s => PyStr.is_ascii s = true
  | _ => True
  end.

(** The number a year value stands for, when [int] accepts it. *)
Definition year_number (y : cell) : option Q :=
  match y with
  | CMissing => None
  | CInt z => Some (inject_Z z)
  | CFloat q => Some q
  | CStr s => inject_Z <$> PyStr.int_of_str s
  | CDate _ => None
  end.

(** * Further helpers of the analyses *)

(** [a < b] on numbers. *)
Definition Qltb (a b : Q) : bool := negb (Qle_bool b a).

(** ** [utils.categorize_giving_level] *)

(** The levels, lowest first. *)
Definition giving_levels : list string :=
  ["Non-Donor"; "<$100"; "$100-$999"; "$1,000-$4,999"; "$5,000-$9,999";
   "$10,000-$24,999"; "$25,000+"].

(** [None] stands for the [TypeError] of comparing text or a timestamp with
    a number. *)
Definition categorize_giving_level (amount : cell) : option string :=
  if isna amount then Some "Non-Donor"
  else
    match cell_float amount with
    | None => None
    | Some a =>
        Some (if Qeq_bool a 0 then "Non-Donor"
              else if Qltb a 100 then "<$100"
              else if Qltb a 1000 then "$100-$999"
              else if Qltb a 5000 then "$1,000-$4,999"
              else if Qltb a 10000 then "$5,000-$9,999"
              else if Qltb a 25000 then "$10,000-$24,999"
              else "$25,000+")
    end.

(** Position of a label in a list of labels (the length when absent). *)
Fixpoint label_rank (labels : list string) (x : string) : nat :=
  match labels with
  | [] => O
  | y :: rest => if String.eqb x y then O else S (label_rank rest x)
  end.

(** ** [engagement_score_analysis.categorize_engagement] *)

Definition engagement_levels : list string :=
  ["Low (0-25)"; "Medium-Low (26-50)"; "Medium-High (51-75)"; "High (76-100)"].

Definition categorize_engagement (score : cell) : option string :=
  if isna score then Some "Unknown"
  else
    match cell_float score with
    | None => None
    | Some x =>
        Some (if Qle_bool x 25 then "Low (0-25)"
              else if Qle_bool x 50 then "Medium-Low (26-50)"
              else if Qle_bool x 75 then "Medium-High (51-75)"
              else "High (76-100)")
    end.

(** ** [greek_affiliation_analysis.categorize_greek_org] *)

Definition sorority_keywords : list string :=
  ["sorority"; "sigma"; "kappa"; "alpha"; "delta"; "gamma"; "phi"; "chi";
   "omega"; "pi"; "theta"].

Definition fraternity_keywords : list string :=
  ["fraternity"; "tau"; "phi"; "kappa"; "alpha"; "delta"; "gamma"; "sigma";
   "omega"; "pi"; "theta"].

(** [any(keyword in text for keyword in keywords)] *)
Definition any_in (keywords : list string) (text : string) : bool :=
  existsb (fun keyword => PyStr.contains keyword text) keywords.

(** [None] stands for the [AttributeError] of [.lower()] on a value that is
    not text. *)
Definition categorize_greek_org (org_name : cell) : option string :=
  match org_name with
  | CMissing => Some "Non-Greek"
  | CStr name =>
      if String.eqb name "Non-Greek" then Some "Non-Greek"
      else
        let org_lower := PyStr.lower name in
        if PyStr.contains "sorority" org_lower then Some "Sorority"
        else if PyStr.contains "fraternity" org_lower then Some "Fraternity"
        else if any_in sorority_keywords org_lower
                && PyStr.contains "sorority" org_lower then Some "Sorority"
        else if any_in fraternity_keywords org_lower
                && PyStr.contains "fraternity" org_lower then Some "Fraternity"
        else Some "Unknown Greek"
  | CInt _ | CFloat _ | CDate _ => None
  end.

(** ** [geographic_distribution.get_region] *)

Definition regions : list (string * list string) :=
  [("Northeast", ["ME"; "NH"; "VT"; "MA"; "RI"; "CT"; "NY"; "NJ"; "PA"]);
   ("Midwest", ["OH"; "IN"; "IL"; "MI"; "WI"; "MN"; "IA"; "MO"; "ND"; "SD";
                "NE"; "KS"]);
   ("South", ["DE"; "MD"; "DC"; "VA"; "WV"; "NC"; "SC"; "GA"; "FL"; "KY";
              "TN"; "AL"; "MS"; "AR"; "LA"; "OK"; "TX"]);
   ("West", ["MT"; "ID"; "WY"; "CO"; "NM"; "AZ"; "UT"; "NV"; "WA"; "OR";
             "CA"; "AK"; "HI"])].

(** The loop over [regions.items()]. *)
Fixpoint first_region (table : list (string * list string)) (state : string)
  : option string :=
  match table with
  | [] => None
  | (region, states) :: rest =>
      if in_list state states then Some region else first_region rest state
  end.

Definition get_region (state : cell) : string :=
  match state with
  | CMissing => "Unknown"
  | CStr s =>
      if String.eqb s "Unknown" then "Unknown"
      else default "Other" (first_region regions s)
  | CInt _ | CFloat _ | CDate _ => "Other"
  end.

(** ** [major_field_correlation.standardize_major] and [get_major_category] *)

Definition variations : list (string * string) :=
  [("COMP SCI", "COMPUTER SCIENCE"); ("BIO", "BIOLOGY"); ("PSYCH", "PSYCHOLOGY");
   ("COMM", "COMMUNICATIONS"); ("ECON", "ECONOMICS"); ("ENG", "ENGLISH");
   ("BUS", "BUSINESS"); ("BUS ADMIN", "BUSINESS ADMINISTRATION")].

(** The loop over [variations.items()]: the value of the first key found in
    the text. *)
Fixpoint first_variation (table : list (string * string)) (major : string)
  : option string :=
  match table with
  | [] => None
  | (key, value) :: rest =>
      if PyStr.contains key major then Some value else first_variation rest major
  end.

Definition standardize_major (major : cell) : string :=
  if isna major then "Unknown"
  else
    let major := PyStr.upper (PyStr.strip (py_str major)) in
    default major (first_variation variations major).

Definition major_categories : list (string * list string) :=
  [("STEM", ["COMPUTER SCIENCE"; "BIOLOGY"; "CHEMISTRY"; "PHYSICS";
             "MATHEMATICS"; "ENGINEERING"]);
   ("Social Sciences", ["PSYCHOLOGY"; "SOCIOLOGY"; "POLITICAL SCIENCE";
                        "ECONOMICS"; "ANTHROPOLOGY"]);
   ("Humanities", ["ENGLISH"; "HISTORY"; "PHILOSOPHY"; "LANGUAGES"; "LITERATURE"]);
   ("Business", ["BUSINESS"; "BUSINESS ADMINISTRATION"; "MARKETING"; "FINANCE";
                 "ACCOUNTING"]);
   ("Arts", ["ART"; "MUSIC"; "THEATER"; "DANCE"; "DESIGN"]);
   ("Other", [])].

Fixpoint first_category (table : list (string * list string)) (major : string)
  : option string :=
  match table with
  | [] => None
  | (category, majors) :: rest =>
      if any_in majors major then Some category else first_category rest major
  end.

Definition get_major_category (major : string) : string :=
  if String.eqb major "Unknown" then "Unknown"
  else default "Other" (first_category major_categories major).

(** ** The decade tables of [attendance_by_decade] *)

Definition decade_order : list string :=
  ["Pre-1950s"; "1950s"; "1960s"; "1970s"; "1980s"; "1990s"; "2000s"; "2010s";
   "2020s"; "Unknown"].

Definition generation_map : list (string * string) :=
  [("Pre-1950s", "Senior Alumni (pre-1950s)");
   ("1950s", "Senior Alumni (1950-1969)");
   ("1960s", "Senior Alumni (1950-1969)");
   ("1970s", "Established Alumni (1970-1989)");
   ("1980s", "Established Alumni (1970-1989)");
   ("1990s", "Mid-Career Alumni (1990-2009)");
   ("2000s", "Mid-Career Alumni (1990-2009)");
   ("2010s", "Recent Graduates (2010-present)");
   ("2020s", "Recent Graduates (2010-present)");
   ("Unknown", "Unknown")].

Definition generation_order : list string :=
  ["Recent Graduates (2010-present)"; "Mid-Career Alumni (1990-2009)";
   "Established Alumni (1970-1989)"; "Senior Alumni (1950-1969)"; "Unknown"].

(** [d.get(key, fallback)] on a dictionary written as its items. *)
Fixpoint dict_get (d : list (string * string)) (key fallback : string) : string :=
  match d with
  | [] => fallback
  | (k, v) :: rest => if String.eqb key k then v else dict_get rest key fallback
  end.

(** [generation_map.get(decade, "Unknown")] of the decade of a year. *)
Definition generation_of (year : cell) : string :=
  dict_get generation_map (get_decade year) "Unknown".

(** The sort key of [sorted_decades]. *)
Definition decade_sort_key (x : string) : nat :=
  if in_list x decade_order then label_rank decade_order x else 999%nat.

(** ** Cross-session attendance: [attendance_overlap_analysis] *)

(** [series.astype(str)] as the list of its strings. *)
Definition str_values (c : column) : list string :=
  match astype_str c with
  | ObjCol l => py_str <$> l
  | _ => []
  end.

(** [set(df['ID'].astype(str))]; [None] stands for the [KeyError] of a
    frame without 'ID'. *)
Definition id_set (df : table) : option (gset string) :=
  (fun c => list_to_set (str_values c)) <$> cols df !! "ID".

(** The dictionary [attendee_sets]: one set per sheet that is not the
    placeholder; [None] when a sheet raises. *)
Definition attendee_sets (all_sheets : gmap string table)
  : option (gmap string (gset string)) :=
  let visited := sessions all_sheets in
  if decide (map_Forall (fun _ df => is_Some (id_set df)) visited)
  then Some (omap id_set visited)
  else None.

(** The union of the values of [attendee_sets]. *)
Definition total_unique (sets : gmap string (gset string)) : gset string :=
  ⋃ (map_to_list sets).*2.

(** [sum(len(s) for s in attendee_sets.values())] *)
Definition total_attendees (sets : gmap string (gset string)) : nat :=
  sum_list (size <$> (map_to_list sets).*2).

(** [total_attendees - len(total_unique)] *)
Definition multi_session_attendees (sets : gmap string (gset string)) : Z :=
  Z.of_nat (total_attendees sets) - Z.of_nat (size (total_unique sets)).

(** [(extra / unique * 100) if unique > 0 else 0] *)
Definition percentage_of (extra : Z) (unique : nat) : Q :=
  if (0 <? unique)%nat
  then (inject_Z extra / inject_Z (Z.of_nat unique) * 100)%Q
  else 0%Q.

Definition repeat_percentage (sets : gmap string (gset string)) : Q :=
  percentage_of (multi_session_attendees sets) (size (total_unique sets)).

(** One entry of the overlap matrix; [None] stands for the [KeyError] of a
    name that is not a session. *)
Definition overlap (sets : gmap string (gset string)) (session1 session2 : string)
  : option nat :=
  s1 ← sets !! session1;
  s2 ← sets !! session2;
  Some (if String.eqb session1 session2 then size s1 else size (s1 ∩ s2)).

(** [attendance_count[attendee]]: the sessions whose set has the attendee. *)
Definition attendance_count (sets : gmap string (gset string)) (attendee : string)
  : nat :=
  length (filter (fun ks : string * gset string => attendee ∈ ks.2)
                 (map_to_list sets)).

(** [sum(1 for _, count in attendance_count.items() if count == 1)] *)
Definition single_session_count (sets : gmap string (gset string)) : nat :=
  length (filter (fun a => attendance_count sets a = 1%nat)
                 (elements (total_unique sets))).

(** ** The metric cards of [display_overview] *)

(** Total attendees, unique individuals and repeat rate; [None] stands for
    the [KeyError] raised when no sheet is left after the placeholder is
    skipped (the summary frame has no 'Attendees' column) or when a sheet
    has no 'ID'. *)
Definition overview_metrics (all_sheets : gmap string table)
  : option (Z * nat * Q) :=
  let visited := sessions all_sheets in
  if decide (visited = ∅) then None
  else
    let total := Z.of_nat (sum_list (nrows <$> (map_to_list visited).*2)) in
    sets ← attendee_sets all_sheets;
    let unique := size (total_unique sets) in
    Some (total, unique, percentage_of (total - Z.of_nat unique) unique).

(** The length of a column. *)
Definition col_length (c : column) : nat :=
  match c with
  | ObjCol l => length l
  | IntCol l => length l
  | FloatCol l => length l
  | DateCol l => length l
  end.

(** A frame whose columns all have as many cells as the index. *)
Definition well_formed (t : table) : Prop :=
  forall k c, cols t !! k = Some c -> col_length c = nrows t.

(** A column with a missing value. *)
Definition has_missing (c : column) : bool :=
  match c with
  | ObjCol l => existsb isna l
  | IntCol _ => false
  | FloatCol l => negb (all_some l)
  | DateCol l => negb (all_some l)
  end.

(** An object column that holds strings only. *)
Definition all_text (c : column) : Prop :=
  match c with
  | ObjCol l => Forall (fun x => exists s, x = CStr s) l
  | _ => False
  end.

(** A string without leading blank. *)
Definition no_leading_space (s : string) : Prop :=
  match s with
  | EmptyString => True
  | String a _ => PyStr.is_space a = false
  end.

(** ** [utils.extract_wealth_range_value] *)

(** A character of the class [[\d,]]. *)
Definition is_number_char (a : ascii) : bool :=
  PyStr.is_digit a || Ascii.eqb a ",".

(** The longest prefix made of characters of the class. *)
Fixpoint take_run (s : string) : string :=
  match s with
  | String a r => if is_number_char a then String a (take_run r) else EmptyString
  | EmptyString => EmptyString
  end.

(** [re.findall(r'[\d,]+', s)[0]], when there is a match. *)
Fixpoint first_run (s : string) : option string :=
  match s with
  | EmptyString => None
  | String a r => if is_number_char a then Some (take_run s) else first_run r
  end.

(** The result is the integer 0 or the float read from the first run of
    digits and commas; a run of commas alone makes [float] raise, which the
    function turns into 0. *)
Definition extract_wealth_range_value (wealth_range : cell) : cell :=
  let is_empty_text :=
    match wealth_range with CStr EmptyString => true | _ => false end in
  if isna wealth_range || is_empty_text then CInt 0
  else
    match first_run (py_str wealth_range) with
    | None => CInt 0
    | Some run =>
        let digits := PyStr.replace "," "" run in
        if PyStr.isdigit digits
        then CFloat (inject_Z (PyStr.digits_value 0 digits))
        else CInt 0
    end.

(** ** The flags of [ask_amount_optimization], row by row *)

(** Comparisons of two cells of numeric columns; a missing value compares
    false. *)
Definition num_gt (a b : option Q) : bool :=
  match a, b with Some x, Some y => Qltb y x | _, _ => false end.
Definition num_ge (a b : option Q) : bool :=
  match a, b with Some x, Some y => Qle_bool y x | _, _ => false end.
Definition num_lt (a b : option Q) : bool := num_gt b a.
Definition num_le (a b : option Q) : bool := num_ge b a.

(** ['Last Gift Amount' > 'Hi Ask'] *)
Definition above_high (gift hi low : option Q) : bool := num_gt gift hi.
(** [('Last Gift Amount' >= 'Low Ask') & ('Last Gift Amount' <= 'Hi Ask')] *)
Definition within_range (gift hi low : option Q) : bool :=
  num_ge gift low && num_le gift hi.
(** ['Last Gift Amount' < 'Low Ask'] *)
Definition below_low (gift hi low : option Q) : bool := num_lt gift low.

(** ** [utils.generate_insights] *)

Definition nl : string := String (ascii_of_N 10) "".

Definition insights_header (title : string) : string :=
  nl +:+ "    <div class='insight-box'>" +:+ nl +:+
  "        <h4>" +:+ title +:+ ":</h4>" +:+ nl +:+
  "        <ul>" +:+ nl +:+ "    ".

Definition insights_item (key value : string) : string :=
  "<li><b>" +:+ key +:+ "</b>: " +:+ value +:+ "</li>".

Definition insights_footer : string :=
  nl +:+ "        </ul>" +:+ nl +:+ "    </div>" +:+ nl +:+ "    ".

(** The dictionary is the list of its items, in insertion order. *)
Definition generate_insights (data_dict : list (string * string)) (title : string)
  : string :=
  let insights_html := insights_header title in
  let insights_html :=
    foldl (fun html kv => html +:+ insights_item kv.1 kv.2) insights_html data_dict in
  insights_html +:+ insights_footer.

(** The items of a dictionary, one after the other. *)
Fixpoint items_html (data_dict : list (string * string)) : string :=
  match data_dict with
  | [] => ""
  | kv :: rest => insights_item kv.1 kv.2 +:+ items_html rest
  end.

(** Case analysis on every conditional of the goal. *)
Ltac split_ifs :=
  repeat match goal with
         | |- context [if ?b then _ else _] => destruct b
         end.

(** * Properties *)

(** ** Arithmetic of floors and truncation *)

Lemma Qfloor_div10 (q : Q) : Qfloor (q / 10) = Qfloor q / 10.
Proof.
  destruct q as [n d]. unfold Qdiv, Qmult, Qinv, Qfloor. simpl.
  rewrite Z.mul_1_r, Pos2Z.inj_mul, Z.div_div by lia. reflexivity.
Qed.

Lemma Qfloor_inject_div10 (z : Z) : Qfloor (inject_Z z / 10) = z / 10.
Proof. rewrite Qfloor_div10, Qfloor_Z. reflexivity. Qed.

Lemma Qle_bool_inject (a b : Z) : Qle_bool (inject_Z a) (inject_Z b) = (a <=? b).
Proof.
  apply eq_true_iff_eq. rewrite Qle_bool_iff, Z.leb_le, <- Zle_Qle. reflexivity.
Qed.

Lemma Qle_bool_floor (a : Z) (q : Q) :
  Qle_bool (inject_Z a) q = (a <=? Qfloor q).
Proof.
  apply eq_true_iff_eq. rewrite Qle_bool_iff, Z.leb_le. split; intros H.
  - rewrite <- (Qfloor_Z a). apply Qfloor_resp_le. exact H.
  - apply Qle_trans with (inject_Z (Qfloor q)); [| apply Qfloor_le].
    rewrite <- Zle_Qle. exact H.
Qed.

Lemma Qtrunc_nonneg (q : Q) : (0 <= q)%Q -> Qtrunc q = Qfloor q.
Proof.
  intros H. unfold Qtrunc. apply Qle_bool_iff in H. rewrite H. reflexivity.
Qed.

Lemma Qtrunc_neg (q : Q) : ~ (0 <= q)%Q -> Qtrunc q <= 0 /\ Qfloor q < 0.
Proof.
  intros H. unfold Qtrunc.
  destruct (Qle_bool 0 q) eqn:E; [apply Qle_bool_iff in E; contradiction |].
  apply Qnot_le_lt in H. split.
  - assert (Hc : Qceiling q <= Qceiling 0).
    { apply Qceiling_resp_le. apply Qlt_le_weak. exact H. }
    exact Hc.
  - assert (Hf : (inject_Z (Qfloor q) < inject_Z 0)%Q).
    { apply Qle_lt_trans with q; [apply Qfloor_le | exact H]. }
    rewrite <- Zlt_Qlt in Hf. exact Hf.
Qed.

Lemma Qtrunc_inject_Z (z : Z) : Qtrunc (inject_Z z) = z.
Proof.
  unfold Qtrunc. destruct (Qle_bool 0 (inject_Z z)).
  - apply Qfloor_Z.
  - apply Qceiling_Z.
Qed.

Lemma Qtrunc_floor_decade (q : Q) :
  Qtrunc (floor_decade_float q) = Qfloor q / 10 * 10.
Proof.
  unfold floor_decade_float. by rewrite Qtrunc_inject_Z, Qfloor_div10.
Qed.

(** ** Strings of digits *)

Lemma int_body_digits (s : string) :
  PyStr.all_chars PyStr.is_digit s = true ->
  forall prev acc, (s <> EmptyString \/ prev = true) ->
  PyStr.int_body prev acc s = Some (PyStr.digits_value acc s).
Proof.
  induction s as [| a r IH]; simpl; intros Hall prev acc Hne.
  - destruct Hne as [Hne | ->]; [congruence | reflexivity].
  - apply andb_prop in Hall as [Ha Hr]. rewrite Ha.
    apply IH; [exact Hr | right; reflexivity].
Qed.

Lemma isdigit_int_body (s : string) :
  PyStr.isdigit s = true ->
  PyStr.int_body false 0 s = Some (PyStr.digits_value 0 s).
Proof.
  intros H. destruct s as [| a r]; [discriminate |].
  apply int_body_digits; [exact H | left; discriminate].
Qed.

(** A string of digits between blanks of the C locale is what [int]
    reads. *)
Lemma int_of_str_isdigit (s : string) :
  PyStr.isdigit (PyStr.strip_c s) = true ->
  PyStr.int_of_str s = Some (PyStr.digits_value 0 (PyStr.strip_c s)).
Proof.
  unfold PyStr.int_of_str. intros E.
  pose proof (isdigit_int_body _ E) as Hb.
  destruct (PyStr.strip_c s) as [| a r] eqn:Es; [discriminate |].
  assert (Ha : PyStr.is_digit a = true).
  { simpl in E. apply andb_prop in E as [Ha _]. exact Ha. }
  destruct a as [[] [] [] [] [] [] [] []]; try discriminate Ha; exact Hb.
Qed.

(** Without a separator U+001C to U+001F, [str.strip] removes what [int]
    skips. *)
Lemma is_space_cases (a : ascii) :
  PyStr.is_space a = PyStr.is_c_space a || PyStr.is_separator a.
Proof. destruct a as [[] [] [] [] [] [] [] []]; reflexivity. Qed.

Lemma lstrip_c_no_separator (s : string) :
  PyStr.all_chars (fun a => negb (PyStr.is_separator a)) s = true ->
  PyStr.lstrip_c s = PyStr.lstrip s /\
  PyStr.all_chars (fun a => negb (PyStr.is_separator a)) (PyStr.lstrip s) = true.
Proof.
  induction s as [| a r IH]; simpl; [done |]. intros H.
  apply andb_prop in H as [Ha Hr]. rewrite is_space_cases.
  destruct (PyStr.is_separator a) eqn:Ea; [discriminate Ha |].
  rewrite orb_false_r.
  destruct (PyStr.is_c_space a); [by apply IH |].
  split; [reflexivity |]. simpl. by rewrite Ea, Hr.
Qed.

Lemma rstrip_c_no_separator (s : string) :
  PyStr.all_chars (fun a => negb (PyStr.is_separator a)) s = true ->
  PyStr.rstrip_c s = PyStr.rstrip s.
Proof.
  induction s as [| a r IH]; simpl; [done |]. intros H.
  apply andb_prop in H as [Ha Hr]. rewrite (IH Hr), is_space_cases.
  destruct (PyStr.is_separator a); [discriminate Ha |].
  by rewrite orb_false_r.
Qed.

Lemma strip_c_no_separator (s : string) :
  PyStr.all_chars (fun a => negb (PyStr.is_separator a)) s = true ->
  PyStr.strip_c s = PyStr.strip s.
Proof.
  intros H. unfold PyStr.strip_c, PyStr.strip.
  destruct (lstrip_c_no_separator s H) as [-> Hl].
  by apply rstrip_c_no_separator.
Qed.

(** Text that [int] rejects although its stripped form is digits only has
    one of the separators in it: the string fallback of [get_decade]
    produces a decade for such text only. *)
Lemma fallback_has_separator (s : string) :
  PyStr.int_of_str s = None -> PyStr.isdigit (PyStr.strip s) = true ->
  exists a, has_char a s = true /\ PyStr.is_separator a = true.
Proof.
  intros Hint Hd.
  destruct (PyStr.all_chars (fun a => negb (PyStr.is_separator a)) s) eqn:E.
  - rewrite <- (strip_c_no_separator s E) in Hd.
    rewrite (int_of_str_isdigit s Hd) in Hint. discriminate.
  - clear Hint Hd. induction s as [| a r IH]; simpl in E; [discriminate |].
    destruct (PyStr.is_separator a) eqn:Ea.
    + exists a. simpl. by rewrite Ascii.eqb_refl.
    + simpl in E. destruct (IH E) as (b & Hb & Hs).
      exists b. simpl. by rewrite Hb, orb_true_r.
Qed.

(** ** A printed timestamp is not a string of digits *)

Lemma has_char_app a s1 s2 :
  has_char a (s1 +:+ s2) = has_char a s1 || has_char a s2.
Proof.
  induction s1 as [| b r IH]; simpl; [reflexivity |].
  rewrite IH, orb_assoc. reflexivity.
Qed.

Lemma has_char_lstrip a s :
  PyStr.is_space a = false -> has_char a s = true ->
  has_char a (PyStr.lstrip s) = true.
Proof.
  intros Ha. induction s as [| b r IH]; simpl; [discriminate |].
  intros H. destruct (PyStr.is_space b) eqn:Eb; [| exact H].
  apply IH. destruct (Ascii.eqb a b) eqn:E; [| exact H].
  apply Ascii.eqb_eq in E. congruence.
Qed.

Lemma has_char_rstrip a s :
  PyStr.is_space a = false -> has_char a s = true ->
  has_char a (PyStr.rstrip s) = true.
Proof.
  intros Ha. induction s as [| b r IH]; simpl; [discriminate |].
  intros H. destruct (Ascii.eqb a b) eqn:E.
  - apply Ascii.eqb_eq in E. subst b. rewrite Ha.
    destruct (PyStr.rstrip r); simpl; rewrite Ascii.eqb_refl; reflexivity.
  - simpl in H. specialize (IH H).
    destruct (PyStr.rstrip r); [discriminate IH |].
    simpl. simpl in IH. rewrite E. exact IH.
Qed.

Lemma has_char_not_digits a s :
  PyStr.is_digit a = false -> has_char a s = true -> PyStr.isdigit s = false.
Proof.
  intros Ha H.
  assert (Hall : PyStr.all_chars PyStr.is_digit s = false).
  { induction s as [| b r IH]; simpl in *; [discriminate |].
    destruct (Ascii.eqb a b) eqn:E.
    - apply Ascii.eqb_eq in E. subst b. rewrite Ha. reflexivity.
    - rewrite (IH H). apply andb_false_r. }
  destruct s; [reflexivity | exact Hall].
Qed.

Lemma timestamp_str_not_digits (t : Z) :
  PyStr.isdigit (PyStr.strip (Timestamp.to_str t)) = false.
Proof.
  apply (has_char_not_digits ":"); [reflexivity |].
  unfold PyStr.strip.
  apply has_char_rstrip; [reflexivity |].
  apply has_char_lstrip; [reflexivity |].
  unfold Timestamp.to_str. rewrite !has_char_app. simpl.
  rewrite !orb_true_r. reflexivity.
Qed.


(** ** Decade bucketing *)

Lemma bucket_of_int (z : Z) :
  (if z <? 1950 then "Pre-1950s"
   else if 2020 <=? z then "2020s" else decade_fmt (z / 10 * 10))
  = decade_bucket_spec (Some (inject_Z z)).
Proof.
  unfold decade_bucket_spec.
  change 1950%Q with (inject_Z 1950). change 2020%Q with (inject_Z 2020).
  rewrite !Qle_bool_inject, Qfloor_inject_div10, <- Z.ltb_antisym.
  reflexivity.
Qed.

Lemma bucket_of_float (q : Q) :
  (if Qtrunc q <? 1950 then "Pre-1950s"
   else if 2020 <=? Qtrunc q then "2020s" else decade_fmt (Qtrunc q / 10 * 10))
  = decade_bucket_spec (Some q).
Proof.
  unfold decade_bucket_spec.
  change 1950%Q with (inject_Z 1950). change 2020%Q with (inject_Z 2020).
  rewrite !Qle_bool_floor, Qfloor_div10, <- Z.ltb_antisym.
  destruct (Qlt_le_dec q 0) as [Hneg | Hpos].
  - destruct (Qtrunc_neg q) as [Ht Hf]; [apply Qlt_not_le; exact Hneg |].
    replace (Qtrunc q <? 1950) with true by (symmetry; apply Z.ltb_lt; lia).
    replace (Qfloor q <? 1950) with true by (symmetry; apply Z.ltb_lt; lia).
    reflexivity.
  - rewrite Qtrunc_nonneg by exact Hpos. reflexivity.
Qed.

(** The string fallback of [get_decade], for text that [int] rejects. *)
Lemma get_decade_fallback (s : string) :
  PyStr.int_of_str s = None ->
  let year_str := PyStr.strip s in
  let d := PyStr.digits_value 0 year_str in
  get_decade (CStr s)
  = if PyStr.isdigit year_str && (String.length year_str =? 4)%nat
    then decade_bucket_spec (Some (inject_Z d))
    else if PyStr.isdigit year_str && (String.length year_str =? 2)%nat
    then decade_fmt ((if 50 <=? d then 1900 else 2000) + d / 10 * 10)
    else "Unknown".
Proof.
  intros E. cbv zeta. unfold get_decade. cbn [isna py_int py_str]. rewrite E.
  rewrite <- bucket_of_int.
  destruct (PyStr.isdigit (PyStr.strip s) && (String.length (PyStr.strip s) =? 4)%nat);
    [reflexivity |].
  destruct (PyStr.isdigit (PyStr.strip s) && (String.length (PyStr.strip s) =? 2)%nat);
    [| reflexivity].
  by destruct (50 <=? PyStr.digits_value 0 (PyStr.strip s)).
Qed.

(** C3, as stated, fails: [get_decade_label] has no bucket "Pre-1950s" and
    labels 1949 "1940s"; and [get_decade] labels the text of two digits
    after U+001C, which [int] cannot read, "2030s", neither "Unknown" nor
    "2020s". *)
Lemma decade_bucket_rule_fails :
  get_decade_label (CInt 1949) = "1940s" /\
  decade_bucket_spec (Some (inject_Z 1949)) = "Pre-1950s" /\
  py_int (CStr separated_35) = None /\
  get_decade (CStr separated_35) = "2030s" /\
  decade_bucket_spec (year_number (CStr separated_35)) = "Unknown".
Proof. repeat split; vm_compute; reflexivity. Qed.

(** C3 (amended): [get_decade] is a function of the year value alone.  A
    missing year gives "Unknown"; a number, and text of at most 4300
    characters that [int] reads, follows the bucket rule on the year it
    holds: below 1950 "Pre-1950s", from 2020 on "2020s", otherwise the
    floor of the year to its decade followed by "s"; a timestamp gives
    "Unknown".  ASCII text that [int] rejects goes through the string
    fallback: when its stripped form is four digits the bucket rule applies
    to them, when it is two digits [d] the label is that of 1900 + d (from
    50 on) or 2000 + d, and otherwise it is "Unknown"; the fallback finds
    digits only in text with one of the separators U+001C to U+001F.
    [get_decade_label] has no range buckets: it labels every year [int]
    reads with the floor of the year to its decade (an integer whose decade
    has at most 4300 digits, a float from 0 up, text of at most 4300
    characters), and a missing year, a timestamp and ASCII text that [int]
    rejects "Unknown". *)
Theorem get_decade_bucket_rule :
  (forall y1 y2, y1 = y2 ->
     get_decade y1 = get_decade y2 /\ get_decade_label y1 = get_decade_label y2) /\
  get_decade CMissing = "Unknown" /\
  (forall z, get_decade (CInt z) = decade_bucket_spec (Some (inject_Z z))) /\
  (forall q, get_decade (CFloat q) = decade_bucket_spec (Some q)) /\
  (forall s z, (String.length s <= 4300)%nat -> PyStr.int_of_str s = Some z ->
     get_decade (CStr s) = decade_bucket_spec (Some (inject_Z z))) /\
  (forall t, get_decade (CDate t) = "Unknown") /\
  (forall s, PyStr.is_ascii s = true -> PyStr.int_of_str s = None ->
     let year_str := PyStr.strip s in
     let d := PyStr.digits_value 0 year_str in
     get_decade (CStr s)
     = if PyStr.isdigit year_str && (String.length year_str =? 4)%nat
       then decade_bucket_spec (Some (inject_Z d))
       else if PyStr.isdigit year_str && (String.length year_str =? 2)%nat
       then decade_fmt ((if 50 <=? d then 1900 else 2000) + d / 10 * 10)
       else "Unknown") /\
  (forall s, PyStr.is_ascii s = true -> PyStr.int_of_str s = None ->
     get_decade (CStr s) <> "Unknown" ->
     exists a, has_char a s = true /\ PyStr.is_separator a = true) /\
  (get_decade_label CMissing = "Unknown" /\
   (forall z, Z.abs (z / 10 * 10) < 10 ^ 4300 ->
      get_decade_label (CInt z) = decade_fmt (z / 10 * 10)) /\
   (forall q, (0 <= q)%Q ->
      get_decade_label (CFloat q) = decade_fmt (Qfloor (q / 10) * 10)) /\
   (forall s z, (String.length s <= 4300)%nat -> PyStr.int_of_str s = Some z ->
      get_decade_label (CStr s) = decade_fmt (z / 10 * 10)) /\
   (forall s, PyStr.is_ascii s = true -> PyStr.int_of_str s = None ->
      get_decade_label (CStr s) = "Unknown") /\
   (forall t, get_decade_label (CDate t) = "Unknown")) /\
  (get_decade (CInt 1983) = "1980s" /\ get_decade (CFloat 1983) = "1980s" /\
   get_decade (CInt 1949) = "Pre-1950s" /\ get_decade (CInt 2021) = "2020s" /\
   get_decade (CStr "n/a") = "Unknown" /\
   get_decade (CStr separated_85) = "1980s" /\
   get_decade (CStr separated_35) = "2030s") /\
  (get_decade_label (CInt 1983) = "1980s" /\ get_decade_label (CInt 1949) = "1940s" /\
   get_decade_label (CInt 2021) = "2020s" /\
   get_decade_label (CStr separated_35) = "Unknown").
Proof.
  split; [by intros y1 y2 -> |]. split; [reflexivity |].
  split; [intros z; apply bucket_of_int |].
  split; [intros q; apply bucket_of_float |].
  split.
  { intros s z _ E. unfold get_decade. cbn [isna py_int py_str]. rewrite E.
    apply bucket_of_int. }
  split.
  { intros t. unfold get_decade. cbn [isna py_int py_str].
    by rewrite timestamp_str_not_digits. }
  split; [intros s _ E; by apply get_decade_fallback |].
  split.
  { intros s _ E Hne. apply (fallback_has_separator s E).
    rewrite (get_decade_fallback s E) in Hne. cbv zeta in Hne.
    destruct (PyStr.isdigit (PyStr.strip s)); [reflexivity | by simpl in Hne]. }
  split.
  { split; [reflexivity |]. split; [by intros z _ |]. split.
    - intros q Hq. unfold get_decade_label. cbn [isna py_int].
      by rewrite (Qtrunc_nonneg q Hq), Qfloor_div10.
    - split; [| split].
      + intros s z _ E. unfold get_decade_label. cbn [isna py_int]. by rewrite E.
      + intros s _ E. unfold get_decade_label. cbn [isna py_int]. by rewrite E.
      + reflexivity. }
  split; repeat split; vm_compute; reflexivity.
Qed.

(** ** Wealth-range standardisation *)

Lemma targeting_wealth_range (v : cell) :
  Targeting.standardize_wealth_range v ∈ "Unknown" :: wealth_vocabulary.
Proof.
  unfold Targeting.standardize_wealth_range, wealth_vocabulary.
  split_ifs; set_solver.
Qed.

Lemma giving_wealth_range (v : cell) :
  Giving.standardize_wealth_range v ∈ giving_wealth_labels.
Proof.
  unfold Giving.standardize_wealth_range, giving_wealth_labels.
  split_ifs; set_solver.
Qed.

(** C5: the two standardisers do not give the same result for every
    input, although the targeting one is written as "using the logic from
    wealth_range_distribution", the giving-analysis one.  On "5,000,000+"
    the giving-analysis standardiser answers "Unknown" and the targeting
    one "Over $5M"; on "TBD" they answer "Unknown" and "Under $50K"; and
    on "under 50k" the giving-analysis one answers "Under $100K", which is
    outside the fixed vocabulary. *)
Lemma wealth_standardizers_disagree :
  Giving.standardize_wealth_range (CStr "5,000,000+") = "Unknown" /\
  Targeting.standardize_wealth_range (CStr "5,000,000+") = "Over $5M" /\
  Giving.standardize_wealth_range (CStr "5,000,000+")
    <> Targeting.standardize_wealth_range (CStr "5,000,000+") /\
  Giving.standardize_wealth_range (CStr "TBD") = "Unknown" /\
  Targeting.standardize_wealth_range (CStr "TBD") = "Under $50K" /\
  Giving.standardize_wealth_range (CStr "TBD")
    <> Targeting.standardize_wealth_range (CStr "TBD") /\
  Giving.standardize_wealth_range (CStr "under 50k") = "Under $100K" /\
  "Under $100K" ∉ "Unknown" :: wealth_vocabulary.
Proof.
  repeat split; try (vm_compute; reflexivity); try (vm_compute; discriminate).
  unfold wealth_vocabulary. intros H.
  repeat (apply elem_of_cons in H as [H | H]; [discriminate H |]).
  inversion H.
Qed.

(** What each standardiser does on its own: the targeting one maps every
    raw value into the fixed vocabulary or "Unknown", returns "Unknown"
    exactly on a missing value, and maps "5,000,000+" to "Over $5M" and
    "100,000-249,999" to "$100K-$250K"; the giving-analysis one maps every
    raw value into its own label set, which has "Under $100K" as its lowest
    bucket. *)
Theorem wealth_range_standardization :
  (forall v, Targeting.standardize_wealth_range v ∈ "Unknown" :: wealth_vocabulary) /\
  (forall v, Targeting.standardize_wealth_range v = "Unknown" <-> v = CMissing) /\
  Targeting.standardize_wealth_range (CStr "5,000,000+") = "Over $5M" /\
  Targeting.standardize_wealth_range (CStr "100,000-249,999") = "$100K-$250K" /\
  Targeting.standardize_wealth_range (CStr "TBD") = "Under $50K" /\
  (forall v, Giving.standardize_wealth_range v ∈ giving_wealth_labels) /\
  Giving.standardize_wealth_range (CStr "TBD") = "Unknown".
Proof.
  split; [exact targeting_wealth_range |].
  split.
  { intros v. split.
    - destruct v; [reflexivity | | | |];
        unfold Targeting.standardize_wealth_range; simpl isna; cbv iota;
        split_ifs; discriminate.
    - intros ->. reflexivity. }
  split; [vm_compute; reflexivity |].
  split; [vm_compute; reflexivity |].
  split; [vm_compute; reflexivity |].
  split; [exact giving_wealth_range | vm_compute; reflexivity].
Qed.

(** ** The sheet loader *)

Section Loader.

Implicit Types (sheets : list (string * sheet_read)).
Implicit Types (acc : list message * gmap string table).

Lemma load_sheets_log sheets acc :
  (foldl load_sheet acc sheets).1 = acc.1 ++ omap sheet_warning sheets.
Proof.
  revert acc. induction sheets as [| [name r] rest IH]; intros acc; simpl.
  - by rewrite app_nil_r.
  - rewrite IH. unfold load_sheet, sheet_warning. simpl.
    destruct r; simpl; [done |]. by rewrite <- app_assoc.
Qed.

Lemma load_sheets_absent sheets acc name :
  name ∉ sheets.*1 ->
  (foldl load_sheet acc sheets).2 !! name = acc.2 !! name.
Proof.
  revert acc. induction sheets as [| [n r] rest IH]; intros acc Hn; simpl; [done |].
  apply not_elem_of_cons in Hn as [Hne Hrest]. simpl in Hne.
  rewrite IH by done. unfold load_sheet. simpl.
  destruct r; simpl; [| done]. by rewrite lookup_insert_ne.
Qed.

Lemma load_sheets_sound sheets acc name df :
  (foldl load_sheet acc sheets).2 !! name = Some df ->
  acc.2 !! name = Some df \/ (name, ReadOk df) ∈ sheets.
Proof.
  revert acc. induction sheets as [| [n r] rest IH]; intros acc H; simpl in *.
  - by left.
  - apply IH in H as [H | H]; [| right; apply elem_of_cons; by right].
    unfold load_sheet in H. simpl in H. destruct r as [df' | e]; simpl in H.
    + destruct (decide (n = name)) as [-> | Hne].
      * rewrite lookup_insert_eq in H. injection H as ->.
        right. apply elem_of_cons. by left.
      * rewrite lookup_insert_ne in H by done. by left.
    + by left.
Qed.

(** The loop never removes a key. *)
Lemma load_sheets_keeps sheets acc name :
  is_Some (acc.2 !! name) ->
  is_Some ((foldl load_sheet acc sheets).2 !! name).
Proof.
  revert acc. induction sheets as [| [n r] rest IH]; intros acc H; simpl; [done |].
  apply IH. unfold load_sheet. simpl. destruct r; simpl; [| done].
  destruct (decide (n = name)) as [-> | Hne].
  - rewrite lookup_insert_eq. by eexists.
  - by rewrite lookup_insert_ne.
Qed.

Lemma load_sheets_complete sheets acc name df :
  (name, ReadOk df) ∈ sheets ->
  is_Some ((foldl load_sheet acc sheets).2 !! name).
Proof.
  revert acc. induction sheets as [| [n r] rest IH]; intros acc H; simpl.
  - by apply elem_of_nil in H.
  - apply elem_of_cons in H as [Heq | H]; [| by apply IH].
    injection Heq as <- <-. apply load_sheets_keeps.
    unfold load_sheet. simpl. rewrite lookup_insert_eq. by eexists.
Qed.

Lemma load_sheets_exact sheets acc name df :
  NoDup sheets.*1 -> (name, ReadOk df) ∈ sheets ->
  (foldl load_sheet acc sheets).2 !! name = Some df.
Proof.
  revert acc. induction sheets as [| [n r] rest IH]; intros acc Hnd H; simpl.
  - by apply elem_of_nil in H.
  - simpl in Hnd. apply NoDup_cons in Hnd as [Hn Hnd].
    apply elem_of_cons in H as [Heq | H]; [| by apply IH].
    injection Heq as <- <-. rewrite load_sheets_absent by done.
    unfold load_sheet. simpl. by rewrite lookup_insert_eq.
Qed.

End Loader.

(** C9: [load_data] raises again when the workbook cannot be opened, and
    otherwise always returns: a sheet that cannot be read is left out with
    one warning, every sheet that can be read is a key of the result, and
    with distinct sheet names it is stored under its name unchanged. *)
Theorem load_data_failure_policy :
  (forall e, exists log, load_data (Unreadable e) = (log, Raises e)) /\
  (forall sheets, exists m,
      load_data (Sheets sheets) = (omap sheet_warning sheets, Returns m) /\
      (forall name df, (name, ReadOk df) ∈ sheets -> is_Some (m !! name)) /\
      (forall name df, m !! name = Some df -> (name, ReadOk df) ∈ sheets) /\
      (forall name e, (name, ReadError e) ∈ sheets ->
         Warning ("Could not read sheet '" +:+ name +:+ "': " +:+ e)
           ∈ omap sheet_warning sheets) /\
      (NoDup sheets.*1 ->
       forall name df, (name, ReadOk df) ∈ sheets -> m !! name = Some df)).
Proof.
  split.
  - intros e. eexists. reflexivity.
  - intros sheets. exists (foldl load_sheet ([], ∅) sheets).2.
    split; [| split; [| split; [| split]]].
    + unfold load_data. by rewrite load_sheets_log.
    + intros name df H. by eapply load_sheets_complete.
    + intros name df H. apply load_sheets_sound in H as [H | H]; [| done].
      simpl in H. by rewrite lookup_empty in H.
    + intros name e H. apply list_elem_of_omap. by exists (name, ReadError e).
    + intros Hnd name df H. by apply load_sheets_exact.
Qed.

(** C1, as stated, fails: [load_data] keeps a sheet named "Sheet7", and
    [load_default_data] keeps one named "SHEET7". *)
Lemma loader_keeps_placeholder :
  (exists log m name,
      load_data workbook_with_sheet7 = (log, Returns m) /\
      is_Some (m !! name) /\ is_placeholder name) /\
  (exists log m name,
      load_default_data workbook_with_SHEET7 = (log, Some m) /\
      is_Some (m !! name) /\ is_placeholder name).
Proof.
  split.
  - eexists _, _, "Sheet7". split; [reflexivity |].
    split; [by eexists | reflexivity].
  - eexists _, _, "SHEET7". split; [reflexivity |].
    split; [by eexists | reflexivity].
Qed.

(** C1 (amended): the mapping [load_default_data] returns has no key
    spelled exactly "Sheet7" and otherwise holds the sheets of the
    workbook; the analyses visit no sheet whose name equals "sheet7" when
    case is ignored, and visit every other sheet of the mapping. *)
Theorem placeholder_sheet_excluded :
  (forall file log m, load_default_data file = (log, Some m) ->
     m !! "Sheet7" = None /\
     (forall name, name <> "Sheet7" ->
        forall all, read_excel_all file = Returns all -> m !! name = all !! name)) /\
  (forall all_sheets name, is_placeholder name -> sessions all_sheets !! name = None) /\
  (forall all_sheets name, ~ is_placeholder name ->
     sessions all_sheets !! name = all_sheets !! name).
Proof.
  split; [| split].
  - intros file log m. unfold load_default_data.
    destruct (read_excel_all file) as [all | e]; [| discriminate].
    intros [= <- <-]. split.
    + destruct (all !! "Sheet7") eqn:E; [apply lookup_delete_eq | exact E].
    + intros name Hne all' [= <-].
      destruct (all !! "Sheet7"); [by rewrite lookup_delete_ne | done].
  - intros all_sheets name Hp. unfold sessions, is_placeholder in *.
    apply map_lookup_filter_None. right. intros df _. simpl.
    unfold is_session. rewrite Hp. discriminate.
  - intros all_sheets name Hp. unfold sessions, is_placeholder in *.
    destruct (all_sheets !! name) as [df |] eqn:E.
    + apply map_lookup_filter_Some. split; [done |]. simpl.
      unfold is_session. destruct (String.eqb_spec (PyStr.lower name) "sheet7"); done.
    + apply map_lookup_filter_None. by left.
Qed.

(** ** Loops over columns *)

Lemma in_list_spec (k : string) (names : list string) :
  in_list k names = true <-> k ∈ names.
Proof.
  unfold in_list. rewrite existsb_exists, list_elem_of_In. split.
  - intros [x [Hin Heq]]. apply String.eqb_eq in Heq. by subst.
  - intros Hin. exists k. split; [done | apply String.eqb_refl].
Qed.

Lemma in_list_false (k : string) (names : list string) :
  in_list k names = false <-> k ∉ names.
Proof.
  rewrite <- in_list_spec. destruct (in_list k names); split; congruence.
Qed.

Lemma in_list_filter (p : string -> bool) k names :
  in_list k (List.filter p names) = p k && in_list k names.
Proof.
  apply eq_true_iff_eq.
  rewrite andb_true_iff, !in_list_spec, !list_elem_of_In, filter_In. tauto.
Qed.

Lemma columns_spec (df : gmap string column) k :
  k ∈ columns df <-> is_Some (df !! k).
Proof.
  unfold columns. rewrite list_elem_of_fmap. split.
  - intros [[k' c] [-> H]]. apply elem_of_map_to_list in H. by eexists.
  - intros [c H]. exists (k, c). split; [done | by apply elem_of_map_to_list].
Qed.

Lemma in_list_columns (df : gmap string column) k :
  in_list k (columns df) = is_some (df !! k).
Proof.
  apply eq_true_iff_eq. rewrite in_list_spec, columns_spec.
  destruct (df !! k); simpl; split; try done; try (by eexists); by intros [].
Qed.

Lemma NoDup_columns (df : gmap string column) : NoDup (columns df).
Proof. apply NoDup_fst_map_to_list. Qed.

Lemma NoDup_list_filter (p : string -> bool) (names : list string) :
  NoDup names -> NoDup (List.filter p names).
Proof.
  rewrite !NoDup_ListNoDup. apply List.NoDup_filter.
Qed.

Lemma for_cols_lookup names f (df : gmap string column) k :
  NoDup names ->
  for_cols names f df !! k = (if in_list k names then f k else id) <$> df !! k.
Proof.
  unfold for_cols. revert df.
  induction names as [| n rest IH]; intros df Hnd; simpl.
  - by destruct (df !! k).
  - apply NoDup_cons in Hnd as [Hn Hnd]. rewrite IH by done.
    destruct (String.eqb_spec k n) as [-> | Hne]; simpl.
    + apply in_list_false in Hn. rewrite Hn, lookup_alter_eq.
      by destruct (df !! n).
    + by rewrite lookup_alter_ne.
Qed.

Section Steps.

Context {dates : DateParser}.
Implicit Types (df : gmap string column).

Lemma step_missing_lookup df k :
  step_missing df !! k = replace_empty <$> df !! k.
Proof.
  unfold step_missing. rewrite for_cols_lookup by apply NoDup_columns.
  rewrite in_list_columns. by destruct (df !! k).
Qed.

Lemma step_id_lookup df k :
  step_id df !! k = (if String.eqb k "ID" then astype_str else id) <$> df !! k.
Proof.
  unfold step_id. destruct (String.eqb_spec k "ID") as [-> | Hne].
  - by rewrite lookup_alter_eq.
  - rewrite lookup_alter_ne by done. by destruct (df !! k).
Qed.

Lemma step_years_lookup df k :
  step_years df !! k
  = (if in_list k year_cols then to_numeric else id) <$> df !! k.
Proof.
  unfold step_years. apply for_cols_lookup.
  unfold year_cols. compute_done.
Qed.

Lemma step_dates_lookup df k :
  step_dates (date_cols_of df) df !! k
  = (if is_date_name k then to_datetime else id) <$> df !! k.
Proof.
  unfold step_dates, date_cols_of.
  rewrite for_cols_lookup by (apply NoDup_list_filter, NoDup_columns).
  rewrite in_list_filter, in_list_columns.
  destruct (df !! k); simpl; [| done]. by rewrite andb_true_r.
Qed.

(** Membership in [date_cols] is the name test, for a column of a frame
    whose date-named columns were all there when the list was made. *)
Lemma in_date_cols df0 df k :
  (is_date_name k = true -> is_Some (df !! k) -> is_Some (df0 !! k)) ->
  is_Some (df !! k) ->
  in_list k (date_cols_of df0) = is_date_name k.
Proof.
  intros Hdom Hk. unfold date_cols_of.
  rewrite in_list_filter, in_list_columns.
  destruct (is_date_name k) eqn:E; simpl; [| done].
  destruct (Hdom eq_refl Hk) as [c ->]. done.
Qed.

Lemma step_amounts_lookup df0 df k :
  (forall k, is_Some (df !! k) <-> is_Some (df0 !! k)) ->
  step_amounts (date_cols_of df0) df !! k
  = (if is_amount_name k && negb (is_date_name k)
     then amount_clean k else id) <$> df !! k.
Proof.
  intros Hdom. unfold step_amounts, amount_cols_of.
  rewrite for_cols_lookup by (apply NoDup_list_filter, NoDup_columns).
  rewrite in_list_filter, in_list_columns.
  destruct (df !! k) as [c |] eqn:E; simpl; [| done].
  rewrite (in_date_cols df0 df), andb_true_r; [done | | by eexists].
  intros _ H. by apply Hdom.
Qed.

(** The frame just before 'Decade' is assigned. *)
Lemma before_decade_lookup df k :
  let df3 := step_years (step_id (step_missing df)) in
  let date_cols := date_cols_of df3 in
  step_amounts date_cols (step_dates date_cols df3) !! k
  = norm_col k <$> df !! k.
Proof.
  intros df3 date_cols. subst date_cols.
  rewrite step_amounts_lookup.
  - rewrite step_dates_lookup. subst df3.
    rewrite step_years_lookup, step_id_lookup, step_missing_lookup.
    unfold norm_col.
    destruct (String.eqb k "ID"), (in_list k year_cols),
      (is_date_name k), (is_amount_name k), (df !! k); reflexivity.
  - intros k'. rewrite step_dates_lookup. by rewrite fmap_is_Some.
Qed.

End Steps.

(** ** Printed values are not empty *)

Lemma has_char_nonempty a s : has_char a s = true -> s <> "".
Proof. by destruct s. Qed.

Lemma pretty_N_go_length (x : N) (s : string) :
  (String.length s <= String.length (pretty_N_go x s))%nat.
Proof.
  revert s. induction (N.lt_wf_0 x) as [x _ IH]; intros s.
  assert (x = 0 \/ 0 < x)%N as [-> | Hx] by lia.
  - by rewrite pretty_N_go_0.
  - rewrite pretty_N_go_step by done.
    etrans; [| apply IH; by apply N.div_lt]. simpl. lia.
Qed.

Lemma pretty_N_nonempty (x : N) : pretty x <> "".
Proof.
  unfold pretty, pretty_N. case_decide; [done |].
  rewrite pretty_N_go_step by lia.
  intros Hempty. pose proof (pretty_N_go_length (x `div` 10)
    (String (pretty_N_char (x `mod` 10)) "")) as Hlen.
  rewrite Hempty in Hlen. simpl in Hlen. lia.
Qed.

Lemma pretty_Z_nonempty (z : Z) : pretty z <> "".
Proof.
  destruct z as [| p | p]; [done | apply pretty_N_nonempty | done].
Qed.

Lemma decade_fmt_nonempty (z : Z) : decade_fmt z <> "".
Proof.
  apply (has_char_nonempty "s"). unfold decade_fmt.
  rewrite has_char_app. simpl. apply orb_true_r.
Qed.

Lemma app_nonempty_r (s1 s2 : string) : s2 <> "" -> s1 +:+ s2 <> "".
Proof. intros H. destruct s1; [exact H | discriminate]. Qed.

(** Every layout has a decimal point or an exponent. *)
Lemma layout_nonempty (digits : string) (decpt : Z) : layout digits decpt <> "".
Proof.
  unfold layout.
  destruct ((decpt <=? -4) || (16 <? decpt)).
  - apply (has_char_nonempty "e"). rewrite !has_char_app.
    replace (has_char "e" "e") with true by reflexivity.
    by rewrite !orb_true_r.
  - destruct (decpt <=? 0).
    + discriminate.
    + destruct (Z.of_nat (String.length digits) <=? decpt);
        apply (has_char_nonempty "."); rewrite !has_char_app;
        replace (has_char "." (".0")) with true by reflexivity;
        replace (has_char "." ".") with true by reflexivity;
        by rewrite ?orb_true_r.
Qed.

Lemma repr_float_nonempty (q : Q) : repr_float q <> "".
Proof.
  unfold repr_float. destruct (Qeq_bool (round_double q) 0); [discriminate |].
  destruct (shortest_decimal 17 (Qabs (round_double q)) 1) as [d s].
  apply app_nonempty_r, layout_nonempty.
Qed.

Lemma timestamp_str_has_colon (t : Z) : has_char ":" (Timestamp.to_str t) = true.
Proof.
  unfold Timestamp.to_str. rewrite !has_char_app. simpl.
  rewrite !orb_true_r. reflexivity.
Qed.

Lemma timestamp_str_nonempty (t : Z) : Timestamp.to_str t <> "".
Proof. apply (has_char_nonempty ":"), timestamp_str_has_colon. Qed.

Lemma date_str_nonempty (t : Z) : Timestamp.date_str t <> "".
Proof.
  apply (has_char_nonempty "-"). unfold Timestamp.date_str.
  destruct (Timestamp.civil_of_days _) as [[y m] d].
  rewrite !has_char_app. simpl. rewrite !orb_true_r. reflexivity.
Qed.

Lemma py_str_nonempty (x : cell) : x <> CStr "" -> py_str x <> "".
Proof.
  destruct x as [| z | q | s | t]; simpl; intros H.
  - done.
  - apply pretty_Z_nonempty.
  - apply repr_float_nonempty.
  - congruence.
  - apply timestamp_str_nonempty.
Qed.

(** ** One column, normalised twice *)

Lemma replace_empty_cell_fix (x : cell) :
  x <> CStr "" -> replace_empty_cell x = x.
Proof. destruct x as [| | | [| a r] |]; simpl; congruence. Qed.

Lemma replace_empty_cell_nonempty (x : cell) : replace_empty_cell x <> CStr "".
Proof. destruct x as [| | | [| a r] |]; simpl; congruence. Qed.

Lemma replace_empty_fix (c : column) : no_empty c -> replace_empty c = c.
Proof.
  destruct c as [l | | |]; simpl; try done.
  intros H. f_equal. induction H as [| x l Hx _ IH]; simpl; [done |].
  by rewrite replace_empty_cell_fix, IH.
Qed.

Lemma no_empty_replace_empty (c : column) : no_empty (replace_empty c).
Proof.
  destruct c as [l | | |]; simpl; try done.
  apply Forall_fmap, Forall_true. intros x. apply replace_empty_cell_nonempty.
Qed.

Lemma no_empty_numeric (c : column) : is_numeric c = true -> no_empty c.
Proof. by destruct c. Qed.

Lemma to_numeric_numeric (c : column) : is_numeric (to_numeric c) = true.
Proof.
  destruct c as [l | | |]; simpl; try done.
  by destruct (forallb is_int64_cell _).
Qed.

Lemma to_numeric_fix (c : column) : is_numeric c = true -> to_numeric c = c.
Proof. by destruct c. Qed.

Lemma no_empty_astype_str (c : column) : no_empty c -> no_empty (astype_str c).
Proof.
  destruct c as [l | l | l | l]; simpl; intros H; apply Forall_fmap.
  - eapply Forall_impl; [exact H |]. simpl. intros x Hx [= Hs].
    by apply py_str_nonempty in Hx.
  - apply Forall_true. intros z [= Hs]. by apply pretty_Z_nonempty in Hs.
  - apply Forall_true. intros [q |]; simpl; [| done]. intros [= Hs].
    by apply repr_float_nonempty in Hs.
  - apply Forall_true. intros [t |]; simpl; [| done]. intros [= Hs].
    destruct (forallb _ l).
    + by apply date_str_nonempty in Hs.
    + by apply timestamp_str_nonempty in Hs.
Qed.

Lemma astype_str_idem (c : column) : astype_str (astype_str c) = astype_str c.
Proof.
  destruct c as [l | l | l | l]; simpl; f_equal;
    rewrite <- list_fmap_compose; by apply list_fmap_ext.
Qed.

Lemma fillna_unknown_idem (c : column) :
  fillna_unknown (fillna_unknown c) = fillna_unknown c.
Proof.
  destruct c as [l | l | l | l]; simpl.
  - f_equal. rewrite <- list_fmap_compose. apply list_fmap_ext.
    intros i x _. simpl. by destruct x.
  - done.
  - destruct (all_some l) eqn:E; simpl; [by rewrite E |].
    f_equal. rewrite <- list_fmap_compose. apply list_fmap_ext.
    intros i [q |] _; done.
  - destruct (all_some l) eqn:E; simpl; [by rewrite E |].
    f_equal. rewrite <- list_fmap_compose. apply list_fmap_ext.
    intros i [t |] _; done.
Qed.

Lemma no_empty_fillna_unknown (c : column) :
  no_empty c -> no_empty (fillna_unknown c).
Proof.
  destruct c as [l | l | l | l]; simpl; intros H.
  - apply Forall_fmap. eapply Forall_impl; [exact H |].
    simpl. intros x Hx. by destruct x.
  - done.
  - destruct (all_some l); simpl; [done |].
    apply Forall_fmap, Forall_true. by intros [q |].
  - destruct (all_some l); simpl; [done |].
    apply Forall_fmap, Forall_true. by intros [t |].
Qed.

Lemma no_empty_decade_column (yr : column) :
  is_numeric yr = true -> no_empty (decade_column yr).
Proof.
  destruct yr as [l | l | l | l]; simpl; try done; intros _;
    apply Forall_fmap, Forall_true.
  - intros z [= Hs]. by apply decade_fmt_nonempty in Hs.
  - intros [q |]; simpl; [| done]. intros [= Hs].
    by apply decade_fmt_nonempty in Hs.
Qed.

Lemma amount_clean_idem (k : string) (c : column) :
  amount_clean k (amount_clean k c) = amount_clean k c.
Proof.
  destruct c as [l | l | l | l]; try reflexivity.
  assert (H : amount_clean k (ObjCol l) = ObjCol l \/
              is_numeric (amount_clean k (ObjCol l)) = true).
  { unfold amount_clean.
    destruct (String.eqb k "WE Range" || String.eqb k "LT Giving");
      [by left | right; apply to_numeric_numeric]. }
  destruct H as [H | H].
  - by rewrite !H.
  - destruct (amount_clean k (ObjCol l)); simpl in H; try discriminate; reflexivity.
Qed.

Lemma no_empty_amount_clean (k : string) (c : column) :
  no_empty c -> no_empty (amount_clean k c).
Proof.
  destruct c as [l | l | l | l]; try done. intros H. unfold amount_clean.
  destruct (String.eqb k "WE Range" || String.eqb k "LT Giving"); [done |].
  apply no_empty_numeric, to_numeric_numeric.
Qed.

Section NormCol.

Context {dates : DateParser}.

Lemma to_datetime_idem (c : column) : to_datetime (to_datetime c) = to_datetime c.
Proof. by destruct c. Qed.

Lemma norm_col_ID (c : column) : norm_col "ID" c = astype_str (replace_empty c).
Proof. reflexivity. Qed.

Lemma norm_col_CL_YR (c : column) :
  norm_col "CL YR" c = to_numeric (replace_empty c).
Proof. reflexivity. Qed.

Lemma norm_col_SP_CL_YR (c : column) :
  norm_col "SP CL YR" c = to_numeric (replace_empty c).
Proof. reflexivity. Qed.

Lemma norm_col_State (c : column) : norm_col "State" c = replace_empty c.
Proof. reflexivity. Qed.

Lemma norm_col_Decade (c : column) : norm_col "Decade" c = replace_empty c.
Proof. reflexivity. Qed.

Lemma norm_col_Total (c : column) :
  norm_col "Total_All_Giving" c = replace_empty c.
Proof. reflexivity. Qed.

Lemma norm_col_other (k : string) (c : column) :
  String.eqb k "ID" = false -> in_list k year_cols = false ->
  norm_col k c
  = (if is_amount_name k && negb (is_date_name k) then amount_clean k else id)
      ((if is_date_name k then to_datetime else id) (replace_empty c)).
Proof.
  intros H1 H2. unfold norm_col. rewrite H1, H2.
  by destruct (is_date_name k), (is_amount_name k).
Qed.

(** The three shapes of a normalised column. *)
Lemma norm_col_cases (k : string) (c : column) :
  (k = "ID" /\ norm_col k c = astype_str (replace_empty c)) \/
  (in_list k year_cols = true /\ norm_col k c = to_numeric (replace_empty c)) \/
  (String.eqb k "ID" = false /\ in_list k year_cols = false /\
   norm_col k c
   = (if is_amount_name k && negb (is_date_name k) then amount_clean k else id)
       ((if is_date_name k then to_datetime else id) (replace_empty c))).
Proof.
  destruct (String.eqb_spec k "ID") as [-> | Hid]; [left; by split |].
  destruct (in_list k year_cols) eqn:Hy.
  - right; left. split; [done |].
    apply in_list_spec in Hy. unfold year_cols in Hy.
    apply elem_of_cons in Hy as [-> | Hy]; [reflexivity |].
    apply elem_of_cons in Hy as [-> | Hy]; [reflexivity |].
    by apply elem_of_nil in Hy.
  - right; right. split; [done |]. split; [done |].
    apply norm_col_other; [by apply String.eqb_neq | done].
Qed.

Lemma no_empty_norm_col (k : string) (c : column) : no_empty (norm_col k c).
Proof.
  pose proof (no_empty_replace_empty c) as H0.
  destruct (norm_col_cases k c) as [[_ ->] | [[_ ->] | (_ & _ & ->)]].
  - by apply no_empty_astype_str.
  - apply no_empty_numeric, to_numeric_numeric.
  - assert (H1 : no_empty ((if is_date_name k then to_datetime else id)
                             (replace_empty c))).
    { destruct (is_date_name k); [| done]. by destruct (replace_empty c). }
    destruct (is_amount_name k && negb (is_date_name k)); [| done].
    by apply no_empty_amount_clean.
Qed.

Lemma norm_col_idem (k : string) (c : column) :
  norm_col k (norm_col k c) = norm_col k c.
Proof.
  pose proof (no_empty_norm_col k c) as Hne.
  destruct (norm_col_cases k c) as [[-> E] | [[Hy E] | (Hid & Hy & E)]].
  - rewrite (norm_col_ID (norm_col "ID" c)), (replace_empty_fix _ Hne), norm_col_ID.
    apply astype_str_idem.
  - destruct (norm_col_cases k (norm_col k c))
      as [[-> _] | [[_ ->] | (_ & Hy' & _)]]; [done | | congruence].
    rewrite (replace_empty_fix _ Hne), E.
    apply to_numeric_fix, to_numeric_numeric.
  - rewrite (norm_col_other k (norm_col k c)) by done.
    rewrite (replace_empty_fix _ Hne), E.
    destruct (is_date_name k), (is_amount_name k); simpl;
      rewrite ?to_datetime_idem, ?amount_clean_idem; reflexivity.
Qed.

End NormCol.

(** ** The whole normaliser in closed form *)

Lemma mapM_total {A B} (f : A -> option B) (g : A -> B) (l : list A) :
  (forall x, f x = Some (g x)) -> mapM f l = Some (g <$> l).
Proof.
  intros H. induction l as [| x l IH]; simpl; [done |].
  by rewrite H, IH.
Qed.

Lemma select_map_to_list (df m : gmap string column) :
  m ⊆ df -> select (map_to_list m).*1 df = (map_to_list m).*2.
Proof.
  intros Hsub. unfold select.
  assert (H : forall kc, kc ∈ map_to_list m -> df !! kc.1 = Some kc.2).
  { intros [k c] Hin. apply elem_of_map_to_list in Hin.
    by eapply lookup_weaken. }
  induction (map_to_list m) as [| [k c] l IH]; simpl; [done |].
  assert (Hk : df !! k = Some c) by (apply (H (k, c)), elem_of_cons; by left).
  rewrite Hk. simpl. f_equal.
  apply IH. intros kc Hin. apply H, elem_of_cons. by right.
Qed.

Lemma total_all_giving_numeric (n : nat) (cs : list column) :
  is_numeric (total_all_giving n cs) = true.
Proof.
  unfold total_all_giving, sum_axis1.
  destruct (forallb is_numeric cs).
  - by destruct (forallb is_int_col cs).
  - unfold sum_by_column.
    assert (H : forall cs0 acc, is_numeric acc = true ->
      is_numeric (foldl (fun total c => add_filled n total (to_numeric c)) acc cs0)
      = true).
    { induction cs0 as [| c cs0 IH]; simpl; [done |]. intros acc _.
      apply IH. unfold add_filled. by destruct (_ && _). }
    by apply H.
Qed.

Section Whole.

Context {dates : DateParser}.
Implicit Types (df : gmap string column).

Lemma before_decade_spec df k : before_decade df !! k = norm_col k <$> df !! k.
Proof. apply before_decade_lookup. Qed.

Lemma step_decade_numeric df yr :
  df !! "CL YR" = Some yr -> is_numeric yr = true ->
  step_decade df = Some (<["Decade" := decade_column yr]> df).
Proof.
  intros Hyr Hnum. unfold step_decade. rewrite Hyr.
  destruct yr as [l | l | l | l]; try discriminate; simpl;
    rewrite lookup_insert_eq; simpl.
  - rewrite (mapM_total _ (fun z => CStr (decade_fmt z))) by done. simpl.
    rewrite insert_insert_eq. do 3 f_equal.
    rewrite <- list_fmap_compose. by apply list_fmap_ext.
  - rewrite (mapM_total _ (fun o => CStr (from_option
               (fun q => decade_fmt (Qtrunc q)) "Unknown" o)))
      by (by intros [q |]).
    simpl. rewrite insert_insert_eq. do 3 f_equal.
    rewrite <- list_fmap_compose. apply list_fmap_ext.
    by intros i [q |] _.
Qed.

Lemma step_decade_before df :
  step_decade (before_decade df) = Some (with_decade (before_decade df)).
Proof.
  unfold with_decade.
  destruct (before_decade df !! "CL YR") as [yr |] eqn:E.
  - apply step_decade_numeric; [done |].
    rewrite before_decade_spec in E.
    destruct (df !! "CL YR") as [c |]; [| discriminate].
    injection E as <-. rewrite norm_col_CL_YR. apply to_numeric_numeric.
  - unfold step_decade. by rewrite E.
Qed.

Lemma with_decade_lookup_ne df k :
  k <> "Decade" -> with_decade df !! k = df !! k.
Proof.
  intros Hk. unfold with_decade.
  destruct (df !! "CL YR"); [| done]. by rewrite lookup_insert_ne.
Qed.

Lemma before_total_lookup_other df k :
  k <> "Decade" -> k <> "State" ->
  before_total df !! k = norm_col k <$> df !! k.
Proof.
  intros H1 H2. unfold before_total, step_state.
  rewrite lookup_alter_ne by done.
  by rewrite with_decade_lookup_ne, before_decade_spec.
Qed.

Lemma before_total_lookup_State df :
  before_total df !! "State"
  = (fun c => fillna_unknown (replace_empty c)) <$> df !! "State".
Proof.
  unfold before_total, step_state. rewrite lookup_alter_eq.
  rewrite with_decade_lookup_ne, before_decade_spec by done.
  by destruct (df !! "State").
Qed.

Lemma before_total_lookup_Decade df :
  before_total df !! "Decade"
  = match df !! "CL YR" with
    | Some yr => Some (decade_column (to_numeric (replace_empty yr)))
    | None => replace_empty <$> df !! "Decade"
    end.
Proof.
  unfold before_total, step_state. rewrite lookup_alter_ne by done.
  unfold with_decade. rewrite (before_decade_spec df "CL YR").
  destruct (df !! "CL YR") as [yr |]; simpl.
  - by rewrite lookup_insert_eq.
  - by rewrite before_decade_spec.
Qed.

Lemma before_total_is_Some df k :
  k <> "Decade" -> is_Some (before_total df !! k) <-> is_Some (df !! k).
Proof.
  intros Hk. destruct (decide (k = "State")) as [-> | Hs].
  - by rewrite before_total_lookup_State, fmap_is_Some.
  - by rewrite before_total_lookup_other, fmap_is_Some.
Qed.

End Whole.

Section Total.

Context {dates : DateParser}.
Implicit Types (df : gmap string column).

Lemma giving_filter (date_cols : list string) df :
  (forall k, is_Some (df !! k) -> in_list k date_cols = is_date_name k) ->
  filter (fun kc => is_giving date_cols kc.1 kc.2 = true) df
  = giving_amount_columns df.
Proof.
  intros Hdc. unfold giving_amount_columns. apply map_filter_ext.
  intros k c Hk. simpl. unfold is_giving.
  rewrite (Hdc k) by (by eexists).
  destruct (is_gift_name k), (is_date_name k), (is_datetime c); simpl;
    intuition congruence.
Qed.

Lemma step_total_eq (n : nat) (date_cols : list string) df :
  (forall k, is_Some (df !! k) -> in_list k date_cols = is_date_name k) ->
  step_total n date_cols df = with_total n df.
Proof.
  intros Hdc. unfold step_total, with_total, giving_cols.
  rewrite (giving_filter _ _ Hdc).
  case_decide as Hg.
  - rewrite Hg, map_to_list_empty. done.
  - destruct ((map_to_list (giving_amount_columns df)).*1)
      as [| name names] eqn:E.
    + apply fmap_nil_inv, map_to_list_empty_iff in E. contradiction.
    + rewrite <- E. unfold giving_values.
      rewrite select_map_to_list; [done |].
      unfold giving_amount_columns. apply map_filter_subseteq.
Qed.

Lemma clean_date_cols_spec df k :
  is_Some (before_total df !! k) ->
  in_list k (clean_date_cols df) = is_date_name k.
Proof.
  intros Hk. unfold clean_date_cols.
  apply (in_date_cols _ (before_total df)); [| done].
  intros Hd _.
  assert (Hne : k <> "Decade") by (intros ->; discriminate Hd).
  apply (proj1 (before_total_is_Some df k Hne)) in Hk.
  rewrite step_years_lookup, step_id_lookup, step_missing_lookup.
  by rewrite !fmap_is_Some.
Qed.

(** [clean_data] never raises, and its result has the closed form. *)
Lemma clean_table_eq (t : table) :
  clean_table t = Some (Table (nrows t) (normalised (nrows t) (cols t))).
Proof.
  unfold clean_table.
  change (step_amounts _ _) with (before_decade (cols t)).
  rewrite step_decade_before. simpl. do 2 f_equal.
  apply step_total_eq. intros k. apply clean_date_cols_spec.
Qed.

End Total.

(** ** The normaliser on the store *)

Section Store.

Context {dates : DateParser}.

(** [clean_data] allocates one new frame, holding the normalised table,
    and writes nowhere else. *)
Lemma clean_data_run (h : store) (df : loc) (t : table) :
  h !! df = Some t ->
  clean_data df h
  = (fun t' => (fresh (dom h), <[fresh (dom h) := t']> h)) <$> clean_table t.
Proof.
  intros Hdf. unfold clean_data, clean_table.
  unfold mbind, M_bind, mret, M_ret, copy, assign, read.
  unfold store, loc in *. rewrite Hdf. cbn [nrows cols].
  repeat (rewrite lookup_insert_eq; cbn [nrows cols]; rewrite ?insert_insert_eq).
  destruct (step_decade _) as [df6 |]; cbn; [| done].
  repeat (rewrite lookup_insert_eq; cbn [nrows cols]; rewrite ?insert_insert_eq).
  done.
Qed.

Lemma clean_data_unallocated (h : store) (df : loc) :
  h !! df = None -> clean_data df h = None.
Proof.
  intros Hdf. unfold clean_data, mbind, M_bind, copy. by rewrite Hdf.
Qed.

End Store.

(** ** Normalising twice *)

Section Idempotence.

Context {dates : DateParser}.
Implicit Types (df : gmap string column).

Lemma not_giving_Total (c : column) :
  ~ (is_gift_name "Total_All_Giving" = true /\
     is_date_name "Total_All_Giving" = false /\ is_datetime c = false).
Proof. intros [H _]. discriminate H. Qed.

Lemma giving_amount_columns_with_total n df :
  giving_amount_columns (with_total n df) = giving_amount_columns df.
Proof.
  unfold with_total. case_decide; [done |].
  unfold giving_amount_columns. apply map_filter_insert_not.
  intros c. apply not_giving_Total.
Qed.

Lemma with_total_idem n df : with_total n (with_total n df) = with_total n df.
Proof.
  unfold with_total at 1. unfold giving_values.
  rewrite giving_amount_columns_with_total.
  unfold with_total. case_decide; [done |].
  by rewrite insert_insert_eq.
Qed.

Lemma with_total_lookup_ne n df k :
  k <> "Total_All_Giving" -> with_total n df !! k = df !! k.
Proof.
  intros Hk. unfold with_total. case_decide; [done |].
  by rewrite lookup_insert_ne.
Qed.

Lemma with_total_lookup_Total n df :
  with_total n df !! "Total_All_Giving" = df !! "Total_All_Giving" \/
  exists c, with_total n df !! "Total_All_Giving" = Some c /\ is_numeric c = true.
Proof.
  unfold with_total. case_decide; [by left |]. right.
  rewrite lookup_insert_eq. eexists. split; [done |].
  apply total_all_giving_numeric.
Qed.

Lemma state_column_fix (c : column) :
  fillna_unknown (replace_empty (fillna_unknown (replace_empty c)))
  = fillna_unknown (replace_empty c).
Proof.
  rewrite (replace_empty_fix (fillna_unknown _)).
  - apply fillna_unknown_idem.
  - apply no_empty_fillna_unknown, no_empty_replace_empty.
Qed.

Lemma replace_empty_idem (c : column) :
  replace_empty (replace_empty c) = replace_empty c.
Proof. apply replace_empty_fix, no_empty_replace_empty. Qed.

Lemma before_total_normalised n df :
  before_total (normalised n df) = normalised n df.
Proof.
  apply map_eq. intros k. unfold normalised.
  destruct (decide (k = "Decade")) as [-> | HD].
  { rewrite before_total_lookup_Decade.
    rewrite !with_total_lookup_ne by done.
    rewrite before_total_lookup_Decade.
    rewrite (before_total_lookup_other df "CL YR") by done.
    destruct (df !! "CL YR") as [yr |]; simpl.
    - rewrite norm_col_CL_YR.
      rewrite (replace_empty_fix (to_numeric _))
        by apply no_empty_numeric, to_numeric_numeric.
      by rewrite (to_numeric_fix (to_numeric _)) by apply to_numeric_numeric.
    - destruct (df !! "Decade"); simpl; [| done].
      by rewrite replace_empty_idem. }
  destruct (decide (k = "State")) as [-> | HS].
  { rewrite before_total_lookup_State.
    rewrite with_total_lookup_ne by done.
    rewrite before_total_lookup_State.
    destruct (df !! "State"); simpl; [| done].
    by rewrite state_column_fix. }
  rewrite before_total_lookup_other by done.
  destruct (decide (k = "Total_All_Giving")) as [-> | HT].
  { destruct (with_total_lookup_Total n (before_total df))
      as [E | (c & E & Hc)]; rewrite E.
    - rewrite before_total_lookup_other by done.
      destruct (df !! "Total_All_Giving"); simpl; [| done].
      by rewrite norm_col_idem.
    - simpl. rewrite norm_col_Total.
      by rewrite replace_empty_fix by by apply no_empty_numeric. }
  rewrite with_total_lookup_ne by done.
  rewrite before_total_lookup_other by done.
  destruct (df !! k); simpl; [| done].
  by rewrite norm_col_idem.
Qed.

Lemma normalised_idem n df : normalised n (normalised n df) = normalised n df.
Proof.
  unfold normalised at 1. rewrite before_total_normalised.
  apply with_total_idem.
Qed.

End Idempotence.

(** C7: normalising a normalised table changes nothing.  [clean_data]
    always returns, and run again on the frame it returned it returns a
    frame with the same table: identifiers, years, dates, amounts, decade,
    state and total are all left as they are. *)
Theorem clean_data_idempotent `{dates : DateParser} :
  (forall t, exists t',
      clean_table t = Some t' /\ clean_table t' = Some t') /\
  (forall (h : store) (df : loc) (t : table), h !! df = Some t ->
     exists l1 h1 l2 h2 t',
       clean_data df h = Some (l1, h1) /\
       clean_data l1 h1 = Some (l2, h2) /\
       h1 !! l1 = Some t' /\ h2 !! l2 = Some t').
Proof.
  assert (Hidem : forall t, exists t',
             clean_table t = Some t' /\ clean_table t' = Some t').
  { intros t. eexists. split; [apply clean_table_eq |].
    rewrite clean_table_eq. simpl. by rewrite normalised_idem. }
  split; [exact Hidem |].
  intros h df t Hdf. destruct (Hidem t) as (t' & H1 & H2).
  pose proof (clean_data_run h df t Hdf) as R1. rewrite H1 in R1. simpl in R1.
  set (l1 := fresh (dom h)) in *. set (h1 := <[l1 := t']> h) in *.
  assert (Hl1 : h1 !! l1 = Some t') by apply lookup_insert_eq.
  pose proof (clean_data_run h1 l1 t' Hl1) as R2. rewrite H2 in R2. simpl in R2.
  eexists l1, h1, _, _, t'. split; [exact R1 |]. split; [exact R2 |].
  split; [exact Hl1 | apply lookup_insert_eq].
Qed.

(** C10: [clean_data] leaves the caller's table as it was.  It returns a
    location that was not in use, holding the normalised table; the frame
    it was given, and every other object of the store, is unchanged. *)
Theorem clean_data_preserves_argument `{dates : DateParser} :
  forall (h : store) (df : loc) (t : table), h !! df = Some t ->
    exists df_clean h',
      clean_data df h = Some (df_clean, h') /\
      df_clean <> df /\ h !! df_clean = None /\
      h' !! df = Some t /\
      (forall l, l <> df_clean -> h' !! l = h !! l) /\
      h' !! df_clean = clean_table t.
Proof.
  intros h df t Hdf.
  pose proof (clean_data_run h df t Hdf) as R.
  rewrite clean_table_eq in *. simpl in R. unfold store, loc in *.
  assert (Hfresh : h !! fresh (dom h) = None).
  { apply not_elem_of_dom, is_fresh. }
  eexists _, _. split; [exact R |].
  split; [intros E; rewrite E in Hfresh; congruence |].
  split; [exact Hfresh |].
  split; [rewrite lookup_insert_ne; [done | intros E; rewrite E in Hfresh; congruence] |].
  split; [intros l Hl; by rewrite lookup_insert_ne | apply lookup_insert_eq].
Qed.

(** ** Total giving *)


Lemma wrap64_id (z : Z) : in_int64 z = true -> wrap64 z = z.
Proof.
  unfold in_int64, wrap64. intros H. apply andb_prop in H as [H1 H2].
  apply Z.leb_le in H1. apply Z.ltb_lt in H2.
  rewrite Z.mod_small by lia. lia.
Qed.







Lemma prefix_app_l (s1 s2 s : string) :
  String.prefix (s1 +:+ s2) s = true -> String.prefix s1 s = true.
Proof.
  revert s. induction s1 as [| a r IH]; intros s; destruct s as [| b s']; simpl;
    try done.
  destruct (ascii_dec a b); [apply IH | done].
Qed.

Lemma contains_app_l (s1 s2 k : string) :
  PyStr.contains (s1 +:+ s2) k = true -> PyStr.contains s1 k = true.
Proof.
  induction k as [| a r IH]; cbn [PyStr.contains]; intros H.
  - apply orb_prop in H as [H | H]; [| done].
    by rewrite (prefix_app_l _ _ _ H).
  - apply orb_prop in H as [H | H].
    + by rewrite (prefix_app_l _ _ _ H).
    + rewrite (IH H). apply orb_true_r.
Qed.

Section TotalGiving.

Context {dates : DateParser}.
Implicit Types (df : gmap string column).






End TotalGiving.



(** ** Identifiers across sessions *)

(** A number that is integral is read as an [int], however it is written,
    and printed without a fraction. *)
Lemma read_cell_integral (z : Z) :
  read_cell (XlNumber (inject_Z z)) = CInt z /\
  py_str (read_cell (XlNumber (inject_Z z))) = pretty z.
Proof.
  assert (H : read_cell (XlNumber (inject_Z z)) = CInt z).
  { unfold read_cell. rewrite Qtrunc_inject_Z.
    by rewrite (proj2 (Qeq_bool_iff _ _) (Qeq_refl _)). }
  split; [exact H | by rewrite H].
Qed.


(** ** Currency parsing *)

Section Currency.

Context {dates : DateParser}.

(** An amount-named column that is not date-named has no other rule. *)
Lemma amount_name_plain (k : string) :
  is_amount_name k = true ->
  k <> "Decade" /\ k <> "State" /\ k <> "Total_All_Giving" /\
  String.eqb k "ID" = false /\ in_list k year_cols = false /\
  String.eqb k "WE Range" || String.eqb k "LT Giving" = false.
Proof.
  intros H.
  assert (Hc : forall k0, is_amount_name k0 = false -> k <> k0) by congruence.
  repeat split; try (apply Hc; reflexivity).
  - apply String.eqb_neq, Hc. reflexivity.
  - apply in_list_false. unfold year_cols.
    rewrite !not_elem_of_cons. repeat split; try (apply Hc; reflexivity).
    apply not_elem_of_nil.
  - apply orb_false_intro; apply String.eqb_neq, Hc; reflexivity.
Qed.

Lemma amount_column_parsed (t : table) (k : string) (l : list cell) :
  is_amount_name k = true -> is_date_name k = false ->
  cols t !! k = Some (ObjCol l) ->
  exists t',
    clean_table t = Some t' /\
    cols t' !! k
    = Some (to_numeric
              (ObjCol (map (fun x => currency_text (replace_empty_cell x)) l))).
Proof.
  intros Ha Hd Hk.
  destruct (amount_name_plain k Ha) as (H1 & H2 & H3 & H4 & H5 & H6).
  eexists. split; [apply clean_table_eq |]. cbn [cols nrows].
  unfold normalised. rewrite with_total_lookup_ne by done.
  rewrite before_total_lookup_other by done.
  rewrite Hk. cbn [fmap option_fmap option_map].
  rewrite norm_col_other by done. rewrite Ha, Hd.
  cbn [andb negb replace_empty amount_clean id]. rewrite H6.
  do 3 f_equal. rewrite <- list_fmap_compose. done.
Qed.

End Currency.

(** C8, as stated, fails: the name test is case-sensitive, so a text
    column named "gift amount" is not parsed. *)
Lemma lowercase_gift_not_parsed :
  PyStr.contains "gift" (PyStr.lower "gift amount") = true /\
  is_date_name "gift amount" = false /\
  exists t', clean_table (dates := no_dates) lowercase_gift_table = Some t' /\
             cols t' !! "gift amount" = Some (ObjCol [CStr "$12,345.67"]).
Proof.
  split; [reflexivity |]. split; [reflexivity |].
  eexists. split; vm_compute; reflexivity.
Qed.

(** C8 (amended): in every column of dtype object whose name contains
    "Gift" or "Ask" (in this spelling) and neither "Date" nor "date", each
    value is printed, stripped of "$" and ",", and read as a number, an
    unreadable value becoming missing: "$12,345.67" becomes 12345.67,
    "N/A" becomes missing (not zero) and the empty string becomes missing. *)
Theorem currency_parsing `{dates : DateParser} :
  (forall (t : table) (k : string) (l : list cell),
      is_amount_name k = true -> is_date_name k = false ->
      cols t !! k = Some (ObjCol l) ->
      exists t',
        clean_table t = Some t' /\
        cols t' !! k
        = Some (to_numeric
                  (ObjCol (map (fun x => currency_text (replace_empty_cell x)) l)))) /\
  ToNumeric.of_cell (currency_text (replace_empty_cell (CStr "$12,345.67")))
    = CFloat (1234567 # 100) /\
  ToNumeric.of_cell (currency_text (replace_empty_cell (CStr "N/A"))) = CMissing /\
  ToNumeric.of_cell (currency_text (replace_empty_cell (CStr ""))) = CMissing /\
  exists t',
    clean_table currency_table = Some t' /\
    cols t' !! "Last Gift Amount"
    = Some (FloatCol [Some (1234567 # 100)%Q; None; None]).
Proof.
  split; [apply amount_column_parsed |].
  split; [vm_compute; reflexivity |].
  split; [vm_compute; reflexivity |].
  split; [vm_compute; reflexivity |].
  destruct (amount_column_parsed currency_table "Last Gift Amount"
              [CStr "$12,345.67"; CStr "N/A"; CStr ""]) as (t' & H1 & H2);
    [reflexivity | reflexivity | reflexivity |].
  exists t'. split; [exact H1 |]. rewrite H2. vm_compute. reflexivity.
Qed.

(** The frame property on a store with one frame. *)
Lemma clean_data_preserves_argument_witness :
  exists df_clean h',
    clean_data (dates := no_dates) 1%positive {[ 1%positive := sheet_A ]}
    = Some (df_clean, h') /\
    df_clean <> 1%positive /\
    ({[ 1%positive := sheet_A ]} : store) !! df_clean = None /\
    h' !! 1%positive = Some sheet_A /\
    (forall l, l <> df_clean ->
               h' !! l = ({[ 1%positive := sheet_A ]} : store) !! l) /\
    h' !! df_clean = clean_table (dates := no_dates) sheet_A.
Proof.
  apply (clean_data_preserves_argument (dates := no_dates)
           {[ 1%positive := sheet_A ]} 1%positive sheet_A).
  reflexivity.
Defined.

(** * Properties of the further helpers *)

(** ** Giving levels and engagement levels *)

Lemma Qltb_spec (a b : Q) : reflect (a < b)%Q (Qltb a b).
Proof.
  unfold Qltb. destruct (Qle_bool b a) eqn:E; constructor.
  - apply Qle_bool_iff in E. by apply Qle_not_lt.
  - apply Qnot_le_lt. intros H. apply Qle_bool_iff in H. congruence.
Qed.

Lemma Qle_bool_spec (a b : Q) : reflect (a <= b)%Q (Qle_bool a b).
Proof.
  destruct (Qle_bool a b) eqn:E; constructor.
  - by apply Qle_bool_iff.
  - intros H. apply Qle_bool_iff in H. congruence.
Qed.

Lemma Qeq_bool_spec (a b : Q) : reflect (a == b)%Q (Qeq_bool a b).
Proof.
  destruct (Qeq_bool a b) eqn:E; constructor.
  - by apply Qeq_bool_iff.
  - intros H. apply Qeq_bool_iff in H. congruence.
Qed.

Ltac q_cases :=
  repeat match goal with
         | |- context [Qltb ?a ?b] => destruct (Qltb_spec a b)
         | |- context [Qle_bool ?a ?b] => destruct (Qle_bool_spec a b)
         | |- context [Qeq_bool ?a ?b] => destruct (Qeq_bool_spec a b)
         end.

(** X1: [categorize_giving_level] puts every number into one of the seven
    levels and raises on text; "Non-Donor" is exactly a missing or zero
    amount, a negative amount is reported as "<$100", and among positive
    amounts a larger amount never gets a lower level. *)
Theorem giving_level_properties :
  (forall amount l, categorize_giving_level amount = Some l -> l ∈ giving_levels) /\
  (forall amount, categorize_giving_level amount = Some "Non-Donor" <->
                  amount = CMissing \/
                  exists a, cell_float amount = Some a /\ (a == 0)%Q) /\
  (forall a, (a < 0)%Q -> categorize_giving_level (CFloat a) = Some "<$100") /\
  (forall a b la lb,
      categorize_giving_level (CFloat a) = Some la ->
      categorize_giving_level (CFloat b) = Some lb ->
      (0 < a)%Q -> (a <= b)%Q ->
      (label_rank giving_levels la <= label_rank giving_levels lb)%nat) /\
  (forall s, categorize_giving_level (CStr s) = None) /\
  (forall t, categorize_giving_level (CDate t) = None).
Proof.
  split; [| split; [| split; [| split; [| split]]]].
  - intros amount l. unfold categorize_giving_level.
    destruct (isna amount); [intros [= <-]; compute_done |].
    destruct (cell_float amount) as [a |]; [| discriminate].
    intros [= <-]. q_cases; compute_done.
  - intros amount. unfold categorize_giving_level. split.
    + destruct amount as [| z | q | s | t]; simpl; try discriminate.
      * by left.
      * intros H. right. eexists. split; [done |].
        revert H. q_cases; intros H; try discriminate H; assumption.
      * intros H. right. eexists. split; [done |].
        revert H. q_cases; intros H; try discriminate H; assumption.
    + intros [-> | (a & Ha & H0)]; [done |].
      destruct amount as [| z | q | s | t]; simpl in *; try discriminate;
        injection Ha as <-; q_cases; done.
  - intros a Ha. unfold categorize_giving_level. simpl.
    q_cases; try done; try lra.
  - intros a b la lb. unfold categorize_giving_level. simpl.
    intros [= <-] [= <-] H0 Hab.
    q_cases; try lra; compute; lia.
  - done.
  - done.
Qed.

(** X2: [categorize_engagement] answers "Unknown" only for a missing score
    and raises on text; a larger score never gets a lower level, a score
    below 0 counts as "Low (0-25)" and one above 100 as "High (76-100)". *)
Theorem engagement_level_properties :
  (forall score, categorize_engagement score = Some "Unknown" <-> score = CMissing) /\
  (forall x l, categorize_engagement (CFloat x) = Some l -> l ∈ engagement_levels) /\
  (forall a b la lb,
      categorize_engagement (CFloat a) = Some la ->
      categorize_engagement (CFloat b) = Some lb ->
      (a <= b)%Q ->
      (label_rank engagement_levels la <= label_rank engagement_levels lb)%nat) /\
  (forall x, (x < 0)%Q -> categorize_engagement (CFloat x) = Some "Low (0-25)") /\
  (forall x, (100 < x)%Q -> categorize_engagement (CFloat x) = Some "High (76-100)") /\
  (forall s, categorize_engagement (CStr s) = None).
Proof.
  split; [| split; [| split; [| split; [| split]]]].
  - intros score. unfold categorize_engagement. split.
    + destruct score as [| z | q | s | t]; simpl; try done;
        q_cases; intros H; discriminate H.
    + by intros ->.
  - intros x l. unfold categorize_engagement. simpl. intros [= <-].
    q_cases; compute_done.
  - intros a b la lb. unfold categorize_engagement. simpl.
    intros [= <-] [= <-] Hab. q_cases; try lra; compute; lia.
  - intros x Hx. unfold categorize_engagement. simpl. q_cases; try done; lra.
  - intros x Hx. unfold categorize_engagement. simpl. q_cases; try done; lra.
  - done.
Qed.

(** ** Decade labels, sort order and generations *)

Lemma mid_decade_labels (z : Z) :
  1950 <= z < 2020 ->
  decade_fmt (z / 10 * 10)
    ∈ ["1950s"; "1960s"; "1970s"; "1980s"; "1990s"; "2000s"; "2010s"].
Proof.
  intros Hz.
  assert (H : z / 10 = 195 \/ z / 10 = 196 \/ z / 10 = 197 \/ z / 10 = 198 \/
              z / 10 = 199 \/ z / 10 = 200 \/ z / 10 = 201).
  { pose proof (Z.div_mod z 10 ltac:(lia)) as Hd.
    pose proof (Z.mod_pos_bound z 10 ltac:(lia)) as Hm. lia. }
  destruct H as [-> | [-> | [-> | [-> | [-> | [-> | ->]]]]]]; compute_done.
Qed.

(** The labels of the bucket rule. *)
Lemma bucket_labels (z : Z) :
  (if z <? 1950 then "Pre-1950s"
   else if 2020 <=? z then "2020s" else decade_fmt (z / 10 * 10))
  ∈ decade_order.
Proof.
  destruct (Z.ltb_spec z 1950); [compute_done |].
  destruct (Z.leb_spec 2020 z); [compute_done |].
  assert (Hz : 1950 <= z < 2020) by lia. apply mid_decade_labels in Hz.
  repeat (apply elem_of_cons in Hz as [-> | Hz]; [compute_done |]).
  by apply elem_of_nil in Hz.
Qed.

Lemma digit_val_range (a : ascii) :
  PyStr.is_digit a = true -> 0 <= PyStr.digit_val a <= 9.
Proof.
  unfold PyStr.is_digit, PyStr.digit_val. intros H.
  apply andb_prop in H as [H1 H2]. apply N.leb_le in H1, H2. lia.
Qed.

(** The number of a string of two digits. *)
Lemma two_digit_value (s : string) :
  PyStr.isdigit s = true -> String.length s = 2%nat ->
  0 <= PyStr.digits_value 0 s < 100.
Proof.
  destruct s as [| a [| b [| c r]]]; try discriminate. intros H _.
  simpl in H. apply andb_prop in H as [Ha H]. apply andb_prop in H as [Hb _].
  apply digit_val_range in Ha, Hb. simpl. lia.
Qed.

(** The labels of the two-digit branch. *)
Lemma two_digit_labels (d : Z) :
  0 <= d < 100 ->
  decade_fmt ((if 50 <=? d then 1900 else 2000) + d / 10 * 10)
    ∈ decade_order ++ ["2030s"; "2040s"].
Proof.
  intros Hd.
  assert (H : d / 10 = 0 \/ d / 10 = 1 \/ d / 10 = 2 \/ d / 10 = 3 \/ d / 10 = 4 \/
              d / 10 = 5 \/ d / 10 = 6 \/ d / 10 = 7 \/ d / 10 = 8 \/ d / 10 = 9).
  { pose proof (Z.div_mod d 10 ltac:(lia)) as Hq.
    pose proof (Z.mod_pos_bound d 10 ltac:(lia)) as Hm. lia. }
  destruct (Z.leb_spec 50 d) as [H50 | H50];
    destruct H as [E | [E | [E | [E | [E | [E | [E | [E | [E | E]]]]]]]]];
    rewrite E; try compute_done; exfalso;
    pose proof (Z.div_mod d 10 ltac:(lia)) as Hq;
    pose proof (Z.mod_pos_bound d 10 ltac:(lia)) as Hm; lia.
Qed.

(** A value that is not text [int] rejects gets a label of the bucket
    rule. *)
Lemma get_decade_read (year : cell) :
  (forall s, year = CStr s -> PyStr.int_of_str s <> None) ->
  get_decade year ∈ decade_order.
Proof.
  intros Hread.
  destruct year as [| z | q | s | t]; unfold get_decade;
    cbn [isna py_int py_str].
  - compute_done.
  - apply bucket_labels.
  - apply bucket_labels.
  - destruct (PyStr.int_of_str s) as [z |] eqn:E; [apply bucket_labels |].
    by destruct (Hread s eq_refl).
  - rewrite timestamp_str_not_digits. compute_done.
Qed.

Lemma get_decade_labels (year : cell) :
  get_decade year ∈ decade_order ++ ["2030s"; "2040s"].
Proof.
  assert (Hother : (forall s, year <> CStr s) ->
                   get_decade year ∈ decade_order ++ ["2030s"; "2040s"]).
  { intros Hn. apply elem_of_app; left. apply get_decade_read.
    intros s0 Hs. by destruct (Hn s0). }
  destruct year as [| z | q | s | t]; try (apply Hother; discriminate).
  clear Hother. destruct (PyStr.int_of_str s) as [z |] eqn:E.
  - apply elem_of_app; left. apply get_decade_read. intros s0 [= <-]. congruence.
  - rewrite (get_decade_fallback s E). cbv zeta. rewrite <- bucket_of_int.
    destruct (PyStr.isdigit (PyStr.strip s)) eqn:Ed; cbn [andb];
      [| compute_done].
    destruct (String.length (PyStr.strip s) =? 4)%nat;
      [apply elem_of_app; left; apply bucket_labels |].
    destruct (String.length (PyStr.strip s) =? 2)%nat eqn:E2; [| compute_done].
    apply two_digit_labels, two_digit_value; [exact Ed |].
    by apply Nat.eqb_eq.
Qed.

Lemma decade_order_labels (l : string) :
  l ∈ decade_order ->
  (decade_sort_key l < 10)%nat /\ l ∈ generation_map.*1 /\
  (l <> "Pre-1950s" -> dict_get generation_map l "Unknown" ∈ generation_order).
Proof.
  intros H. unfold decade_order in H.
  repeat (apply elem_of_cons in H as [-> | H];
          [split; [compute; lia | split; [compute_done |]];
           first [ by intros Hne | intros _; compute_done ] |]).
  by apply elem_of_nil in H.
Qed.

(** X3: for a missing year, a number, a timestamp and text that [int]
    reads, the label of [get_decade] is one of the ten labels of
    [decade_order], so the chronological sort does not use the key 999 for
    it, and a key of [generation_map].  For ASCII text that [int] rejects
    the string fallback adds two labels only, "2030s" and "2040s", as for
    the text of 35 after the separator U+001C; such a label sorts with the
    key 999 and counts as generation "Unknown".  The generation of a year
    is in [generation_order] unless the year is before 1950, whose
    generation "Senior Alumni (pre-1950s)" is missing from that list. *)
Theorem decade_labels_are_ordered :
  (forall year,
     (forall s, year = CStr s -> PyStr.int_of_str s <> None) ->
     get_decade year ∈ decade_order /\
     (decade_sort_key (get_decade year) < 10)%nat /\
     get_decade year ∈ generation_map.*1) /\
  (forall year, ascii_cell year ->
     get_decade year ∈ decade_order ++ ["2030s"; "2040s"]) /\
  (get_decade (CStr separated_35) = "2030s" /\ ("2030s" ∉ decade_order) /\
   decade_sort_key "2030s" = 999%nat /\ decade_sort_key "2040s" = 999%nat /\
   generation_of (CStr separated_35) = "Unknown") /\
  (forall year, ascii_cell year -> get_decade year <> "Pre-1950s" ->
                generation_of year ∈ generation_order) /\
  (forall year, get_decade year = "Pre-1950s" ->
                generation_of year = "Senior Alumni (pre-1950s)" /\
                generation_of year ∉ generation_order).
Proof.
  split; [| split; [| split; [| split]]].
  - intros year Hread. pose proof (get_decade_read year Hread) as H.
    split; [exact H |]. by destruct (decade_order_labels _ H) as (? & ? & _).
  - intros year _. apply get_decade_labels.
  - repeat split; try reflexivity. compute_done.
  - intros year _ Hne. unfold generation_of.
    pose proof (get_decade_labels year) as H.
    apply elem_of_app in H as [H | H].
    + by apply decade_order_labels.
    + repeat (apply elem_of_cons in H as [-> | H]; [compute_done |]).
      by apply elem_of_nil in H.
  - intros year Heq. unfold generation_of. rewrite Heq.
    split; [reflexivity | compute_done].
Qed.

(** ** Greek organisations *)

(** X4: [categorize_greek_org] decides by the words "sorority" and
    "fraternity" alone ("sorority" first); the keyword lists of Greek
    letters never change the answer, so an organisation named by Greek
    letters only is "Unknown Greek". *)
Theorem greek_org_by_word :
  (forall name,
      categorize_greek_org (CStr name)
      = Some (if String.eqb name "Non-Greek" then "Non-Greek"
              else if PyStr.contains "sorority" (PyStr.lower name) then "Sorority"
              else if PyStr.contains "fraternity" (PyStr.lower name) then "Fraternity"
              else "Unknown Greek")) /\
  (forall name,
      PyStr.contains "sorority" (PyStr.lower name) = false ->
      PyStr.contains "fraternity" (PyStr.lower name) = false ->
      name <> "Non-Greek" ->
      categorize_greek_org (CStr name) = Some "Unknown Greek") /\
  any_in sorority_keywords (PyStr.lower "Kappa Alpha Theta") = true /\
  categorize_greek_org (CStr "Kappa Alpha Theta") = Some "Unknown Greek" /\
  categorize_greek_org CMissing = Some "Non-Greek" /\
  (forall z, categorize_greek_org (CInt z) = None).
Proof.
  assert (H1 : forall name,
      categorize_greek_org (CStr name)
      = Some (if String.eqb name "Non-Greek" then "Non-Greek"
              else if PyStr.contains "sorority" (PyStr.lower name) then "Sorority"
              else if PyStr.contains "fraternity" (PyStr.lower name) then "Fraternity"
              else "Unknown Greek")).
  { intros name. unfold categorize_greek_org.
    destruct (String.eqb name "Non-Greek"); [done |].
    destruct (PyStr.contains "sorority" (PyStr.lower name)); [done |].
    destruct (PyStr.contains "fraternity" (PyStr.lower name)); [done |].
    by rewrite !andb_false_r. }
  split; [exact H1 |]. split.
  { intros name Hs Hf Hn. rewrite H1, Hs, Hf.
    by destruct (String.eqb_spec name "Non-Greek"). }
  repeat split; vm_compute; reflexivity.
Qed.

(** ** Regions *)

Lemma first_region_Some table s r :
  first_region table s = Some r ->
  exists states, (r, states) ∈ table /\ s ∈ states.
Proof.
  induction table as [| [region states] rest IH]; simpl; [discriminate |].
  destruct (in_list s states) eqn:E.
  - intros [= <-]. exists states. split; [apply elem_of_cons; by left |].
    by apply in_list_spec.
  - intros H. destruct (IH H) as (sts & Hin & Hs).
    exists sts. split; [apply elem_of_cons; by right | done].
Qed.

Lemma first_region_None table s :
  first_region table s = None <->
  forall r states, (r, states) ∈ table -> s ∉ states.
Proof.
  induction table as [| [region states] rest IH]; simpl.
  - split; [| done]. intros _ r states H. by apply elem_of_nil in H.
  - destruct (in_list s states) eqn:E.
    + split; [discriminate |]. intros H. exfalso.
      apply (H region states); [apply elem_of_cons; by left |].
      by apply in_list_spec.
    + rewrite IH. split.
      * intros H r sts Hin. apply elem_of_cons in Hin as [[= -> ->] | Hin].
        -- by apply in_list_false.
        -- by eapply H.
      * intros H r sts Hin. apply (H r sts), elem_of_cons. by right.
Qed.

(** X5: [get_region] sends every state code of the table to the region
    that lists it (no code is listed twice, so the order of the regions
    does not matter); the answer is "Other" exactly for a text other than
    "Unknown" that no region lists, codes in lower case included; the
    table has 51 codes. *)
Theorem region_of_state :
  (forall region states s,
      (region, states) ∈ regions -> s ∈ states -> get_region (CStr s) = region) /\
  (forall s, get_region (CStr s) = "Other" <->
             s <> "Unknown" /\
             forall region states, (region, states) ∈ regions -> s ∉ states) /\
  NoDup (concat regions.*2) /\
  length (concat regions.*2) = 51%nat /\
  get_region (CStr "ny") = "Other" /\
  get_region CMissing = "Unknown" /\
  get_region (CStr "Unknown") = "Unknown".
Proof.
  split; [| split; [| repeat split; try reflexivity; compute_done]].
  - intros region states s Hr Hs. unfold regions in Hr.
    repeat (apply elem_of_cons in Hr as [Hr | Hr];
            [injection Hr as -> ->;
             repeat (apply elem_of_cons in Hs as [-> | Hs]; [reflexivity |]);
             by apply elem_of_nil in Hs |]).
    by apply elem_of_nil in Hr.
  - intros s. unfold get_region.
    destruct (String.eqb_spec s "Unknown") as [-> | Hne].
    + split; [discriminate | by intros [H _]].
    + destruct (first_region regions s) as [r |] eqn:E; simpl.
      * split.
        -- intros ->. apply first_region_Some in E as (sts & Hin & _).
           unfold regions in Hin.
           repeat (apply elem_of_cons in Hin as [Hin | Hin]; [discriminate Hin |]).
           by apply elem_of_nil in Hin.
        -- intros [_ H]. apply first_region_Some in E as (sts & Hin & Hs).
           by apply H in Hin.
      * split; [| done]. intros _. split; [done |].
        by apply first_region_None.
Qed.

(** ** Majors *)

Lemma is_space_upper_char (a : ascii) :
  PyStr.is_space (PyStr.upper_char a) = PyStr.is_space a.
Proof. destruct a as [[] [] [] [] [] [] [] []]; reflexivity. Qed.

Lemma upper_char_idem (a : ascii) :
  PyStr.upper_char (PyStr.upper_char a) = PyStr.upper_char a.
Proof. destruct a as [[] [] [] [] [] [] [] []]; reflexivity. Qed.

Lemma upper_idem (s : string) : PyStr.upper (PyStr.upper s) = PyStr.upper s.
Proof.
  unfold PyStr.upper. induction s as [| a r IH]; simpl; [done |].
  by rewrite upper_char_idem, IH.
Qed.

Lemma lstrip_upper (s : string) :
  PyStr.lstrip (PyStr.upper s) = PyStr.upper (PyStr.lstrip s).
Proof.
  unfold PyStr.upper. induction s as [| a r IH]; simpl; [done |].
  rewrite is_space_upper_char. by destruct (PyStr.is_space a).
Qed.

Lemma rstrip_upper (s : string) :
  PyStr.rstrip (PyStr.upper s) = PyStr.upper (PyStr.rstrip s).
Proof.
  unfold PyStr.upper. induction s as [| a r IH]; simpl; [done |].
  rewrite IH, is_space_upper_char.
  destruct (PyStr.rstrip r); simpl; [by destruct (PyStr.is_space a) | done].
Qed.

Lemma rstrip_idem (s : string) : PyStr.rstrip (PyStr.rstrip s) = PyStr.rstrip s.
Proof.
  induction s as [| a r IH]; simpl; [done |].
  destruct (PyStr.rstrip r) as [| b r'] eqn:E.
  - destruct (PyStr.is_space a) eqn:Ea; simpl; [done | by rewrite Ea].
  - change (PyStr.rstrip (String a (String b r')) = String a (String b r')).
    simpl in IH. simpl. by rewrite IH.
Qed.

Lemma lstrip_no_leading (s : string) : no_leading_space (PyStr.lstrip s).
Proof.
  induction s as [| a r IH]; simpl; [done |].
  by destruct (PyStr.is_space a) eqn:E.
Qed.

Lemma lstrip_fix (s : string) : no_leading_space s -> PyStr.lstrip s = s.
Proof. destruct s as [| a r]; simpl; [done |]. by intros ->. Qed.

Lemma rstrip_no_leading (s : string) :
  no_leading_space s -> no_leading_space (PyStr.rstrip s).
Proof.
  destruct s as [| a r]; simpl; [done |]. intros Ha.
  destruct (PyStr.rstrip r); [by rewrite Ha | done].
Qed.

Lemma strip_idem (s : string) : PyStr.strip (PyStr.strip s) = PyStr.strip s.
Proof.
  unfold PyStr.strip.
  rewrite (lstrip_fix (PyStr.rstrip (PyStr.lstrip s))).
  - apply rstrip_idem.
  - apply rstrip_no_leading, lstrip_no_leading.
Qed.

Lemma strip_upper (s : string) :
  PyStr.strip (PyStr.upper s) = PyStr.upper (PyStr.strip s).
Proof. unfold PyStr.strip. by rewrite lstrip_upper, rstrip_upper. Qed.

Lemma upper_strip_fix (s : string) :
  PyStr.upper (PyStr.strip (PyStr.upper (PyStr.strip s)))
  = PyStr.upper (PyStr.strip s).
Proof. by rewrite strip_upper, strip_idem, upper_idem. Qed.

(** The values [first_variation] can return, with the case that decides. *)
Lemma first_variation_cases (m : string) :
  (first_variation variations m = None /\ PyStr.contains "BUS" m = false) \/
  (exists v, first_variation variations m = Some v /\
             v ∈ ["COMPUTER SCIENCE"; "BIOLOGY"; "PSYCHOLOGY"; "COMMUNICATIONS";
                  "ECONOMICS"; "ENGLISH"; "BUSINESS"]).
Proof.
  unfold variations. cbn [first_variation].
  destruct (PyStr.contains "COMP SCI" m); [right; eexists; split; [done | compute_done] |].
  destruct (PyStr.contains "BIO" m); [right; eexists; split; [done | compute_done] |].
  destruct (PyStr.contains "PSYCH" m); [right; eexists; split; [done | compute_done] |].
  destruct (PyStr.contains "COMM" m); [right; eexists; split; [done | compute_done] |].
  destruct (PyStr.contains "ECON" m); [right; eexists; split; [done | compute_done] |].
  destruct (PyStr.contains "ENG" m); [right; eexists; split; [done | compute_done] |].
  destruct (PyStr.contains "BUS" m) eqn:E; [right; eexists; split; [done | compute_done] |].
  destruct (PyStr.contains "BUS ADMIN" m) eqn:E2; [| by left].
  apply (contains_app_l "BUS" " ADMIN") in E2. congruence.
Qed.

(** X6: [standardize_major] never answers "BUSINESS ADMINISTRATION" (the
    "BUS" entry of the table always wins over "BUS ADMIN"), sends every
    major whose name contains "ENG", engineering included, to one of the
    first six replacements, and is idempotent on every value that is not
    missing; a missing major becomes "Unknown", which a second pass turns
    into "UNKNOWN". *)
Theorem standardize_major_properties :
  (forall major, standardize_major major <> "BUSINESS ADMINISTRATION") /\
  (forall major, major <> CMissing ->
     standardize_major (CStr (standardize_major major)) = standardize_major major) /\
  (forall major, major <> CMissing ->
     PyStr.contains "ENG" (PyStr.upper (PyStr.strip (py_str major))) = true ->
     standardize_major major
       ∈ ["COMPUTER SCIENCE"; "BIOLOGY"; "PSYCHOLOGY"; "COMMUNICATIONS";
          "ECONOMICS"; "ENGLISH"]) /\
  standardize_major CMissing = "Unknown" /\
  standardize_major (CStr (standardize_major CMissing)) = "UNKNOWN" /\
  standardize_major (CStr " Mechanical Engineering ") = "ENGLISH".
Proof.
  split; [| split; [| split; [| repeat split; vm_compute; reflexivity]]].
  - intros major. unfold standardize_major.
    destruct (isna major); [discriminate |]. cbv zeta.
    set (m := PyStr.upper (PyStr.strip (py_str major))).
    destruct (first_variation_cases m) as [[-> Hb] | (v & -> & Hv)]; simpl.
    + intros Heq. rewrite Heq in Hb. vm_compute in Hb. discriminate.
    + intros ->. revert Hv. compute_done.
  - intros major Hm. unfold standardize_major at 2 3.
    assert (Hna : isna major = false) by (by destruct major).
    rewrite Hna. cbv zeta. set (m := PyStr.upper (PyStr.strip (py_str major))).
    destruct (first_variation_cases m) as [[E Hb] | (v & E & Hv)]; rewrite E; simpl.
    + unfold standardize_major. cbn [isna py_str]. cbv zeta. subst m.
      rewrite upper_strip_fix. by rewrite E.
    + repeat (apply elem_of_cons in Hv as [-> | Hv]; [vm_compute; reflexivity |]).
      by apply elem_of_nil in Hv.
  - intros major Hm He. unfold standardize_major.
    assert (Hna : isna major = false) by (by destruct major).
    rewrite Hna. cbv zeta. revert He.
    set (m := PyStr.upper (PyStr.strip (py_str major))). intros He.
    unfold variations. cbn [first_variation].
    destruct (PyStr.contains "COMP SCI" m); [compute_done |].
    destruct (PyStr.contains "BIO" m); [compute_done |].
    destruct (PyStr.contains "PSYCH" m); [compute_done |].
    destruct (PyStr.contains "COMM" m); [compute_done |].
    destruct (PyStr.contains "ECON" m); [compute_done |].
    rewrite He. compute_done.
Qed.

(** ** Cross-session attendance *)

Lemma sum_list_cons (x : nat) (l : list nat) :
  sum_list (x :: l) = (x + sum_list l)%nat.
Proof. reflexivity. Qed.

Lemma size_union_list_le (l : list (gset string)) :
  (size (⋃ l) <= sum_list (size <$> l))%nat.
Proof.
  induction l as [| s l IH].
  - change (⋃ []) with (∅ : gset string). by rewrite size_empty.
  - change (⋃ (s :: l)) with (s ∪ ⋃ l). rewrite fmap_cons, size_union_alt.
    assert (size (⋃ l ∖ s) <= size (⋃ l))%nat.
    { apply subseteq_size. intros x Hx. by apply elem_of_difference in Hx as [? _]. }
    rewrite sum_list_cons. apply Nat.add_le_mono_l. etrans; [exact H | exact IH].
Qed.

Lemma sum_list_indicator (s : gset string) (xs : list string) :
  sum_list ((fun a => if decide (a ∈ s) then 1%nat else 0%nat) <$> xs)
  = length (filter (fun a => a ∈ s) xs).
Proof.
  induction xs as [| x xs IH]; [done |].
  rewrite fmap_cons, sum_list_cons, filter_cons, IH. by case_decide.
Qed.

Lemma indicator_sum_size (s X : gset string) :
  s ⊆ X ->
  sum_list ((fun a => if decide (a ∈ s) then 1%nat else 0%nat) <$> elements X)
  = size s.
Proof.
  intros Hsub. rewrite sum_list_indicator. unfold size, set_size. simpl.
  apply Permutation_length. apply NoDup_Permutation.
  - apply NoDup_filter, NoDup_elements.
  - apply NoDup_elements.
  - intros x. rewrite list_elem_of_filter, !elem_of_elements.
    split; [by intros [? _] | intros Hx; split; [done | by apply Hsub]].
Qed.

Lemma sum_list_fmap_add {A} (f g : A -> nat) (xs : list A) :
  sum_list ((fun a => (f a + g a)%nat) <$> xs)
  = (sum_list (f <$> xs) + sum_list (g <$> xs))%nat.
Proof.
  induction xs as [| x xs IH]; [done |].
  rewrite !fmap_cons, !sum_list_cons, IH. lia.
Qed.

(** Counting the pairs (attendee, session) by attendee or by session. *)
Lemma double_counting (l : list (string * gset string)) (X : gset string) :
  (forall ks, ks ∈ l -> ks.2 ⊆ X) ->
  sum_list ((fun a => length (filter (fun ks : string * gset string => a ∈ ks.2) l))
              <$> elements X)
  = sum_list (size <$> l.*2).
Proof.
  induction l as [| ks l IH]; intros Hsub.
  - induction (elements X) as [| x xs IHx]; [done |].
    rewrite fmap_cons, sum_list_cons, IHx. done.
  - rewrite !fmap_cons, sum_list_cons. rewrite <- IH by (intros ks' H'; apply Hsub, elem_of_cons; by right).
    rewrite <- (indicator_sum_size ks.2 X) by (apply Hsub, elem_of_cons; by left).
    rewrite <- sum_list_fmap_add. f_equal. apply list_fmap_ext.
    intros i a _. rewrite filter_cons. by case_decide.
Qed.

Lemma sum_list_all_one {A} (f : A -> nat) (xs : list A) :
  (forall x, x ∈ xs -> (1 <= f x)%nat) ->
  sum_list (f <$> xs) = length xs <-> forall x, x ∈ xs -> f x = 1%nat.
Proof.
  induction xs as [| x xs IH]; intros Hge.
  - split; [| done]. intros _ y Hy. by apply elem_of_nil in Hy.
  - rewrite fmap_cons, sum_list_cons. cbn [length].
    assert (Hx : (1 <= f x)%nat) by (apply Hge, elem_of_cons; by left).
    assert (Hxs : forall y, y ∈ xs -> (1 <= f y)%nat)
      by (intros y Hy; apply Hge, elem_of_cons; by right).
    assert (Hlen : (length xs <= sum_list (f <$> xs))%nat).
    { clear -Hxs. induction xs as [| y ys IHy]; [simpl; lia |].
      rewrite fmap_cons, sum_list_cons. cbn [length].
      assert (1 <= f y)%nat by (apply Hxs, elem_of_cons; by left).
      assert (length ys <= sum_list (f <$> ys))%nat
        by (apply IHy; intros z Hz; apply Hxs, elem_of_cons; by right).
      lia. }
    specialize (IH Hxs). split.
    + intros H y Hy. apply elem_of_cons in Hy as [-> | Hy]; [lia |].
      apply IH; [lia | done].
    + intros H.
      rewrite (H x) by (apply elem_of_cons; by left).
      f_equal. apply IH. intros y Hy. apply H, elem_of_cons. by right.
Qed.

Lemma attendance_count_pos (sets : gmap string (gset string)) (a : string) :
  a ∈ total_unique sets <-> (1 <= attendance_count sets a)%nat.
Proof.
  unfold total_unique, attendance_count. rewrite elem_of_union_list. split.
  - intros (s & Hs & Ha). apply list_elem_of_fmap in Hs as [[k s'] [-> Hks]].
    assert (Hin : (k, s') ∈ filter (fun ks : string * gset string => a ∈ ks.2)
                               (map_to_list sets)).
    { apply list_elem_of_filter. by split. }
    destruct (filter _ (map_to_list sets)); [by apply elem_of_nil in Hin |].
    simpl. lia.
  - intros H.
    destruct (filter (fun ks : string * gset string => a ∈ ks.2) (map_to_list sets))
      as [| [k s] rest] eqn:E; [simpl in H; lia |].
    assert (Hin : (k, s) ∈ filter (fun ks : string * gset string => a ∈ ks.2)
                              (map_to_list sets)).
    { rewrite E. apply elem_of_cons. by left. }
    apply list_elem_of_filter in Hin as [Ha Hks].
    exists s. split; [| done]. apply list_elem_of_fmap. by exists (k, s).
Qed.

(** X7: in [attendance_overlap_analysis], counting attendances by
    attendee or by session gives the same total; the number shown as
    "Multi-Session Attendees" is never negative, and it is zero exactly
    when every attendee is in the set of one session only; every attendee
    counted is in at least one and at most all of the sessions. *)
Theorem attendance_double_counting (sets : gmap string (gset string)) :
  sum_list (attendance_count sets <$> elements (total_unique sets))
    = total_attendees sets /\
  0 <= multi_session_attendees sets /\
  (multi_session_attendees sets = 0 <->
   forall a, a ∈ total_unique sets -> attendance_count sets a = 1%nat) /\
  (forall a, a ∈ total_unique sets ->
             (1 <= attendance_count sets a <= size sets)%nat) /\
  (forall a, a ∉ total_unique sets -> attendance_count sets a = 0%nat) /\
  (0 <= repeat_percentage sets)%Q.
Proof.
  assert (Hdc : sum_list (attendance_count sets <$> elements (total_unique sets))
                = total_attendees sets).
  { unfold attendance_count, total_attendees. apply double_counting.
    intros [k s] Hks. simpl. unfold total_unique.
    intros a Ha. apply elem_of_union_list. exists s. split; [| done].
    apply list_elem_of_fmap. by exists (k, s). }
  assert (Hle : (size (total_unique sets) <= total_attendees sets)%nat).
  { apply size_union_list_le. }
  split; [exact Hdc |]. split; [unfold multi_session_attendees; lia |].
  split; [| split; [| split]].
  - unfold multi_session_attendees. rewrite <- Hdc.
    assert (Hsz : size (total_unique sets) = length (elements (total_unique sets)))
      by done.
    rewrite Hsz.
    assert (Hpos : forall x, x ∈ elements (total_unique sets) ->
                             (1 <= attendance_count sets x)%nat).
    { intros x Hx. by apply attendance_count_pos, elem_of_elements. }
    pose proof (sum_list_all_one (attendance_count sets)
                  (elements (total_unique sets)) Hpos) as H1.
    split.
    + intros H a Ha. apply H1; [lia | by apply elem_of_elements].
    + intros H.
      assert (Hs : sum_list (attendance_count sets <$> elements (total_unique sets))
                   = length (elements (total_unique sets))).
      { apply H1. intros x Hx. apply H. by apply elem_of_elements. }
      lia.
  - intros a Ha. split; [by apply attendance_count_pos |].
    unfold attendance_count. etrans; [apply length_filter |].
    by rewrite length_map_to_list.
  - intros a Ha.
    destruct (attendance_count sets a) eqn:E; [done |].
    exfalso. apply Ha, attendance_count_pos. lia.
  - unfold repeat_percentage, percentage_of.
    destruct (0 <? size (total_unique sets))%nat eqn:E; [| apply Qle_refl].
    apply Nat.ltb_lt in E.
    apply Qmult_le_0_compat; [| discriminate].
    apply Qle_shift_div_l.
    + change 0%Q with (inject_Z 0). rewrite <- Zlt_Qlt. lia.
    + rewrite Qmult_0_l. change 0%Q with (inject_Z 0). rewrite <- Zle_Qle.
      unfold multi_session_attendees. lia.
Qed.

(** X8: the overlap matrix of [attendance_overlap_analysis] is symmetric,
    has the size of a session's set on its diagonal, never shows more
    shared attendees than either session has, and shows zero for two
    different sessions exactly when their sets are disjoint; an entry
    exists exactly for two sessions of the dictionary. *)
Theorem overlap_matrix_properties (sets : gmap string (gset string)) :
  (forall a b, overlap sets a b = overlap sets b a) /\
  (forall a s, sets !! a = Some s -> overlap sets a a = Some (size s)) /\
  (forall a b n m, overlap sets a b = Some n -> overlap sets a a = Some m ->
                   (n <= m)%nat) /\
  (forall a b sa sb, a <> b -> sets !! a = Some sa -> sets !! b = Some sb ->
                     (overlap sets a b = Some 0%nat <-> sa ## sb)) /\
  (forall a b, overlap sets a b = None <-> sets !! a = None \/ sets !! b = None).
Proof.
  unfold overlap. split; [| split; [| split; [| split]]].
  - intros a b. destruct (decide (a = b)) as [-> | Hne]; [done |].
    destruct (sets !! a) as [sa |], (sets !! b) as [sb |]; simpl; try done.
    destruct (String.eqb_spec a b) as [-> | _]; [done |].
    destruct (String.eqb_spec b a) as [-> | _]; [done |].
    by rewrite (comm_L (∩) sa sb).
  - intros a s ->. simpl. by rewrite String.eqb_refl.
  - intros a b n m. destruct (sets !! a) as [sa |]; [| discriminate].
    simpl. rewrite String.eqb_refl.
    destruct (sets !! b) as [sb |]; [| discriminate]. simpl.
    intros [= <-] [= <-]. destruct (String.eqb a b); [done |].
    apply subseteq_size. intros x Hx. by apply elem_of_intersection in Hx as [? _].
  - intros a b sa sb Hne -> ->. simpl.
    destruct (String.eqb_spec a b) as [-> | _]; [done |].
    split.
    + intros [= H]. apply size_empty_iff in H.
      intros x Ha Hb. apply (proj1 (elem_of_equiv_empty _) H x).
      by apply elem_of_intersection.
    + intros Hd. f_equal. apply size_empty_iff. apply elem_of_equiv_empty.
      intros x Hx. apply elem_of_intersection in Hx as [Ha Hb]. by apply (Hd x).
  - intros a b. destruct (sets !! a) as [sa |], (sets !! b) as [sb |]; simpl;
      split; try done; try (by left); try (by right); by intros [H | H].
Qed.

(** ** The identifiers of a sheet *)

Lemma str_values_astype_str (c : column) :
  str_values (astype_str c) = str_values c.
Proof. unfold str_values. by rewrite astype_str_idem. Qed.

(** X9: [attendee_sets] has one entry per sheet that is not the
    placeholder and raises exactly when such a sheet has no 'ID' column;
    the identifiers it reads from a raw sheet are the identifiers of the
    normalised sheet when no 'ID' cell is the empty string, which
    normalisation turns into "nan". *)
Theorem attendee_sets_properties `{dates : DateParser} :
  (forall all_sheets sets name,
      attendee_sets all_sheets = Some sets ->
      sets !! name = sessions all_sheets !! name ≫= id_set) /\
  (forall all_sheets sets name,
      attendee_sets all_sheets = Some sets -> is_placeholder name ->
      sets !! name = None) /\
  (forall all_sheets,
      attendee_sets all_sheets = None <->
      exists name df, all_sheets !! name = Some df /\ ~ is_placeholder name /\
                      cols df !! "ID" = None) /\
  (forall t c, cols t !! "ID" = Some c -> no_empty c ->
     exists t', clean_table t = Some t' /\ id_set t' = id_set t) /\
  (exists t', clean_table (Table 1 {[ "ID" := ObjCol [CStr ""] ]}) = Some t' /\
              id_set (Table 1 {[ "ID" := ObjCol [CStr ""] ]}) = Some {[ "" ]} /\
              id_set t' = Some {[ "nan" ]}).
Proof.
  split; [| split; [| split; [| split]]].
  - intros all_sheets sets name. unfold attendee_sets.
    case_decide; [| discriminate]. intros [= <-]. apply lookup_omap.
  - intros all_sheets sets name. unfold attendee_sets.
    case_decide; [| discriminate]. intros [= <-] Hp.
    rewrite lookup_omap. unfold sessions.
    rewrite (proj2 (map_lookup_filter_None _ _ _)); [done |].
    right. intros df _. simpl. unfold is_session, is_placeholder in *.
    rewrite Hp. discriminate.
  - intros all_sheets. unfold attendee_sets. case_decide as H; split.
    + discriminate.
    + intros (name & df & Hdf & Hp & Hid). exfalso.
      assert (Hs : sessions all_sheets !! name = Some df).
      { apply map_lookup_filter_Some. split; [done |]. simpl.
        unfold is_session, is_placeholder in *.
        by destruct (String.eqb_spec (PyStr.lower name) "sheet7"). }
      specialize (H name df Hs). simpl in H. unfold id_set in H.
      rewrite Hid in H. by destruct H.
    + intros _. apply map_not_Forall in H; [| apply _].
      destruct H as (name & df & Hs & Hn).
      apply map_lookup_filter_Some in Hs as [Hdf Hsess]. simpl in Hsess.
      exists name, df. split; [done |]. split.
      * unfold is_session, is_placeholder in *. intros Hp. rewrite Hp in Hsess.
        discriminate.
      * unfold id_set in Hn. destruct (cols df !! "ID"); [| done].
        exfalso. apply Hn. by eexists.
    + done.
  - intros t c Hc Hne. eexists. split; [apply clean_table_eq |].
    unfold id_set. cbn [cols nrows]. unfold normalised.
    rewrite with_total_lookup_ne by done.
    rewrite before_total_lookup_other by done.
    rewrite Hc. cbn [fmap option_fmap option_map]. f_equal.
    rewrite norm_col_ID, (replace_empty_fix c Hne).
    by rewrite str_values_astype_str.
  - eexists. split; [vm_compute; reflexivity |].
    split; vm_compute; reflexivity.
Qed.

(** ** The overview metrics *)

Lemma size_list_to_set_le (l : list string) :
  (size (list_to_set l : gset string) <= length l)%nat.
Proof.
  induction l as [| x l IH]; [by rewrite list_to_set_nil, size_empty |].
  rewrite list_to_set_cons, size_union_alt, size_singleton. cbn [length].
  assert (size (list_to_set l ∖ {[x]} : gset string)
          <= size (list_to_set l : gset string))%nat.
  { apply subseteq_size. intros y Hy. by apply elem_of_difference in Hy as [? _]. }
  apply le_n_S. etrans; [exact H | exact IH].
Qed.

Lemma str_values_length (c : column) : length (str_values c) = col_length c.
Proof.
  unfold str_values. destruct c as [l | l | l | l]; simpl;
    by rewrite !length_fmap.
Qed.

Lemma id_set_size (df : table) (s : gset string) :
  well_formed df -> id_set df = Some s -> (size s <= nrows df)%nat.
Proof.
  unfold id_set. intros Hwf H.
  destruct (cols df !! "ID") as [c |] eqn:E; [| discriminate].
  injection H as <-. rewrite <- (Hwf _ _ E), <- str_values_length.
  apply size_list_to_set_le.
Qed.

Lemma id_sets_total_le (m : gmap string table) :
  map_Forall (fun _ df => well_formed df /\ is_Some (id_set df)) m ->
  (sum_list (size <$> (map_to_list (omap id_set m)).*2)
   <= sum_list (nrows <$> (map_to_list m).*2))%nat.
Proof.
  induction m as [| i x m Hi IH] using map_ind; intros Hall.
  - by rewrite omap_empty, !map_to_list_empty.
  - apply map_Forall_insert in Hall as [[Hwf [s Hs]] Hall]; [| done].
    rewrite (omap_insert_Some _ _ _ _ _ Hs).
    rewrite !map_to_list_insert by (by rewrite ?lookup_omap, ?Hi).
    rewrite !fmap_cons, !sum_list_cons. cbn [snd].
    specialize (IH Hall). pose proof (id_set_size x s Hwf Hs). lia.
Qed.

(** X10: when [display_overview] shows its metric cards for sheets whose
    'ID' column has one cell per row, the unique individuals are the
    distinct identifiers of [attendee_sets], they are never more than the
    total attendees, the repeat rate is not negative, and it is at least
    the repeat rate of the attendance analysis (which counts an identifier
    once per sheet).  No card is computed when every sheet is the
    placeholder or a sheet has no 'ID'. *)
Theorem overview_metrics_properties :
  (forall all_sheets total unique rate,
      overview_metrics all_sheets = Some (total, unique, rate) ->
      (forall name df, all_sheets !! name = Some df -> well_formed df) ->
      exists sets,
        attendee_sets all_sheets = Some sets /\
        unique = size (total_unique sets) /\
        Z.of_nat (total_attendees sets) <= total /\
        Z.of_nat unique <= total /\
        (0 <= rate)%Q /\ (repeat_percentage sets <= rate)%Q) /\
  (forall all_sheets,
      overview_metrics all_sheets = None <->
      sessions all_sheets = ∅ \/ attendee_sets all_sheets = None) /\
  overview_metrics {[ "sheet7" := empty_table ]} = None.
Proof.
  split; [| split; [| reflexivity]].
  - intros all_sheets total unique rate. unfold overview_metrics.
    case_decide as Hne; [discriminate |].
    destruct (attendee_sets all_sheets) as [sets |] eqn:Hsets; [| discriminate].
    simpl. intros [= <- <- <-] Hwf. exists sets. split; [done |]. split; [done |].
    assert (Hta : (total_attendees sets
                   <= sum_list (nrows <$> (map_to_list (sessions all_sheets)).*2))%nat).
    { unfold attendee_sets in Hsets. case_decide as Hall; [| discriminate].
      injection Hsets as <-. unfold total_attendees. apply id_sets_total_le.
      intros name df Hs. split; [| by apply (Hall name df)].
      apply map_lookup_filter_Some in Hs as [Hdf _]. by eapply Hwf. }
    pose proof (size_union_list_le (map_to_list sets).*2) as Hu.
    fold (total_unique sets) in Hu. fold (total_attendees sets) in Hu.
    split; [lia |]. split; [lia |].
    unfold repeat_percentage, percentage_of, multi_session_attendees.
    destruct (0 <? size (total_unique sets))%nat eqn:E;
      [| split; apply Qle_refl].
    apply Nat.ltb_lt in E.
    assert (Hpos : (0 < inject_Z (Z.of_nat (size (total_unique sets))))%Q).
    { change 0%Q with (inject_Z 0). rewrite <- Zlt_Qlt. lia. }
    split.
    + apply Qmult_le_0_compat; [| discriminate].
      apply Qle_shift_div_l; [done |].
      rewrite Qmult_0_l. change 0%Q with (inject_Z 0). rewrite <- Zle_Qle. lia.
    + apply Qmult_le_compat_r; [| discriminate].
      apply Qle_shift_div_l; [done |].
      unfold Qdiv. rewrite <- Qmult_assoc, (Qmult_comm (/ _)), Qmult_inv_r, Qmult_1_r.
      * rewrite <- Zle_Qle. lia.
      * intros H0. rewrite H0 in Hpos. by apply Qlt_irrefl in Hpos.
  - intros all_sheets. unfold overview_metrics.
    case_decide as Hne; [split; [by left | done] |].
    destruct (attendee_sets all_sheets); simpl; split; try done.
    + by intros [? | ?].
    + by right.
Qed.

(** ** The two loaders *)

Lemma read_all_sheets_ok sheets log acc :
  (forall name r, (name, r) ∈ sheets -> exists df, r = ReadOk df) ->
  read_all_sheets sheets acc = Returns (foldl load_sheet (log, acc) sheets).2 /\
  (foldl load_sheet (log, acc) sheets).1 = log.
Proof.
  revert log acc. induction sheets as [| [name r] rest IH]; intros log acc Hok.
  - done.
  - destruct (Hok name r) as [df ->]; [apply elem_of_cons; by left |].
    simpl. apply IH. intros n r' Hin. apply (Hok n r'), elem_of_cons. by right.
Qed.

Lemma read_all_sheets_fail sheets acc name e :
  (name, ReadError e) ∈ sheets ->
  exists e', read_all_sheets sheets acc = Raises e'.
Proof.
  revert acc. induction sheets as [| [n r] rest IH]; intros acc Hin.
  - by apply elem_of_nil in Hin.
  - destruct r as [df | e0]; simpl; [| by eexists].
    apply elem_of_cons in Hin as [[=] | Hin]. by apply IH.
Qed.

(** X11: on a workbook whose sheets can all be read, [load_default_data]
    returns what [load_data] returns with the key "Sheet7" deleted, and
    neither shows a message; when one sheet cannot be read, [load_data]
    still returns the other sheets, but [load_default_data] gives up the
    whole workbook and returns [None] with one error message; for a file
    that cannot be opened [load_data] raises and [load_default_data]
    returns [None]. *)
Theorem loaders_compared :
  (forall sheets,
      (forall name r, (name, r) ∈ sheets -> exists df, r = ReadOk df) ->
      exists m, load_data (Sheets sheets) = ([], Returns m) /\
                load_default_data (Sheets sheets) = ([], Some (delete "Sheet7" m))) /\
  (forall sheets name e,
      (name, ReadError e) ∈ sheets ->
      (exists log m, load_data (Sheets sheets) = (log, Returns m) /\
                     forall n df, (n, ReadOk df) ∈ sheets -> is_Some (m !! n)) /\
      (exists msg, load_default_data (Sheets sheets) = ([Error msg], None))) /\
  (forall e, (exists log, load_data (Unreadable e) = (log, Raises e)) /\
             (exists msg, load_default_data (Unreadable e) = ([Error msg], None))).
Proof.
  split; [| split].
  - intros sheets Hok.
    destruct (read_all_sheets_ok sheets [] ∅ Hok) as [Hr Hlog].
    eexists. split.
    + unfold load_data. by rewrite Hlog.
    + unfold load_default_data, read_excel_all. rewrite Hr. do 2 f_equal.
      destruct (_ !! "Sheet7") eqn:E; [done |]. by rewrite delete_id.
  - intros sheets name e Hin. split.
    + eexists _, _. split; [reflexivity |].
      intros n df Hn. by eapply load_sheets_complete.
    + unfold load_default_data, read_excel_all.
      destruct (read_all_sheets_fail sheets ∅ name e Hin) as [e' ->].
      by eexists.
  - intros e. split; by eexists.
Qed.

(** ** Shape and types of the normalised table *)

Lemma col_length_to_numeric (c : column) : col_length (to_numeric c) = col_length c.
Proof.
  destruct c as [l | l | l | l]; simpl; try done.
  - destruct (forallb is_int64_cell _); simpl; by rewrite !length_map.
  - by rewrite length_map.
Qed.

Lemma col_length_amount_clean k (c : column) :
  col_length (amount_clean k c) = col_length c.
Proof.
  destruct c as [l | l | l | l]; try done. unfold amount_clean.
  destruct (_ || _); [done |].
  rewrite col_length_to_numeric. simpl. by rewrite length_map.
Qed.

Lemma col_length_fillna_unknown (c : column) :
  col_length (fillna_unknown c) = col_length c.
Proof.
  destruct c as [l | l | l | l]; simpl; try done.
  - by rewrite length_map.
  - destruct (all_some l); simpl; [done | by rewrite length_map].
  - destruct (all_some l); simpl; [done | by rewrite length_map].
Qed.

Lemma col_length_decade_column (c : column) :
  col_length (decade_column c) = col_length c.
Proof. destruct c as [l | l | l | l]; simpl; try done; by rewrite length_map. Qed.

Lemma col_length_add_filled n a b : col_length (add_filled n a b) = n.
Proof.
  unfold add_filled. destruct (_ && _); simpl; by rewrite length_map, length_seq.
Qed.

Lemma col_length_total_all_giving n cs : col_length (total_all_giving n cs) = n.
Proof.
  unfold total_all_giving, sum_axis1. destruct (forallb is_numeric cs).
  - destruct (forallb is_int_col cs); simpl; by rewrite length_map, length_seq.
  - unfold sum_by_column.
    assert (H : forall cs0 acc, col_length acc = n ->
      col_length (foldl (fun total c => add_filled n total (to_numeric c)) acc cs0)
      = n).
    { induction cs0 as [| c cs0 IH]; simpl; [done |]. intros acc _.
      apply IH, col_length_add_filled. }
    apply H. simpl. apply length_replicate.
Qed.

Lemma has_missing_fillna_unknown (c : column) :
  has_missing (fillna_unknown c) = false.
Proof.
  destruct c as [l | l | l | l]; simpl.
  - induction l as [| x l IH]; simpl; [done |]. rewrite IH.
    by destruct x.
  - done.
  - destruct (all_some l) eqn:E; simpl; [by rewrite E |].
    clear E. induction l as [| [q |] l IH]; simpl; by rewrite ?IH.
  - destruct (all_some l) eqn:E; simpl; [by rewrite E |].
    clear E. induction l as [| [t |] l IH]; simpl; by rewrite ?IH.
Qed.

Lemma all_text_astype_str (c : column) : all_text (astype_str c).
Proof.
  destruct c as [l | l | l | l]; simpl; apply Forall_fmap, Forall_true;
    intros x; by eexists.
Qed.

Lemma all_text_decade_column (c : column) :
  is_numeric c = true -> all_text (decade_column c).
Proof.
  destruct c as [l | l | l | l]; simpl; try done; intros _;
    apply Forall_fmap, Forall_true; intros x; by eexists.
Qed.

Section Shape.

Context {dates : DateParser}.

Lemma col_length_to_datetime (c : column) :
  col_length (to_datetime c) = col_length c.
Proof. destruct c as [l | l | l | l]; simpl; try done; by rewrite length_map. Qed.

Lemma col_length_norm_col k (c : column) : col_length (norm_col k c) = col_length c.
Proof.
  assert (H0 : col_length (replace_empty c) = col_length c).
  { destruct c; simpl; try done. by rewrite length_map. }
  destruct (norm_col_cases k c) as [[_ ->] | [[_ ->] | (_ & _ & ->)]].
  - rewrite <- H0. destruct (replace_empty c); simpl; by rewrite length_map.
  - by rewrite col_length_to_numeric.
  - destruct (is_date_name k), (is_amount_name k); simpl;
      by rewrite ?col_length_amount_clean, ?col_length_to_datetime.
Qed.

(** The column the normalised table has under [k]. *)
Lemma normalised_lookup_cases n (df : gmap string column) k c' :
  normalised n df !! k = Some c' ->
  (k = "Total_All_Giving" /\ c' = total_all_giving n (giving_values (before_total df))) \/
  (k = "Decade" /\ exists yr, df !! "CL YR" = Some yr /\
                   c' = decade_column (to_numeric (replace_empty yr))) \/
  (k = "State" /\ exists c, df !! k = Some c /\
                  c' = fillna_unknown (replace_empty c)) \/
  (k <> "State" /\ (k = "Decade" -> df !! "CL YR" = None) /\
   exists c, df !! k = Some c /\ c' = norm_col k c).
Proof.
  unfold normalised. intros H.
  destruct (decide (k = "Total_All_Giving")) as [-> | HT].
  { unfold with_total in H. case_decide.
    - rewrite before_total_lookup_other in H by done.
      destruct (df !! "Total_All_Giving") as [c |] eqn:E; [| discriminate].
      injection H as <-. right; right; right. split; [done |].
      split; [done |]. by exists c.
    - rewrite lookup_insert_eq in H. injection H as <-. by left. }
  rewrite with_total_lookup_ne in H by done.
  destruct (decide (k = "Decade")) as [-> | HD].
  { rewrite before_total_lookup_Decade in H.
    destruct (df !! "CL YR") as [yr |] eqn:E.
    - injection H as <-. right; left. split; [done |]. by exists yr.
    - destruct (df !! "Decade") as [c |] eqn:E2; [| discriminate].
      injection H as <-. right; right; right. split; [done |].
      split; [done |]. exists c. split; reflexivity. }
  destruct (decide (k = "State")) as [-> | HS].
  { rewrite before_total_lookup_State in H.
    destruct (df !! "State") as [c |] eqn:E; [| discriminate].
    injection H as <-. right; right; left. split; [done |]. by exists c. }
  rewrite before_total_lookup_other in H by done.
  destruct (df !! k) as [c |] eqn:E; [| discriminate].
  injection H as <-. right; right; right. split; [done |].
  split; [done |]. by exists c.
Qed.

End Shape.

(** X12: on a frame whose column labels are distinct strings, as the
    tables of this model are (on a label that is no string the test
    ['Date' in col] raises), [clean_data] returns a frame with the index
    and every column of its input; it adds no column but 'Decade' (only
    when there is a 'CL YR') and 'Total_All_Giving', and the columns of the
    result, the two new ones included, all have one cell per row whenever
    that holds of the input. *)
Theorem clean_data_shape `{dates : DateParser} :
  forall t, exists t',
    clean_table t = Some t' /\
    nrows t' = nrows t /\
    (forall k, is_Some (cols t !! k) -> is_Some (cols t' !! k)) /\
    (forall k, is_Some (cols t' !! k) ->
               is_Some (cols t !! k) \/
               (k = "Decade" /\ is_Some (cols t !! "CL YR")) \/
               k = "Total_All_Giving") /\
    (well_formed t -> well_formed t').
Proof.
  intros t. eexists. split; [apply clean_table_eq |]. cbn [cols nrows].
  split; [done |]. split; [| split].
  - intros k [c Hc]. unfold normalised, with_total.
    case_decide.
    + destruct (decide (k = "Decade")) as [-> | HD].
      * rewrite before_total_lookup_Decade.
        destruct (cols t !! "CL YR"); [by eexists |]. rewrite Hc. by eexists.
      * apply before_total_is_Some; [done | by eexists].
    + destruct (decide (k = "Total_All_Giving")) as [-> | HT].
      * rewrite lookup_insert_eq. by eexists.
      * rewrite lookup_insert_ne by done.
        destruct (decide (k = "Decade")) as [-> | HD].
        -- rewrite before_total_lookup_Decade.
           destruct (cols t !! "CL YR"); [by eexists |]. rewrite Hc. by eexists.
        -- apply before_total_is_Some; [done | by eexists].
  - intros k [c' Hc'].
    apply normalised_lookup_cases in Hc'
      as [[-> _] | [[-> (yr & Hyr & _)] | [[-> (c & Hc & _)] | (_ & _ & c & Hc & _)]]].
    + by right; right.
    + right; left. split; [done | by eexists].
    + left. by eexists.
    + left. by eexists.
  - intros Hwf k c' Hc'. cbn [cols nrows] in *.
    apply normalised_lookup_cases in Hc'
      as [[-> ->] | [[-> (yr & Hyr & ->)] | [[-> (c & Hc & ->)] | (_ & _ & c & Hc & ->)]]].
    + apply col_length_total_all_giving.
    + rewrite col_length_decade_column, col_length_to_numeric.
      rewrite <- (Hwf _ _ Hyr). destruct yr; simpl; try done. by rewrite length_map.
    + rewrite col_length_fillna_unknown. rewrite <- (Hwf _ _ Hc).
      destruct c; simpl; try done. by rewrite length_map.
    + rewrite col_length_norm_col. by apply (Hwf k).
Qed.

(** X13: in the frame [clean_data] returns no cell is the empty string;
    'ID' holds text only; 'CL YR' and 'SP CL YR' are numeric; every column
    with "Date" or "date" in its name is datetime-typed; every column with
    "Gift" or "Ask" in its name that is not date-named has left dtype
    object; 'State' has no missing value; and 'Decade', made from a
    'CL YR', holds text only. *)
Theorem clean_data_postconditions `{dates : DateParser} :
  forall t, exists t',
    clean_table t = Some t' /\
    forall k c', cols t' !! k = Some c' ->
      no_empty c' /\
      (k = "ID" -> all_text c') /\
      (in_list k year_cols = true -> is_numeric c' = true) /\
      (is_date_name k = true -> is_datetime c' = true) /\
      (is_amount_name k = true -> is_date_name k = false -> is_object c' = false) /\
      (k = "State" -> has_missing c' = false) /\
      (k = "Decade" -> is_Some (cols t !! "CL YR") -> all_text c').
Proof.
  intros t. eexists. split; [apply clean_table_eq |]. cbn [cols nrows].
  intros k c' Hc'.
  apply normalised_lookup_cases in Hc'
    as [[-> ->] | [[-> (yr & Hyr & ->)] | [[-> (c & Hc & ->)] | (HS & HD & c & Hc & ->)]]].
  - pose proof (total_all_giving_numeric (nrows t)
                  (giving_values (before_total (cols t)))) as Hn.
    set (total := total_all_giving _ _) in *. clearbody total.
    split; [by apply no_empty_numeric |].
    split; [intros H; discriminate H |].
    split; [done |].
    split; [intros H; discriminate H |].
    split; [intros H; discriminate H |].
    split; intros H; discriminate H.
  - assert (Hn : is_numeric (to_numeric (replace_empty yr)) = true)
      by apply to_numeric_numeric.
    set (num := to_numeric (replace_empty yr)) in *. clearbody num.
    split; [by apply no_empty_decade_column |].
    split; [intros H; discriminate H |].
    split; [intros H; discriminate H |].
    split; [intros H; discriminate H |].
    split; [intros H; discriminate H |].
    split; [intros H; discriminate H |].
    intros _ _. by apply all_text_decade_column.
  - split; [apply no_empty_fillna_unknown, no_empty_replace_empty |].
    split; [intros H; discriminate H |].
    split; [intros H; discriminate H |].
    split; [intros H; discriminate H |].
    split; [intros H; discriminate H |].
    split; [intros _; apply has_missing_fillna_unknown |].
    intros H; discriminate H.
  - split; [apply no_empty_norm_col |].
    split; [intros ->; rewrite norm_col_ID; apply all_text_astype_str |].
    split.
    { intros Hy. destruct (norm_col_cases k c) as [[-> _] | [[_ ->] | (_ & Hy' & _)]];
        [discriminate Hy | apply to_numeric_numeric | congruence]. }
    split.
    { intros Hd. destruct (norm_col_cases k c) as [[-> _] | [[Hy _] | (_ & _ & ->)]].
      - discriminate Hd.
      - exfalso. apply in_list_spec in Hy. unfold year_cols in Hy.
        repeat (apply elem_of_cons in Hy as [-> | Hy]; [discriminate Hd |]).
        by apply elem_of_nil in Hy.
      - rewrite Hd, andb_false_r. simpl. by destruct (replace_empty c). }
    split.
    { intros Ha Hd.
      destruct (amount_name_plain k Ha) as (_ & _ & _ & H4 & H5 & H6).
      rewrite norm_col_other by done. rewrite Ha, Hd. simpl.
      destruct (replace_empty c) as [l | l | l | l] eqn:E; try done.
      unfold amount_clean. rewrite H6.
      pose proof (to_numeric_numeric (ObjCol (map currency_text l))) as Hn.
      by destruct (to_numeric _). }
    split; [done |].
    intros -> [yr Hyr]. rewrite (HD eq_refl) in Hyr. discriminate Hyr.
Qed.

(** ** Printing an integer and reading it back *)

Lemma digit_val_pretty_char (d : N) :
  (d < 10)%N ->
  PyStr.is_digit (pretty_N_char d) = true /\
  PyStr.digit_val (pretty_N_char d) = Z.of_N d.
Proof.
  intros Hd.
  assert (H : (d = 0 \/ d = 1 \/ d = 2 \/ d = 3 \/ d = 4 \/ d = 5 \/ d = 6 \/
              d = 7 \/ d = 8 \/ d = 9)%N) by lia.
  destruct H as [-> | [-> | [-> | [-> | [-> | [-> | [-> | [-> | [-> | ->]]]]]]]]];
    by split.
Qed.

Lemma pretty_N_go_digits (x : N) (s : string) :
  PyStr.all_chars PyStr.is_digit s = true ->
  PyStr.all_chars PyStr.is_digit (pretty_N_go x s) = true /\
  PyStr.digits_value 0 (pretty_N_go x s) = PyStr.digits_value (Z.of_N x) s.
Proof.
  revert s. induction (N.lt_wf_0 x) as [x _ IH]; intros s Hs.
  assert ((x = 0 \/ 0 < x)%N) as [-> | Hx] by lia.
  - by rewrite pretty_N_go_0.
  - rewrite pretty_N_go_step by done.
    destruct (digit_val_pretty_char (x `mod` 10)) as [Hd Hv];
      [by apply N.mod_lt |].
    destruct (IH (x `div` 10)%N) with (s := String (pretty_N_char (x `mod` 10)) s)
      as [H1 H2]; [by apply N.div_lt | simpl; by rewrite Hd |].
    split; [done |]. rewrite H2. simpl. rewrite Hv. f_equal.
    rewrite (N.div_mod x 10) at 3 by done. lia.
Qed.

Lemma pretty_N_digits (n : N) :
  PyStr.isdigit (pretty n) = true /\ PyStr.digits_value 0 (pretty n) = Z.of_N n.
Proof.
  unfold pretty, pretty_N. case_decide as H0; [by subst |].
  destruct (pretty_N_go_digits n "" eq_refl) as [H1 H2].
  split; [| done].
  pose proof (pretty_N_nonempty n) as Hne. unfold pretty, pretty_N in Hne.
  rewrite decide_False in Hne by done.
  by destruct (pretty_N_go n "").
Qed.

Lemma digit_not_space (a : ascii) :
  PyStr.is_digit a = true -> PyStr.is_space a = false.
Proof. destruct a as [[] [] [] [] [] [] [] []]; by intros. Qed.

Lemma rstrip_no_space (s : string) :
  PyStr.all_chars (fun a => negb (PyStr.is_space a)) s = true -> PyStr.rstrip s = s.
Proof.
  induction s as [| a r IH]; simpl; [done |]. intros H.
  apply andb_prop in H as [Ha Hr]. rewrite (IH Hr).
  destruct r; [| done]. by destruct (PyStr.is_space a).
Qed.

Lemma strip_no_space (s : string) :
  PyStr.all_chars (fun a => negb (PyStr.is_space a)) s = true -> PyStr.strip s = s.
Proof.
  intros H. unfold PyStr.strip.
  rewrite (lstrip_fix s).
  - by apply rstrip_no_space.
  - destruct s as [| a r]; simpl in *; [done |].
    apply andb_prop in H as [Ha _]. by destruct (PyStr.is_space a).
Qed.

Lemma all_chars_impl (p q : ascii -> bool) (s : string) :
  (forall a, p a = true -> q a = true) ->
  PyStr.all_chars p s = true -> PyStr.all_chars q s = true.
Proof.
  intros Hpq. induction s as [| a r IH]; simpl; [done |].
  intros H. apply andb_prop in H as [Ha Hr]. by rewrite (Hpq a Ha), IH.
Qed.

Lemma isdigit_all_chars (s : string) :
  PyStr.isdigit s = true -> PyStr.all_chars PyStr.is_digit s = true.
Proof. by destruct s. Qed.

Lemma strip_c_no_space (s : string) :
  PyStr.all_chars (fun a => negb (PyStr.is_space a)) s = true -> PyStr.strip_c s = s.
Proof.
  intros H. rewrite strip_c_no_separator; [by apply strip_no_space |].
  revert H. apply all_chars_impl. intros a. rewrite is_space_cases.
  by destruct (PyStr.is_c_space a), (PyStr.is_separator a).
Qed.

Lemma strip_digits (s : string) : PyStr.isdigit s = true -> PyStr.strip s = s.
Proof.
  intros H. apply strip_no_space.
  apply (all_chars_impl PyStr.is_digit); [| by apply isdigit_all_chars].
  intros a Ha. by rewrite (digit_not_space a Ha).
Qed.

(** [int] of a string of digits. *)
Lemma int_of_str_digits (s : string) :
  PyStr.isdigit s = true ->
  PyStr.int_of_str s = Some (PyStr.digits_value 0 s).
Proof.
  intros H.
  assert (Hs : PyStr.strip_c s = s).
  { apply strip_c_no_space.
    apply (all_chars_impl PyStr.is_digit); [| by apply isdigit_all_chars].
    intros a Ha. by rewrite (digit_not_space a Ha). }
  rewrite int_of_str_isdigit; rewrite Hs; done.
Qed.

Lemma int_of_str_pretty (z : Z) : PyStr.int_of_str (pretty z) = Some z.
Proof.
  destruct z as [| p | p].
  - reflexivity.
  - destruct (pretty_N_digits (Npos p)) as [H1 H2].
    change (pretty (Zpos p)) with (pretty (Npos p)).
    by rewrite (int_of_str_digits _ H1), H2.
  - destruct (pretty_N_digits (Npos p)) as [H1 H2].
    change (pretty (Zneg p)) with (String "-" (pretty (Npos p))).
    unfold PyStr.int_of_str.
    rewrite strip_c_no_space.
    + cbv iota beta. rewrite (isdigit_int_body _ H1), H2. done.
    + change (PyStr.all_chars (fun a => negb (PyStr.is_space a))
                (pretty (Npos p)) = true).
      apply (all_chars_impl PyStr.is_digit);
        [| by apply isdigit_all_chars].
      intros a Ha. by rewrite (digit_not_space a Ha).
Qed.

(** X14: a class year stored as the text of a 64-bit integer is bucketed
    like the integer itself: [int] reads back what [str] printed, so
    [get_decade] and [get_decade_label] give the same label for the text
    as for the number. *)
Theorem year_text_round_trip :
  (forall z, - 2 ^ 63 <= z < 2 ^ 63 ->
             py_int (CStr (py_str (CInt z))) = Some z) /\
  (forall z, - 2 ^ 63 <= z < 2 ^ 63 ->
             get_decade (CStr (py_str (CInt z))) = get_decade (CInt z)) /\
  (forall z, - 2 ^ 63 <= z < 2 ^ 63 ->
             get_decade_label (CStr (py_str (CInt z))) = get_decade_label (CInt z)) /\
  get_decade (CStr " 1983 ") = "1980s" /\
  get_decade (CStr "1983.0") = "Unknown" /\
  get_decade_label (CStr "1983.0") = "Unknown".
Proof.
  split; [| split; [| split; [| repeat split; vm_compute; reflexivity]]].
  - intros z _. apply int_of_str_pretty.
  - intros z _. unfold get_decade. cbn [isna py_int py_str].
    by rewrite int_of_str_pretty.
  - intros z _. unfold get_decade_label. cbn [isna py_int py_str].
    by rewrite int_of_str_pretty.
Qed.

(** ** The lower bound read from a wealth range *)

Lemma digits_value_nonneg (s : string) (acc : Z) :
  PyStr.all_chars PyStr.is_digit s = true -> 0 <= acc ->
  0 <= PyStr.digits_value acc s.
Proof.
  revert acc. induction s as [| a r IH]; simpl; intros acc H Hacc; [done |].
  apply andb_prop in H as [Ha Hr]. apply IH; [done |].
  unfold PyStr.is_digit, PyStr.digit_val in *.
  apply andb_prop in Ha as [H1 H2]. apply N.leb_le in H1. lia.
Qed.

Lemma digit_is_number_char (a : ascii) :
  PyStr.is_digit a = true -> is_number_char a = true.
Proof. intros H. unfold is_number_char. by rewrite H. Qed.

Lemma take_run_all (s : string) :
  PyStr.all_chars is_number_char s = true -> take_run s = s.
Proof.
  induction s as [| a r IH]; simpl; [done |]. intros H.
  apply andb_prop in H as [Ha Hr]. by rewrite Ha, (IH Hr).
Qed.

Lemma take_run_app (d : string) (b : ascii) (r : string) :
  PyStr.all_chars is_number_char d = true -> is_number_char b = false ->
  take_run (d +:+ String b r) = d.
Proof.
  intros Hd Hb. induction d as [| a d' IH]; simpl.
  - by rewrite Hb.
  - simpl in Hd. apply andb_prop in Hd as [Ha Hd']. by rewrite Ha, (IH Hd').
Qed.

Lemma first_run_digits (d rest : string) :
  PyStr.isdigit d = true ->
  first_run (d +:+ rest) = Some (take_run (d +:+ rest)).
Proof.
  destruct d as [| a d']; [done |]. intros H.
  simpl in H. apply andb_prop in H as [Ha _].
  change (String a d' +:+ rest) with (String a (d' +:+ rest)).
  set (s := String a (d' +:+ rest)). unfold s at 1.
  cbn [first_run]. fold s. by rewrite (digit_is_number_char a Ha).
Qed.

Lemma first_run_all_digits (d : string) :
  PyStr.isdigit d = true -> first_run d = Some d.
Proof.
  intros H. destruct d as [| a r]; [done |].
  simpl in H. apply andb_prop in H as [Ha Hr].
  cbn [first_run]. rewrite (digit_is_number_char a Ha).
  rewrite take_run_all; [done |].
  simpl. rewrite (digit_is_number_char a Ha).
  apply (all_chars_impl PyStr.is_digit); [apply digit_is_number_char | done].
Qed.

(** Removing the commas of a string of digits changes nothing. *)
Lemma replace_comma_digits (s : string) :
  PyStr.all_chars PyStr.is_digit s = true -> PyStr.replace "," "" s = s.
Proof.
  unfold PyStr.replace. induction s as [| a r IH]; [done |]. intros H.
  simpl in H. apply andb_prop in H as [Ha Hr].
  cbn [PyStr.replace_go]. rewrite (IH Hr).
  assert (Hp : String.prefix "," (String a r) = false).
  { cbn [String.prefix]. destruct (ascii_dec "," a) as [<- |]; [| done].
    vm_compute in Ha. discriminate Ha. }
  by rewrite Hp.
Qed.

Lemma extract_digits (wealth_range : cell) (d : string) :
  isna wealth_range = false ->
  first_run (py_str wealth_range) = Some d ->
  PyStr.isdigit d = true ->
  extract_wealth_range_value wealth_range
  = CFloat (inject_Z (PyStr.digits_value 0 d)).
Proof.
  intros Hna Hrun Hd. unfold extract_wealth_range_value.
  rewrite Hna, Hrun. cbn [orb].
  rewrite (replace_comma_digits d (isdigit_all_chars d Hd)), Hd.
  destruct wealth_range as [| | | s |]; try done.
  destruct s; [discriminate Hrun | done].
Qed.

Lemma all_digits_number_chars (s : string) :
  PyStr.isdigit s = true -> PyStr.all_chars is_number_char s = true.
Proof.
  intros H. apply (all_chars_impl PyStr.is_digit);
    [apply digit_is_number_char | by apply isdigit_all_chars].
Qed.

(** X15: [extract_wealth_range_value] never returns a missing or a negative
    value: the result is the integer 0 or a float that is at least 0.  On a
    range written from two whole amounts, the lower one below 2^53, it is
    the lower amount; on an integer below 2^53 in absolute value it is the
    absolute value, the sign being no part of the run of digits (a float
    holds every whole amount below 2^53 exactly); thousands separators are
    dropped; text without a digit, and a run of commas alone, give 0; a
    decimal point ends the run. *)
Theorem extract_wealth_range_value_properties :
  (forall c, extract_wealth_range_value c = CInt 0 \/
             exists q, extract_wealth_range_value c = CFloat q /\ (0 <= q)%Q) /\
  (forall lo hi : N,
     (lo < 2 ^ 53)%N ->
     extract_wealth_range_value (CStr ("$" +:+ pretty lo +:+ "-$" +:+ pretty hi))
     = CFloat (inject_Z (Z.of_N lo))) /\
  (forall z : Z,
     Z.abs z < 2 ^ 53 ->
     extract_wealth_range_value (CInt z) = CFloat (inject_Z (Z.abs z))) /\
  extract_wealth_range_value (CStr "$5,000-$9,999") = CFloat (inject_Z 5000) /\
  extract_wealth_range_value (CStr "Unknown") = CInt 0 /\
  extract_wealth_range_value (CStr "n/a, pending") = CInt 0 /\
  extract_wealth_range_value (CStr "$1.5M+") = CFloat (inject_Z 1).
Proof.
  split; [| split; [| split; [| repeat split; vm_compute; reflexivity]]].
  - intros c. unfold extract_wealth_range_value.
    destruct (isna c || _); [by left |].
    destruct (first_run (py_str c)) as [run |]; [| by left].
    destruct (PyStr.isdigit (PyStr.replace "," "" run)) eqn:E; [| by left].
    right. eexists. split; [done |].
    rewrite <- (Zle_Qle 0). apply digits_value_nonneg; [| done].
    by apply isdigit_all_chars.
  - intros lo hi _. destruct (pretty_N_digits lo) as [Hd Hv].
    rewrite (extract_digits _ (pretty lo)); [by rewrite Hv | done | | done].
    cbn [py_str].
    change ("$" +:+ pretty lo +:+ "-$" +:+ pretty hi)
      with (String "$" (pretty lo +:+ String "-" (String "$" (pretty hi)))).
    cbn [first_run]. change (is_number_char "$") with false. cbv iota.
    rewrite (first_run_digits _ _ Hd).
    by rewrite (take_run_app _ _ _ (all_digits_number_chars _ Hd)).
  - intros z _. destruct z as [| p | p].
    + vm_compute. reflexivity.
    + destruct (pretty_N_digits (Npos p)) as [Hd Hv].
      rewrite (extract_digits _ (pretty (Npos p))); [by rewrite Hv | done | | done].
      cbn [py_str]. change (pretty (Zpos p)) with (pretty (Npos p)).
      by apply first_run_all_digits.
    + destruct (pretty_N_digits (Npos p)) as [Hd Hv].
      rewrite (extract_digits _ (pretty (Npos p))); [by rewrite Hv | done | | done].
      cbn [py_str].
      change (pretty (Zneg p)) with (String "-" (pretty (Npos p))).
      cbn [first_run]. change (is_number_char "-") with false. cbv iota.
      by apply first_run_all_digits.
Qed.

(** ** Gifts against the ask range *)

(** X16: for a row whose last gift and ask amounts are all present, and
    whose low ask is at most its high ask, exactly one of the three flags
    [Above_High], [Within_Range] and [Below_Low] is set. *)
Theorem ask_flags_partition (gift hi low : Q) :
  (low <= hi)%Q ->
  (Nat.b2n (above_high (Some gift) (Some hi) (Some low)) +
   Nat.b2n (within_range (Some gift) (Some hi) (Some low)) +
   Nat.b2n (below_low (Some gift) (Some hi) (Some low)) = 1)%nat.
Proof.
  intros Hle. unfold above_high, within_range, below_low, num_lt, num_le,
    num_gt, num_ge.
  destruct (Qltb_spec hi gift), (Qle_bool_spec low gift),
    (Qle_bool_spec gift hi), (Qltb_spec gift low); simpl; try reflexivity;
    exfalso; lra.
Qed.

Lemma ask_flags_partition_witness :
  (50 <= 100)%Q /\
  (Nat.b2n (above_high (Some 75%Q) (Some 100%Q) (Some 50%Q)) +
   Nat.b2n (within_range (Some 75%Q) (Some 100%Q) (Some 50%Q)) +
   Nat.b2n (below_low (Some 75%Q) (Some 100%Q) (Some 50%Q)) = 1)%nat.
Proof.
  split; [discriminate | apply (ask_flags_partition 75 100 50); discriminate].
Defined.

(** X17: off that case the flags are no partition.  A row with a missing
    last gift or a missing ask amount sets none of the flags that compare the
    missing value, so a row with no last gift counts in none of the three
    percentages; and when the low ask exceeds the high ask, a gift strictly
    between them is flagged both above the high ask and below the low ask. *)
Theorem ask_flags_off_partition :
  (forall hi low,
     above_high None hi low = false /\ within_range None hi low = false /\
     below_low None hi low = false) /\
  (forall gift low,
     above_high gift None low = false /\ within_range gift None low = false) /\
  (forall gift hi,
     below_low gift hi None = false /\ within_range gift hi None = false) /\
  (forall gift hi low : Q,
     (hi < gift)%Q -> (gift < low)%Q ->
     above_high (Some gift) (Some hi) (Some low) = true /\
     within_range (Some gift) (Some hi) (Some low) = false /\
     below_low (Some gift) (Some hi) (Some low) = true).
Proof.
  split; [| split; [| split]].
  - intros hi low. unfold above_high, within_range, below_low, num_lt, num_le,
      num_gt, num_ge. by destruct hi, low.
  - intros gift low. unfold above_high, within_range, num_le, num_gt, num_ge.
    destruct gift, low; try done. by rewrite andb_false_r.
  - intros gift hi. unfold below_low, within_range, num_lt, num_gt, num_ge.
    by destruct gift, hi.
  - intros gift hi low H1 H2.
    unfold above_high, within_range, below_low, num_lt, num_le, num_gt, num_ge.
    destruct (Qltb_spec hi gift), (Qle_bool_spec low gift),
      (Qle_bool_spec gift hi), (Qltb_spec gift low); simpl; try done;
      exfalso; lra.
Qed.

(** ** The insights box *)

Lemma app_cons_str (a : ascii) (s r : string) :
  String a s +:+ r = String a (s +:+ r).
Proof. reflexivity. Qed.

Lemma app_nil_str (r : string) : "" +:+ r = r.
Proof. reflexivity. Qed.

Lemma prefix_app_same (s r : string) : String.prefix s (s +:+ r) = true.
Proof.
  induction s as [| a s' IH]; [by destruct r |].
  rewrite app_cons_str. simpl. destruct (ascii_dec a a); [exact IH | done].
Qed.

Lemma contains_app_r (sub p s : string) :
  PyStr.contains sub s = true -> PyStr.contains sub (p +:+ s) = true.
Proof.
  intros H. induction p as [| a p' IH]; [done |].
  rewrite app_cons_str. simpl. rewrite IH. apply orb_true_r.
Qed.

Lemma contains_middle (sub p r : string) :
  PyStr.contains sub (p +:+ sub +:+ r) = true.
Proof.
  apply contains_app_r.
  destruct (sub +:+ r) eqn:E; cbn [PyStr.contains]; rewrite <- E;
    by rewrite prefix_app_same.
Qed.

Lemma app_assoc_str (a b c : string) : (a +:+ b) +:+ c = a +:+ b +:+ c.
Proof.
  induction a as [| x a' IH]; [done |]. by rewrite !app_cons_str, IH.
Qed.

Lemma app_empty_r (a : string) : a +:+ "" = a.
Proof. induction a as [| x a' IH]; [done |]. by rewrite app_cons_str, IH. Qed.

Lemma app_length_str (x y : string) :
  String.length (x +:+ y) = (String.length x + String.length y)%nat.
Proof.
  induction x as [| ? x' IHx]; [done |]. rewrite app_cons_str. simpl.
  by rewrite IHx.
Qed.

Lemma app_cancel_r (a b c : string) : a +:+ c = b +:+ c -> a = b.
Proof.
  revert b. induction a as [| x a' IHa]; intros b Hab.
  - destruct b as [| y b']; [done |]. apply (f_equal String.length) in Hab.
    rewrite app_nil_str, app_length_str in Hab. simpl in Hab. lia.
  - destruct b as [| y b'].
    + apply (f_equal String.length) in Hab.
      rewrite app_nil_str, app_length_str in Hab. simpl in Hab. lia.
    + rewrite !app_cons_str in Hab. injection Hab as -> Hab.
      by rewrite (IHa _ Hab).
Qed.

Lemma items_html_app (d1 d2 : list (string * string)) :
  items_html (d1 ++ d2) = items_html d1 +:+ items_html d2.
Proof.
  induction d1 as [| kv d1 IH]; [done |].
  cbn [app items_html]. by rewrite IH, app_assoc_str.
Qed.

Lemma insights_fold (items : list (string * string)) (html : string) :
  foldl (fun html kv => html +:+ insights_item kv.1 kv.2) html items
  = html +:+ items_html items.
Proof.
  revert html. induction items as [| kv items IH]; intros html.
  - cbn [foldl items_html]. by rewrite app_empty_r.
  - cbn [foldl items_html]. by rewrite IH, app_assoc_str.
Qed.

(** X18: the insights box is its heading, one list item per entry of the
    dictionary in the dictionary's order, and the closing tags; adding
    entries at the end only inserts their items before the closing tags;
    every entry's key and value are in the box as they are given, without
    escaping. *)
Theorem generate_insights_layout :
  (forall data_dict title,
     generate_insights data_dict title
     = insights_header title +:+ items_html data_dict +:+ insights_footer) /\
  (forall d1 d2 title rest,
     generate_insights d1 title = rest +:+ insights_footer ->
     generate_insights (d1 ++ d2) title
     = rest +:+ items_html d2 +:+ insights_footer) /\
  (forall data_dict title key value,
     (key, value) ∈ data_dict ->
     PyStr.contains ("<li><b>" +:+ key +:+ "</b>: " +:+ value +:+ "</li>")
       (generate_insights data_dict title) = true).
Proof.
  assert (Hform : forall data_dict title,
     generate_insights data_dict title
     = insights_header title +:+ items_html data_dict +:+ insights_footer).
  { intros d t. unfold generate_insights. cbv zeta.
    by rewrite insights_fold, app_assoc_str. }
  split; [exact Hform | split].
  - intros d1 d2 title rest H. rewrite Hform in H. rewrite Hform.
    rewrite items_html_app.
    rewrite <- app_assoc_str in H. apply app_cancel_r in H. subst rest.
    by rewrite !app_assoc_str.
  - intros d title key value Hin. rewrite Hform.
    apply list_elem_of_split in Hin as (l1 & l2 & ->).
    rewrite items_html_app. cbn [items_html fst snd].
    fold (insights_item key value).
    rewrite !app_assoc_str.
    rewrite <- (app_assoc_str (insights_header title)).
    apply contains_middle.
Qed.

(** ** The category of a standardised major *)

Lemma first_category_labels (major c : string) :
  first_category major_categories major = Some c ->
  c ∈ ["STEM"; "Social Sciences"; "Humanities"; "Business"; "Arts"].
Proof.
  unfold major_categories. cbn [first_category].
  change (any_in [] major) with false. cbv iota.
  repeat match goal with
         | |- context [any_in ?l major] => destruct (any_in l major)
         end; intros H; try discriminate H; injection H as <-; compute_done.
Qed.

(** A name that no variation matches has no "ENG" in it. *)
Lemma first_variation_None (m : string) :
  first_variation variations m = None -> PyStr.contains "ENG" m = false.
Proof.
  unfold variations. cbn [first_variation].
  repeat match goal with
         | |- context [if PyStr.contains ?k m then _ else _] =>
             destruct (PyStr.contains k m) eqn:?
         end; done.
Qed.

(** No standardised major has "ENGINEERING" in it. *)
Lemma standardised_not_engineering (major : cell) :
  PyStr.contains "ENGINEERING" (standardize_major major) = false.
Proof.
  unfold standardize_major. destruct (isna major); [reflexivity |]. cbv zeta.
  set (m := PyStr.upper (PyStr.strip (py_str major))).
  destruct (first_variation variations m) as [v |] eqn:E.
  - destruct (first_variation_cases m) as [[E' _] | (v' & E' & Hv)];
      [congruence |].
    rewrite E in E'. injection E' as <-. cbn [default from_option id].
    repeat (apply elem_of_cons in Hv as [-> | Hv]; [reflexivity |]).
    by apply elem_of_nil in Hv.
  - cbn [default from_option id]. apply first_variation_None in E.
    destruct (PyStr.contains "ENGINEERING" m) eqn:E2; [| reflexivity].
    apply (contains_app_l "ENG" "INEERING") in E2. congruence.
Qed.

(** X19: [get_major_category] answers one of seven labels, "Unknown" for
    the text "Unknown" only.  After [standardize_major], as the correlation
    table applies it, a missing major is "Unknown", and no standardised
    major has "ENGINEERING" in it, so the entry 'ENGINEERING' of "STEM" is
    never what puts a major there: a major with "ENG" in its ASCII name
    gets the category of the first variation found in it, "Humanities"
    (through "ENGLISH") when none of the five keys tested before "ENG"
    occurs, as for mechanical engineering, and "STEM" through "BIOLOGY" for
    biomedical engineering.  A name is matched by substring: "EARTH
    SCIENCE" is "Arts". *)
Theorem major_category_properties :
  (forall major,
     get_major_category major
       ∈ ["Unknown"; "STEM"; "Social Sciences"; "Humanities"; "Business";
          "Arts"; "Other"]) /\
  (forall major, get_major_category major = "Unknown" <-> major = "Unknown") /\
  get_major_category (standardize_major CMissing) = "Unknown" /\
  (forall major,
     PyStr.contains "ENGINEERING" (standardize_major major) = false) /\
  (forall major,
     major <> CMissing -> ascii_cell major ->
     let m := PyStr.upper (PyStr.strip (py_str major)) in
     PyStr.contains "ENG" m = true ->
     PyStr.contains "COMP SCI" m = false -> PyStr.contains "BIO" m = false ->
     PyStr.contains "PSYCH" m = false -> PyStr.contains "COMM" m = false ->
     PyStr.contains "ECON" m = false ->
     standardize_major major = "ENGLISH" /\
     get_major_category (standardize_major major) = "Humanities") /\
  (forall major,
     major <> CMissing -> ascii_cell major ->
     PyStr.contains "ENG" (PyStr.upper (PyStr.strip (py_str major))) = true ->
     get_major_category (standardize_major major)
       ∈ ["STEM"; "Social Sciences"; "Other"; "Humanities"]) /\
  get_major_category (standardize_major (CStr " Mechanical Engineering "))
    = "Humanities" /\
  standardize_major (CStr "Biomedical Engineering") = "BIOLOGY" /\
  get_major_category (standardize_major (CStr "Biomedical Engineering")) = "STEM" /\
  get_major_category "ENGINEERING" = "STEM" /\
  get_major_category "EARTH SCIENCE" = "Arts".
Proof.
  split; [| split; [| split; [reflexivity | split; [| split; [| split]]]]].
  - intros major. unfold get_major_category.
    destruct (String.eqb major "Unknown"); [compute_done |].
    destruct (first_category major_categories major) as [c |] eqn:E;
      [| compute_done].
    apply first_category_labels in E. cbn [default from_option id].
    repeat (apply elem_of_cons in E as [-> | E]; [compute_done |]).
    by apply elem_of_nil in E.
  - intros major. unfold get_major_category.
    destruct (String.eqb_spec major "Unknown") as [-> | Hne]; [done |].
    split; [| done].
    destruct (first_category major_categories major) as [c |] eqn:E;
      [| discriminate].
    apply first_category_labels in E. cbn [default from_option id]. intros ->.
    repeat (apply elem_of_cons in E as [E | E]; [discriminate E |]).
    by apply elem_of_nil in E.
  - apply standardised_not_engineering.
  - intros major Hm _ m He H1 H2 H3 H4 H5.
    assert (Hs : standardize_major major = "ENGLISH").
    { unfold standardize_major.
      assert (Hna : isna major = false) by (by destruct major).
      rewrite Hna. cbv zeta. fold m. unfold variations. cbn [first_variation].
      by rewrite H1, H2, H3, H4, H5, He. }
    split; [exact Hs |]. rewrite Hs. vm_compute. reflexivity.
  - intros major Hm _ He. unfold standardize_major.
    assert (Hna : isna major = false) by (by destruct major).
    rewrite Hna. cbv zeta. revert He.
    set (m := PyStr.upper (PyStr.strip (py_str major))). intros He.
    unfold variations. cbn [first_variation].
    destruct (PyStr.contains "COMP SCI" m); [compute_done |].
    destruct (PyStr.contains "BIO" m); [compute_done |].
    destruct (PyStr.contains "PSYCH" m); [compute_done |].
    destruct (PyStr.contains "COMM" m); [compute_done |].
    destruct (PyStr.contains "ECON" m); [compute_done |].
    rewrite He. compute_done.
  - repeat split; vm_compute; reflexivity.
Qed.

(** ** Attendees of one session and repeated attendances *)

Lemma single_count_bound {A} (f : A -> nat) `{!forall x, Decision (f x = 1%nat)}
    (xs : list A) :
  (forall x, x ∈ xs -> (1 <= f x)%nat) ->
  let single := length (filter (fun x => f x = 1%nat) xs) in
  (2 * length xs <= sum_list (f <$> xs) + single)%nat /\
  ((2 * length xs = sum_list (f <$> xs) + single)%nat
   <-> forall x, x ∈ xs -> (f x <= 2)%nat) /\
  (single = length xs <-> sum_list (f <$> xs) = length xs).
Proof.
  cbv zeta. induction xs as [| x xs IH]; intros Hge.
  - split; [simpl; lia |]. split; [| done]. split; [| done]. intros _ y Hy.
    by apply elem_of_nil in Hy.
  - assert (Hx : (1 <= f x)%nat) by (apply Hge, elem_of_cons; by left).
    destruct IH as (IH1 & IH2 & IH3);
      [intros y Hy; apply Hge, elem_of_cons; by right |].
    pose proof (length_filter (fun x => f x = 1%nat) xs) as Hf.
    rewrite fmap_cons, sum_list_cons, filter_cons. cbn [length].
    case_decide as H1; cbn [length].
    + split; [lia |]. split; [| lia]. split.
      * intros Heq y Hy. apply elem_of_cons in Hy as [-> | Hy]; [lia |].
        apply IH2; [lia | done].
      * intros Hall.
        assert (2 * length xs
                = sum_list (f <$> xs) + length (filter (fun x => f x = 1%nat) xs))%nat.
        { apply IH2. intros y Hy. apply Hall, elem_of_cons. by right. }
        lia.
    + split; [lia |]. split; [| lia]. split.
      * intros Heq y Hy. apply elem_of_cons in Hy as [-> | Hy]; [lia |].
        apply IH2; [lia | done].
      * intros Hall.
        assert (2 * length xs
                = sum_list (f <$> xs) + length (filter (fun x => f x = 1%nat) xs))%nat.
        { apply IH2. intros y Hy. apply Hall, elem_of_cons. by right. }
        assert (f x <= 2)%nat by (apply Hall, elem_of_cons; by left).
        lia.
Qed.

(** X20: the number shown as "Multi-Session Attendees" counts repeated
    attendances, not people: it is at least the number of unique attendees
    who are not single-session attendees, and equal to it exactly when
    nobody attended more than two sessions; the single-session attendees
    are all the unique attendees exactly when that number is zero. *)
Theorem multi_session_counts_attendances (sets : gmap string (gset string)) :
  (single_session_count sets <= size (total_unique sets))%nat /\
  Z.of_nat (size (total_unique sets)) - Z.of_nat (single_session_count sets)
    <= multi_session_attendees sets /\
  (Z.of_nat (size (total_unique sets)) - Z.of_nat (single_session_count sets)
     = multi_session_attendees sets
   <-> forall a, a ∈ total_unique sets -> (attendance_count sets a <= 2)%nat) /\
  (single_session_count sets = size (total_unique sets)
   <-> multi_session_attendees sets = 0).
Proof.
  assert (Hdc : sum_list (attendance_count sets <$> elements (total_unique sets))
                = total_attendees sets).
  { unfold attendance_count, total_attendees. apply double_counting.
    intros [k s] Hks. simpl. unfold total_unique.
    intros a Ha. apply elem_of_union_list. exists s. split; [| done].
    apply list_elem_of_fmap. by exists (k, s). }
  assert (Hpos : forall x, x ∈ elements (total_unique sets) ->
                           (1 <= attendance_count sets x)%nat).
  { intros x Hx. by apply attendance_count_pos, elem_of_elements. }
  destruct (single_count_bound (attendance_count sets)
              (elements (total_unique sets)) Hpos) as (Hb & Heq & Hone).
  rewrite Hdc in Hb, Heq, Hone.
  assert (Hsz : size (total_unique sets) = length (elements (total_unique sets)))
    by done.
  assert (Hle : (single_session_count sets <= size (total_unique sets))%nat).
  { unfold single_session_count. rewrite Hsz. apply length_filter. }
  unfold single_session_count in *. unfold multi_session_attendees.
  rewrite Hsz in *.
  split; [exact Hle |]. split; [lia |]. split.
  - split.
    + intros H a Ha. apply Heq; [lia | by apply elem_of_elements].
    + intros H.
      assert (2 * length (elements (total_unique sets))
              = total_attendees sets
                + length (filter (fun a => attendance_count sets a = 1%nat)
                            (elements (total_unique sets))))%nat.
      { apply Heq. intros x Hx. apply H. by apply elem_of_elements. }
      lia.
  - lia.
Qed.

(** ** Decade labels of the three consumers *)

Lemma decade_fmt_inj (a b : Z) : decade_fmt a = decade_fmt b -> a = b.
Proof.
  unfold decade_fmt. intros H. apply app_cancel_r in H.
  by apply (inj pretty) in H.
Qed.

Lemma decade_fmt_not_pre (z : Z) : decade_fmt z <> "Pre-1950s".
Proof.
  unfold decade_fmt. change "Pre-1950s" with ("Pre-1950" +:+ "s").
  intros H. apply app_cancel_r in H.
  pose proof (int_of_str_pretty z) as Hz. rewrite H in Hz.
  vm_compute in Hz. discriminate Hz.
Qed.

Lemma decade_of_2020s (z : Z) : 2020 <= z < 2030 -> decade_fmt (z / 10 * 10) = "2020s".
Proof.
  intros Hz. replace (z / 10 * 10) with 2020; [reflexivity |].
  pose proof (Z.div_mod z 10 ltac:(lia)) as Hd.
  pose proof (Z.mod_pos_bound z 10 ltac:(lia)) as Hm. lia.
Qed.

(** [get_decade] and [get_decade_label] on an integer year. *)
Lemma get_decade_vs_label (z : Z) :
  get_decade_label (CInt z) = decade_fmt (z / 10 * 10) /\
  (get_decade (CInt z) = get_decade_label (CInt z) <-> 1950 <= z < 2030).
Proof.
  split; [reflexivity |].
  unfold get_decade, get_decade_label. cbn [isna py_int].
  destruct (Z.ltb_spec z 1950) as [Hlo | Hlo].
  { split; [| lia]. intros H. symmetry in H. by apply decade_fmt_not_pre in H. }
  destruct (Z.leb_spec 2020 z) as [Hhi | Hhi]; [| split; [lia | done]].
  split.
  - intros H. change "2020s" with (decade_fmt 2020) in H.
    apply decade_fmt_inj in H.
    pose proof (Z.div_mod z 10 ltac:(lia)) as Hd.
    pose proof (Z.mod_pos_bound z 10 ltac:(lia)) as Hm. lia.
  - intros Hz. symmetry. apply decade_of_2020s. lia.
Qed.

(** The integer a float year is truncated to lies in a range of integers
    when the year does. *)
Lemma Qtrunc_range (q : Q) (a b : Z) :
  0 < a -> (a <= Qtrunc q < b <-> (inject_Z a <= q)%Q /\ (q < inject_Z b)%Q).
Proof.
  intros Ha. destruct (Qlt_le_dec q 0) as [Hneg | Hpos].
  - destruct (Qtrunc_neg q) as [Ht _]; [by apply Qlt_not_le |].
    split; [lia |].
    intros [H1 H2]. exfalso.
    assert (H0 : (0 <= q)%Q).
    { eapply Qle_trans; [| exact H1]. change 0%Q with (inject_Z 0).
      rewrite <- Zle_Qle. lia. }
    by apply Qle_not_lt in H0.
  - rewrite (Qtrunc_nonneg q Hpos). split.
    + intros [H1 H2]. split.
      * eapply Qle_trans; [| apply Qfloor_le]. by rewrite <- Zle_Qle.
      * eapply Qlt_le_trans; [apply Qlt_floor |].
        rewrite <- Zle_Qle. lia.
    + intros [H1 H2]. split.
      * apply Z.leb_le. rewrite <- Qle_bool_floor. by apply Qle_bool_iff.
      * apply Z.nle_gt. intros Hc. apply Z.leb_le in Hc.
        rewrite <- Qle_bool_floor in Hc. apply Qle_bool_iff in Hc.
        by apply Qle_not_lt in Hc.
Qed.

Lemma get_decade_vs_label_float (q : Q) :
  get_decade_label (CFloat q) = decade_fmt (Qtrunc q / 10 * 10) /\
  (get_decade (CFloat q) = get_decade_label (CFloat q)
   <-> (1950 <= q)%Q /\ (q < 2030)%Q).
Proof.
  split; [reflexivity |].
  change 1950%Q with (inject_Z 1950). change 2030%Q with (inject_Z 2030).
  rewrite <- (Qtrunc_range q 1950 2030) by lia.
  apply (get_decade_vs_label (Qtrunc q)).
Qed.

Lemma get_decade_mid_range (y : cell) :
  mid_range_year y ->
  get_decade y = numeric_decade y /\ get_decade_label y = numeric_decade y.
Proof.
  destruct y as [| z | q | s | t]; simpl; try done.
  - intros Hz. destruct (get_decade_vs_label z) as [H1 H2].
    split; [by rewrite (proj2 H2 Hz) | done].
  - intros Hq. destruct (get_decade_vs_label_float q) as [H1 H2].
    assert (H0 : (0 <= q)%Q).
    { eapply Qle_trans; [| exact (proj1 Hq)]. discriminate. }
    rewrite (proj2 H2 Hq), H1. by rewrite (Qtrunc_nonneg q H0).
Qed.

Lemma get_decade_label_numeric (y : cell) :
  numeric_year y -> get_decade_label y = numeric_decade y.
Proof.
  destruct y as [| z | q | s | t]; simpl; try done.
  intros [Hq _]. unfold get_decade_label. cbn [isna py_int].
  by rewrite (Qtrunc_nonneg q Hq).
Qed.

Lemma floor_decade_in_int64 (z : Z) :
  0 <= z < 2 ^ 63 -> wrap64 (z / 10 * 10) = z / 10 * 10.
Proof.
  intros Hz. apply wrap64_id. unfold in_int64.
  pose proof (Z.div_mod z 10 ltac:(lia)) as Hd.
  pose proof (Z.mod_pos_bound z 10 ltac:(lia)) as Hm.
  apply andb_true_intro. split; [apply Z.leb_le | apply Z.ltb_lt]; lia.
Qed.

(** Row [i] of the 'Decade' column made from the year column [yr]. *)
Lemma decade_column_cell (yr : column) (i : nat) (y : cell) :
  cell_at yr i = Some y ->
  (numeric_year y \/ (y = CMissing /\ is_datetime yr = false)) ->
  cell_at (decade_column (to_numeric (replace_empty yr))) i
  = Some (CStr (numeric_decade y)).
Proof.
  intros Hy Hr. destruct yr as [l | l | l | l]; simpl in Hy.
  - (* object *)
    assert (Hre : replace_empty_cell y = y).
    { destruct Hr as [Hr | [-> _]]; [| done]. by destruct y. }
    assert (Hof : ToNumeric.of_cell y = y).
    { destruct Hr as [Hr | [-> _]]; [| done]. by destruct y. }
    cbn [replace_empty to_numeric].
    set (r := map ToNumeric.of_cell (map replace_empty_cell l)).
    assert (Hri : r !! i = Some y).
    { subst r. change (map ?f ?x) with (f <$> x).
      rewrite !list_lookup_fmap, Hy. simpl. by rewrite Hre, Hof. }
    destruct (forallb is_int64_cell r) eqn:E.
    + rewrite forallb_forall in E.
      assert (Hin : In y r).
      { apply list_elem_of_In. by eapply list_elem_of_lookup_2. }
      specialize (E y Hin). destruct y; try discriminate E.
      simpl. change (map ?f ?x) with (f <$> x).
      rewrite !list_lookup_fmap, Hri. simpl.
      destruct Hr as [Hr | [[=] _]]. cbn [numeric_year] in Hr.
      rewrite floor_decade_in_int64; [done | lia].
    + simpl. change (map ?f ?x) with (f <$> x).
      rewrite !list_lookup_fmap, Hri. simpl. do 2 f_equal.
      destruct Hr as [Hr | [-> _]]; [| done].
      destruct y as [| z | q | s | t]; simpl in *; try done.
      * by rewrite Qtrunc_floor_decade, Qfloor_Z.
      * by rewrite Qtrunc_floor_decade.
  - (* int64 *)
    destruct (l !! i) as [z |] eqn:E; [| discriminate]. injection Hy as <-.
    simpl. change (map ?f ?x) with (f <$> x).
    rewrite list_lookup_fmap, E. simpl.
    destruct Hr as [Hr | [[=] _]]. cbn [numeric_year] in Hr.
    rewrite floor_decade_in_int64; [done | lia].
  - (* float64 *)
    destruct (l !! i) as [o |] eqn:E; [| discriminate]. injection Hy as <-.
    simpl. change (map ?f ?x) with (f <$> x).
    rewrite !list_lookup_fmap, E. simpl. do 2 f_equal.
    destruct o as [q |]; simpl; [| done]. by rewrite Qtrunc_floor_decade.
  - (* datetime64 *)
    destruct (l !! i) as [o |] eqn:E; [| discriminate]. injection Hy as <-.
    destruct Hr as [Hr | [_ Hd]]; [| discriminate Hd].
    by destruct o.
Qed.

Lemma mid_range_numeric (y : cell) : mid_range_year y -> numeric_year y.
Proof.
  destruct y as [| z | q | s | t]; cbn [mid_range_year numeric_year];
    try done; [lia |].
  intros [H1 H2]. split.
  - eapply Qle_trans; [| exact H1]. discriminate.
  - eapply Qlt_trans; [exact H2 |]. reflexivity.
Qed.

(** C4, as stated, fails: for the class of 1949 the normaliser and
    [get_decade_label] say "1940s" and [get_decade] says "Pre-1950s"; for
    2031 they say "2030s" and [get_decade] says "2020s". *)
Lemma decade_consumers_disagree :
  (exists t' d, clean_table (dates := no_dates) class_1949_table = Some t' /\
                cols t' !! "Decade" = Some d /\
                cell_at d 0 = Some (CStr "1940s") /\
                cell_at d 2 = Some (CStr "2030s")) /\
  get_decade_label (CInt 1949) = "1940s" /\
  get_decade (CInt 1949) = "Pre-1950s" /\
  get_decade_label (CInt 2031) = "2030s" /\
  get_decade (CInt 2031) = "2020s".
Proof.
  split; [| repeat split; vm_compute; reflexivity].
  eexists _, _. split; [vm_compute; reflexivity |].
  split; [vm_compute; reflexivity |]. split; vm_compute; reflexivity.
Qed.

(** C4 (amended): for a year value that is a number from 1950 up to, but
    not including, 2030, the label the normaliser writes to 'Decade', the
    label of [get_decade_label] and the label of [get_decade] are the same
    (the floor of the year to its decade, followed by "s"); for a missing
    year all three are "Unknown", the normaliser's on any year column that
    is not datetime-typed.  For a number below 1950 or from 2030 on the
    label of [get_decade] differs from that of [get_decade_label]: only
    [get_decade] has the buckets "Pre-1950s" and "2020s".  The normaliser
    and [get_decade_label] give the same label for every number from 0 up
    and below 2^53. *)
Theorem decade_consumers_agree `{dates : DateParser} :
  (forall y, mid_range_year y ->
     get_decade y = numeric_decade y /\ get_decade_label y = get_decade y) /\
  (forall y, is_number y ->
     (get_decade y = get_decade_label y <-> mid_range_year y)) /\
  (get_decade CMissing = "Unknown" /\ get_decade_label CMissing = "Unknown") /\
  (forall (t : table) (yr : column) (i : nat) (y : cell),
      cols t !! "CL YR" = Some yr -> cell_at yr i = Some y ->
      (numeric_year y \/ (y = CMissing /\ is_datetime yr = false)) ->
      exists t' d,
        clean_table t = Some t' /\ cols t' !! "Decade" = Some d /\
        cell_at d i = Some (CStr (get_decade_label y)) /\
        (mid_range_year y \/ y = CMissing ->
         cell_at d i = Some (CStr (get_decade y)))).
Proof.
  split; [| split; [| split; [by split |]]].
  - intros y Hy. destruct (get_decade_mid_range y Hy) as [H1 H2].
    split; congruence.
  - intros [| z | q | s | t]; simpl; try done; intros _.
    + apply get_decade_vs_label.
    + apply get_decade_vs_label_float.
  - intros t yr i y Hyr Hy Hr.
    eexists _, _. split; [apply clean_table_eq |]. cbn [cols nrows].
    unfold normalised. rewrite with_total_lookup_ne by done.
    rewrite before_total_lookup_Decade, Hyr. split; [reflexivity |].
    rewrite (decade_column_cell yr i y Hy Hr).
    assert (Hl : numeric_decade y = get_decade_label y).
    { destruct Hr as [Hr | [-> _]]; [| done].
      symmetry. by apply get_decade_label_numeric. }
    split; [by rewrite Hl |].
    intros [Hm | ->]; [| done].
    by rewrite (proj1 (get_decade_mid_range y Hm)).
Qed.
